(** * PokerOddTrainer: the rules and decision engine, embedded and verified

    A shallow embedding of the TypeScript sources

      - [utils/deckUtils.ts], [utils/handEvaluator.ts], [utils/oddsCalculator.ts],
      - [utils/pokerLogic.ts], [hooks/useGameState.ts], [hooks/useDeck.ts],
      - [services/ai/AIOpponent.ts], [services/ai/handStrength.ts],

    followed by the properties of the specification that concern them.

    Conventions of the embedding.
      - A JavaScript [number] that holds a chip amount, a percentage or a
        random draw is a rational [Q]; [===] on such numbers is [Qeq_bool].
        Array lengths, indices and counters are [nat]; rank values and
        seat differences are [Z].
        [calculateHitProbability] is given on binary64 numbers as well.
        The rational arithmetic is the arithmetic of the program where
        the doubles are exact: on the chips of the game (whole numbers of
        half big blinds), their sums, differences and halves.  A product
        or quotient that is not exact in binary64 can fall on the other
        side of a [Math.floor] or [Math.round]; the statements about
        [determineRaiseSize], [calculatePotOdds] and [calculateEV] are
        bounds and monotonicity facts that do not depend on such a step,
        and statements that need exact amounts take chips.
      - A JavaScript exception is the [Throw] branch of [result].
      - An array slot that may hold [undefined] is an [option].
      - A React state updater [setGameState(prev => next)] is the function
        from [prev] to [next]; what it reads from its closure ([deal],
        [Date.now()], the AI map) is an argument. *)

From Stdlib Require Import String Ascii.
From Stdlib Require Import List Bool Arith ZArith QArith Qround Qminmax Qabs.
From Stdlib Require Import Lia Lqa Permutation Sorted.
From Stdlib Require Import PrimFloat SpecFloat FloatOps Uint63.
Import ListNotations.

Set Implicit Arguments.
Close Scope Q_scope.

(* ================================================================= *)
(** ** Exceptions *)

Inductive JsError : Type :=
| InsufficientCards   (* 'Need at least 5 cards to evaluate a hand' *)
| CannotDeal          (* 'Cannot deal n cards from deck with m cards' *)
| TypeError.          (* property read on [undefined] *)

Inductive result (A : Type) : Type :=
| Ok (a : A)
| Throw (e : JsError).

Arguments Ok {A} a.
Arguments Throw {A} e.

Definition bind {A B : Type} (m : result A) (k : A -> result B) : result B :=
  match m with
  | Ok a => k a
  | Throw e => Throw e
  end.

Notation "'let*' x ':=' m 'in' k" := (bind m (fun x => k))
  (at level 10, x pattern, m at level 100, k at level 200).

(** [o.prop] where [o] is possibly [undefined]. *)
Definition deref {A : Type} (o : option A) : result A :=
  match o with
  | Some a => Ok a
  | None => Throw TypeError
  end.

(* ================================================================= *)
(** ** types/poker.types.ts *)

Inductive Suit : Type := hearts | diamonds | clubs | spades.

Inductive Rank : Type :=
| R2 | R3 | R4 | R5 | R6 | R7 | R8 | R9 | RT | RJ | RQ | RK | RA.

Record Card : Type := mkCard { suit : Suit; rank : Rank }.

Inductive HandRanking : Type :=
| high_card | pair | two_pair | three_of_a_kind | straight
| flush | full_house | four_of_a_kind | straight_flush | royal_flush.

(** [cards] is the JavaScript array of the selected cards; a slot is [None]
    when the source stored [undefined] there. *)
Record HandEvaluation : Type := mkEval {
  ranking : HandRanking;
  cards : list (option Card);
  description : string
}.

Definition Suit_eqb (a b : Suit) : bool :=
  match a, b with
  | hearts, hearts | diamonds, diamonds | clubs, clubs | spades, spades => true
  | _, _ => false
  end.

(* ================================================================= *)
(** ** utils/deckUtils.ts *)

Definition SUITS : list Suit := [hearts; diamonds; clubs; spades].
Definition RANKS : list Rank := [R2; R3; R4; R5; R6; R7; R8; R9; RT; RJ; RQ; RK; RA].

(** [createDeck]: suits outermost, ranks innermost. *)
Definition createDeck : list Card :=
  flat_map (fun s => map (fun r => mkCard s r) RANKS) SUITS.

(** [dealCards(deck, count)]. *)
Definition dealCards (deck : list Card) (count : nat)
  : result (list Card * list Card) :=
  if length deck <? count then Throw CannotDeal
  else Ok (firstn count deck, skipn count deck).

Definition getRankValue (r : Rank) : Z :=
  match r with
  | R2 => 2 | R3 => 3 | R4 => 4 | R5 => 5 | R6 => 6 | R7 => 7 | R8 => 8
  | R9 => 9 | RT => 10 | RJ => 11 | RQ => 12 | RK => 13 | RA => 14
  end%Z.

Definition Rank_eqb (a b : Rank) : bool := (getRankValue a =? getRankValue b)%Z.

Definition Card_eqb (a b : Card) : bool :=
  Rank_eqb (rank a) (rank b) && Suit_eqb (suit a) (suit b).

(** The string a rank is written as in a template literal. *)
Definition rankStr (r : Rank) : string :=
  match r with
  | R2 => "2" | R3 => "3" | R4 => "4" | R5 => "5" | R6 => "6" | R7 => "7"
  | R8 => "8" | R9 => "9" | RT => "T" | RJ => "J" | RQ => "Q" | RK => "K"
  | RA => "A"
  end%string.

(** [Array.prototype.sort] with the comparator [(a, b) => key(b) - key(a)].
    The sort is stable (ECMAScript 2019), so its result is the one of the
    stable insertion sort: an element goes in front of the first element
    of the sorted tail whose key is not larger than its own. *)
Section SortDesc.
Variable A : Type.
Variable key : A -> Z.

Fixpoint insertDesc (x : A) (l : list A) : list A :=
  match l with
  | [] => [x]
  | y :: l' => if (key x <? key y)%Z then y :: insertDesc x l' else x :: l
  end.

Fixpoint sortDesc (l : list A) : list A :=
  match l with
  | [] => []
  | x :: l' => insertDesc x (sortDesc l')
  end.

End SortDesc.

(** [sortCardsByRank]: a sorted copy, rank descending. *)
Definition sortCardsByRank (cs : list Card) : list Card :=
  sortDesc (fun c => getRankValue (rank c)) cs.

(** [arr[i]]: [undefined] out of range. *)
Definition jsIndex {A : Type} (arr : list (option A)) (i : nat) : option A :=
  match nth_error arr i with
  | Some slot => slot
  | None => None
  end.

(* ================================================================= *)
(** ** Plain objects used as counters

    [Record<string, number>] built by [counts[k] = (counts[k] || 0) + 1].
    The list holds the properties in creation order.  [Object.keys],
    [Object.entries] and [Object.values] enumerate the keys that are
    canonical array indices first, in ascending numeric order, and then
    the other string keys in creation order. *)
Section JsObject.
Variable K : Type.
Variable K_eqb : K -> K -> bool.
(** [Some n] when the key, as a string, is the array index [n]. *)
Variable keyIndex : K -> option Z.

Definition JsObject : Type := list (K * nat).

Fixpoint objGet (o : JsObject) (k : K) : option nat :=
  match o with
  | [] => None
  | (k', v) :: o' => if K_eqb k k' then Some v else objGet o' k
  end.

Fixpoint objSet (o : JsObject) (k : K) (v : nat) : JsObject :=
  match o with
  | [] => [(k, v)]
  | (k', v') :: o' =>
      if K_eqb k k' then (k, v) :: o' else (k', v') :: objSet o' k v
  end.

(** [counts[k] || 0] *)
Definition objGetOr0 (o : JsObject) (k : K) : nat :=
  match objGet o k with
  | Some v => v
  | None => 0
  end.

Definition isIndexKey (e : K * nat) : bool :=
  match keyIndex (fst e) with Some _ => true | None => false end.

Definition indexOf (e : K * nat) : Z :=
  match keyIndex (fst e) with Some n => n | None => 0%Z end.

(** The index keys are distinct: reversing their descending order gives
    the ascending one. *)
Definition objEntries (o : JsObject) : list (K * nat) :=
  rev (sortDesc indexOf (filter isIndexKey o))
  ++ filter (fun e => negb (isIndexKey e)) o.

Definition objKeys (o : JsObject) : list K := map fst (objEntries o).
Definition objValues (o : JsObject) : list nat := map snd (objEntries o).

(** [for (const x of xs) counts[key(x)] = (counts[key(x)] || 0) + 1] *)
Definition countBy (A : Type) (key : A -> K) (xs : list A) : JsObject :=
  fold_left (fun o x => objSet o (key x) (objGetOr0 o (key x) + 1)) xs [].

End JsObject.

(** Of the rank strings, ['2'] to ['9'] are array indices. *)
Definition rankKeyIndex (r : Rank) : option Z :=
  if (getRankValue r <=? 9)%Z then Some (getRankValue r) else None.

(* ================================================================= *)
(** ** utils/handEvaluator.ts *)

Definition getRankCounts (cs : list Card) : JsObject Rank :=
  countBy Rank_eqb rank cs.

Definition rankEntries (cs : list Card) : list (Rank * nat) :=
  objEntries rankKeyIndex (getRankCounts cs).

Definition hasRank (r : Rank) (c : Card) : bool := Rank_eqb (rank c) r.
Definition hasSuit (s : Suit) (c : Card) : bool := Suit_eqb (suit c) s.

(** [`${ranks[i]}`]: an [undefined] element is written ["undefined"]. *)
Definition templateRank (o : option Rank) : string :=
  match o with
  | Some r => rankStr r
  | None => "undefined"
  end.

(** [Array.from(new Set(xs))]: first occurrences, in order. *)
Fixpoint uniqueRanksOf (rs : list Rank) : list Rank :=
  match rs with
  | [] => []
  | r :: rs' => r :: filter (fun x => negb (Rank_eqb x r)) (uniqueRanksOf rs')
  end.

Definition includes (rs : list Rank) (r : Rank) : bool :=
  existsb (fun x => Rank_eqb x r) rs.

(** The inner loop of [checkStraight]: every adjacent pair differs by 1. *)
Fixpoint isConsecutive (values : list Z) : bool :=
  match values with
  | a :: ((b :: _) as tl) =>
      if (a - b =? 1)%Z then isConsecutive tl else false
  | _ => true
  end.

(** The outer loop of [checkStraight], on the suffix [uniqueRanks.slice(i)]:
    it runs while five ranks are left, and returns the first window of
    five consecutive ranks. *)
Fixpoint firstRun (rs : list Rank) : option (list Rank) :=
  match rs with
  | [] => None
  | _ :: tl =>
      if 5 <=? length rs then
        let fiveRanks := firstn 5 rs in
        if isConsecutive (map getRankValue fiveRanks) then Some fiveRanks
        else firstRun tl
      else None
  end.

Definition checkStraight (cs : list Card) : result (option HandEvaluation) :=
  let sorted := sortCardsByRank cs in
  let uniqueRanks := uniqueRanksOf (map rank sorted) in
  if includes uniqueRanks RA && includes uniqueRanks R2 &&
     includes uniqueRanks R3 && includes uniqueRanks R4 &&
     includes uniqueRanks R5
  then
    let straightCards := map (fun r => find (hasRank r) sorted) [R5; R4; R3; R2; RA] in
    Ok (Some (mkEval straight straightCards "Straight, 5 high (Wheel)"))
  else
    match firstRun uniqueRanks with
    | Some fiveRanks =>
        let straightCards := map (fun r => find (hasRank r) sorted) fiveRanks in
        let* c0 := deref (jsIndex straightCards 0) in
        Ok (Some (mkEval straight straightCards
                    ("Straight, " ++ rankStr (rank c0) ++ " high")))
    | None => Ok None
    end.

Fixpoint checkStraightFlushIn (suits : list Suit) (cs : list Card)
  : result (option HandEvaluation) :=
  match suits with
  | [] => Ok None
  | s :: suits' =>
      let suitedCards := filter (hasSuit s) cs in
      if 5 <=? length suitedCards then
        let* st := checkStraight suitedCards in
        match st with
        | Some st =>
            let* c0 := deref (jsIndex (cards st) 0) in
            Ok (Some (mkEval straight_flush (cards st)
                        ("Straight Flush, " ++ rankStr (rank c0) ++ " high")))
        | None => checkStraightFlushIn suits' cs
        end
      else checkStraightFlushIn suits' cs
  end.

Definition checkStraightFlush (cs : list Card) : result (option HandEvaluation) :=
  checkStraightFlushIn SUITS cs.

Definition checkRoyalFlush (cs : list Card) : result (option HandEvaluation) :=
  let* sf := checkStraightFlush cs in
  match sf with
  | Some sf =>
      let* c0 := deref (jsIndex (cards sf) 0) in
      if Rank_eqb (rank c0) RA
      then Ok (Some (mkEval royal_flush (cards sf) "Royal Flush"))
      else Ok None
  | None => Ok None
  end.

Definition checkFourOfAKind (cs : list Card) : result (option HandEvaluation) :=
  match find (fun e => snd e =? 4) (rankEntries cs) with
  | Some (r, _) =>
      let fourCards := filter (hasRank r) cs in
      let kicker := hd_error (sortCardsByRank (filter (fun c => negb (hasRank r c)) cs)) in
      Ok (Some (mkEval four_of_a_kind (map Some fourCards ++ [kicker])
                  ("Four of a Kind, " ++ rankStr r ++ "s")))
  | None => Ok None
  end.

(** The body of the two [for (const rank of ranks)] loops of
    [checkFullHouse] that keep the highest qualifying rank:
    [if (!best || getRankValue(rank) > getRankValue(best)) best = rank]. *)
Definition keepHigher (best : option Rank) (r : Rank) : option Rank :=
  match best with
  | None => Some r
  | Some b => if (getRankValue r >? getRankValue b)%Z then Some r else best
  end.

Definition differsFrom (r : Rank) (o : option Rank) : bool :=
  match o with
  | Some t => negb (Rank_eqb r t)
  | None => true
  end.

Definition checkFullHouse (cs : list Card) : result (option HandEvaluation) :=
  let rankCounts := getRankCounts cs in
  let ranks := objKeys rankKeyIndex rankCounts in
  let count := objGetOr0 Rank_eqb rankCounts in
  let threeRank :=
    fold_left (fun best r => if 3 <=? count r then keepHigher best r else best)
      ranks None in
  let pairRank :=
    fold_left (fun best r =>
                 if differsFrom r threeRank && (2 <=? count r)
                 then keepHigher best r else best)
      ranks None in
  let pairRank :=
    match threeRank, pairRank with
    | Some _, None =>
        find (fun r => differsFrom r threeRank && (3 <=? count r)) ranks
    | _, _ => pairRank
    end in
  match threeRank, pairRank with
  | Some t, Some p =>
      let threeCards := firstn 3 (filter (hasRank t) cs) in
      let pairCards := firstn 2 (filter (hasRank p) cs) in
      Ok (Some (mkEval full_house (map Some (threeCards ++ pairCards))
                  ("Full House, " ++ rankStr t ++ "s over " ++ rankStr p ++ "s")))
  | _, _ => Ok None
  end.

Fixpoint checkFlushIn (suits : list Suit) (cs : list Card)
  : result (option HandEvaluation) :=
  match suits with
  | [] => Ok None
  | s :: suits' =>
      let suitedCards := filter (hasSuit s) cs in
      if 5 <=? length suitedCards then
        let sorted := sortCardsByRank suitedCards in
        let flushCards := firstn 5 sorted in
        let* c0 := deref (hd_error flushCards) in
        Ok (Some (mkEval flush (map Some flushCards)
                    ("Flush, " ++ rankStr (rank c0) ++ " high")))
      else checkFlushIn suits' cs
  end.

Definition checkFlush (cs : list Card) : result (option HandEvaluation) :=
  checkFlushIn SUITS cs.

Definition checkThreeOfAKind (cs : list Card) : result (option HandEvaluation) :=
  match find (fun e => snd e =? 3) (rankEntries cs) with
  | Some (r, _) =>
      let threeCards := filter (hasRank r) cs in
      let kickers :=
        firstn 2 (sortCardsByRank (filter (fun c => negb (hasRank r c)) cs)) in
      Ok (Some (mkEval three_of_a_kind (map Some (threeCards ++ kickers))
                  ("Three of a Kind, " ++ rankStr r ++ "s")))
  | None => Ok None
  end.

Definition checkTwoPair (cs : list Card) : result (option HandEvaluation) :=
  let pairs := map fst (filter (fun e => 2 <=? snd e) (rankEntries cs)) in
  if 2 <=? length pairs then
    let pairs := sortDesc getRankValue pairs in
    let topTwoPairs := firstn 2 pairs in
    let pairCards :=
      flat_map (fun r => firstn 2 (filter (hasRank r) cs)) topTwoPairs in
    let kicker :=
      hd_error (sortCardsByRank
                  (filter (fun c => negb (includes topTwoPairs (rank c))) cs)) in
    Ok (Some (mkEval two_pair (map Some pairCards ++ [kicker])
                ("Two Pair, " ++ templateRank (nth_error topTwoPairs 0) ++ "s and "
                 ++ templateRank (nth_error topTwoPairs 1) ++ "s")))
  else Ok None.

Definition checkPair (cs : list Card) : result (option HandEvaluation) :=
  match find (fun e => snd e =? 2) (rankEntries cs) with
  | Some (r, _) =>
      let pairCards := filter (hasRank r) cs in
      let kickers :=
        firstn 3 (sortCardsByRank (filter (fun c => negb (hasRank r c)) cs)) in
      Ok (Some (mkEval pair (map Some (pairCards ++ kickers))
                  ("Pair of " ++ rankStr r ++ "s")))
  | None => Ok None
  end.

Definition checkHighCard (cs : list Card) : result HandEvaluation :=
  let sorted := sortCardsByRank cs in
  let bestFive := firstn 5 sorted in
  let* c0 := deref (hd_error bestFive) in
  Ok (mkEval high_card (map Some bestFive) ("High Card, " ++ rankStr (rank c0))).

(** [const x = check(cards); if (x) return x; ...] *)
Definition orElse (m : result (option HandEvaluation))
  (k : result HandEvaluation) : result HandEvaluation :=
  let* x := m in
  match x with
  | Some e => Ok e
  | None => k
  end.

Definition findBestHand (cs : list Card) : result HandEvaluation :=
  orElse (checkRoyalFlush cs)
  (orElse (checkStraightFlush cs)
  (orElse (checkFourOfAKind cs)
  (orElse (checkFullHouse cs)
  (orElse (checkFlush cs)
  (orElse (checkStraight cs)
  (orElse (checkThreeOfAKind cs)
  (orElse (checkTwoPair cs)
  (orElse (checkPair cs)
  (checkHighCard cs))))))))).

Definition evaluateHand (cs : list Card) : result HandEvaluation :=
  if length cs <? 5 then Throw InsufficientCards
  else findBestHand cs.

Definition rankingValues (r : HandRanking) : Z :=
  match r with
  | royal_flush => 10 | straight_flush => 9 | four_of_a_kind => 8
  | full_house => 7 | flush => 6 | straight => 5 | three_of_a_kind => 4
  | two_pair => 3 | pair => 2 | high_card => 1
  end%Z.

(** The loop [for (let i = 0; i < 5; i++)] of [compareHands], entered at [i]
    with [n] iterations left. *)
Fixpoint compareCardsFrom (n i : nat) (cards1 cards2 : list (option Card))
  : result Z :=
  match n with
  | O => Ok 0%Z
  | S n' =>
      let* c1 := deref (jsIndex cards1 i) in
      let card1Value := getRankValue (rank c1) in
      let* c2 := deref (jsIndex cards2 i) in
      let card2Value := getRankValue (rank c2) in
      if (card1Value >? card2Value)%Z then Ok 1%Z
      else if (card1Value <? card2Value)%Z then Ok (-1)%Z
      else compareCardsFrom n' (S i) cards1 cards2
  end.

Definition compareHands (hand1 hand2 : HandEvaluation) : result Z :=
  let value1 := rankingValues (ranking hand1) in
  let value2 := rankingValues (ranking hand2) in
  if (value1 >? value2)%Z then Ok 1%Z
  else if (value1 <? value2)%Z then Ok (-1)%Z
  else compareCardsFrom 5 0 (cards hand1) (cards hand2).

(* ================================================================= *)
(** ** Numbers *)

Open Scope Q_scope.

Definition Qltb (a b : Q) : bool := negb (Qle_bool b a).

(** [Math.floor] and [Math.round] (halves go up). *)
Definition Math_floor (x : Q) : Q := inject_Z (Qfloor x).
Definition Math_round (x : Q) : Q := inject_Z (Qfloor (x + (1 # 2))).

(** [x || 0] for an optional number. *)
Definition orZero (x : option Q) : Q :=
  match x with
  | Some q => q
  | None => 0
  end.

(* ================================================================= *)
(** ** utils/deckUtils.ts, continued *)

(** [arr[i] = v] for an index inside the array. *)
Fixpoint setNth (A : Type) (i : nat) (v : A) (arr : list A) : list A :=
  match arr, i with
  | [], _ => []
  | _ :: rest, O => v :: rest
  | x :: rest, S i' => x :: setNth i' v rest
  end.

(** [[arr[i], arr[j]] = [arr[j], arr[i]]]: both elements are read, then
    [arr[i]] and [arr[j]] are written, in this order.  The indices of
    [shuffleDeck] are inside the array, because [Math.random()] is in
    [0, 1); for other indices the array is left as it is here. *)
Definition swapAt (A : Type) (i j : nat) (arr : list A) : list A :=
  match nth_error arr j, nth_error arr i with
  | Some aj, Some ai => setNth j ai (setNth i aj arr)
  | _, _ => arr
  end.

(** The [for] loop of [shuffleDeck], from index [i] down to 1; [rnd k] is
    the value of the [k]-th call of [Math.random()]. *)
Fixpoint shuffleLoop (rnd : nat -> Q) (i k : nat) (shuffled : list Card)
  : list Card :=
  match i with
  | O => shuffled
  | S i' =>
      let j := Z.to_nat (Qfloor (Math_floor (rnd k * inject_Z (Z.of_nat (i + 1))))) in
      shuffleLoop rnd i' (S k) (swapAt i j shuffled)
  end.

Definition shuffleDeck (rnd : nat -> Q) (deck : list Card) : list Card :=
  shuffleLoop rnd (length deck - 1) 0 deck.

Definition createShuffledDeck (rnd : nat -> Q) : list Card :=
  shuffleDeck rnd createDeck.

Definition suitSymbols (s : Suit) : string :=
  match s with
  | hearts => "h" | diamonds => "d" | clubs => "c" | spades => "s"
  end%string.

Definition formatCard (card : Card) : string :=
  (rankStr (rank card) ++ suitSymbols (suit card))%string.

(* ================================================================= *)
(** ** utils/oddsCalculator.ts *)

(** [calculatePotOdds].  In the source a zero denominator gives an infinity
    or NaN; the rational quotient is 0 there. *)
Definition calculatePotOdds (potSize callAmount : Q) : Q :=
  if Qeq_bool callAmount 0 then 100
  else
    let odds := (callAmount / (potSize + callAmount)) * 100 in
    Math_round (odds * 10) / 10.

Definition dummyRanks : list Rank := [R2; R3; R4; R5; R6].

Definition createDummyCards (count : nat) : list Card :=
  map (fun i => mkCard clubs (nth (i mod 5) dummyRanks R2)) (seq 0 count).

Definition sameCard (known card : Card) : bool :=
  Rank_eqb (rank known) (rank card) && Suit_eqb (suit known) (suit card).

(** The loop [for (const card of availableCards)] of [countOuts], with the
    running value of [outs]. *)
Fixpoint countOutsLoop (heroCards communityCards : list Card)
  (currentHand : HandEvaluation) (availableCards : list Card) (outs : nat)
  : result nat :=
  match availableCards with
  | [] => Ok outs
  | card :: rest =>
      let newCommunity := communityCards ++ [card] in
      let* newHand :=
        evaluateHand (heroCards ++ newCommunity
                      ++ createDummyCards (Nat.max 0 (5 - length newCommunity)%nat)) in
      let* cmp := compareHands newHand currentHand in
      countOutsLoop heroCards communityCards currentHand rest
        (if (cmp >? 0)%Z then S outs else outs)
  end.

Definition countOuts (heroCards communityCards : list Card) : result nat :=
  if 5 <=? length communityCards then Ok 0%nat
  else
    let knownCards := heroCards ++ communityCards in
    let fullDeck := createDeck in
    let availableCards :=
      filter (fun card => negb (existsb (fun known => sameCard known card) knownCards))
        fullDeck in
    let* currentHand :=
      evaluateHand (if 5 <=? length knownCards then knownCards
                    else knownCards ++ createDummyCards (5 - length knownCards)%nat) in
    countOutsLoop heroCards communityCards currentHand availableCards 0%nat.

Definition calculateHitProbability (outs cardsToCome : Q) : Q :=
  if Qeq_bool cardsToCome 1 then Qmin (outs * 2) 100
  else if Qeq_bool cardsToCome 2 then
    let exactProb := 1 - ((47 - outs) / 47) * ((46 - outs) / 46) in
    Math_round (exactProb * 100 * 10) / 10
  else 0.

(** [calculateEV]: the expected value of a call, to two decimals. *)
Definition calculateEV (potSize callAmount equity : Q) : Q :=
  let equityDecimal := equity / 100 in
  let ev := (equityDecimal * (potSize + callAmount)) - callAmount in
  Math_round (ev * 100) / 100.

Definition isProfitableCall (potOdds equity : Q) : bool := Qltb potOdds equity.

Definition calculateImpliedOdds (potSize callAmount estimatedFutureBets : Q) : Q :=
  let totalPot := potSize + estimatedFutureBets in
  calculatePotOdds totalPot callAmount.

(** *** The same function on binary64 numbers

    [calculateHitProbability] once more, on the IEEE 754 double-precision
    numbers a JavaScript engine computes with, to evaluate the concrete
    values of the specification without idealisation. *)

(** [Math.round] of a double: a finite [x = n * 2^e] with [e < 0] goes to
    [floor(x + 1/2)], computed exactly on integers; other values are
    integers, infinities or NaN and are returned as they are.  (The sign
    of a zero result is not modelled.) *)
Definition Math_round64 (x : float) : float :=
  match Prim2SF x with
  | S754_finite s m e =>
      if (0 <=? e)%Z then x
      else
        let n := if s then Z.neg m else Z.pos m in
        let r := ((2 * n + 2 ^ (- e)) / 2 ^ (1 - e))%Z in
        if (r <? 0)%Z then PrimFloat.opp (PrimFloat.of_uint63 (Uint63.of_Z (- r)))
        else PrimFloat.of_uint63 (Uint63.of_Z r)
  | _ => x
  end.

(** [Math.min] of two doubles. *)
Definition Math_min64 (a b : float) : float :=
  if PrimFloat.is_nan a then a
  else if PrimFloat.is_nan b then b
  else if PrimFloat.ltb b a then b else a.

Definition calculateHitProbability64 (outs cardsToCome : float) : float :=
  (if PrimFloat.eqb cardsToCome 1 then Math_min64 (outs * 2) 100
   else if PrimFloat.eqb cardsToCome 2 then
     let exactProb := 1 - ((47 - outs) / 47) * ((46 - outs) / 46) in
     Math_round64 (exactProb * 100 * 10) / 10
   else 0)%float.

(* ================================================================= *)
(** ** types/game.types.ts and types/poker.types.ts, continued *)

Inductive PlayerPosition : Type := hero | opponent1 | opponent2 | opponent3.

Inductive PlayerStyle : Type :=
| tight_aggressive | loose_passive | loose_aggressive | tight_passive
| ultra_aggressive.

Inductive BettingRound : Type := preflop | flop | turn | river.

Inductive PlayerAction : Type := fold | check | call | raise | all_in.

Inductive GamePhase : Type :=
| waiting | dealing | betting | showdown | hand_complete | analysis.

Definition PlayerPosition_eqb (a b : PlayerPosition) : bool :=
  match a, b with
  | hero, hero | opponent1, opponent1 | opponent2, opponent2
  | opponent3, opponent3 => true
  | _, _ => false
  end.

Module PlayerStyleConfig.
Record t : Type := mk {
  name : string;
  style : PlayerStyle;
  vpip : Q;
  pfr : Q;
  aggression : Q;
  bluffFrequency : Q
}.
End PlayerStyleConfig.

Module Player.
Record t : Type := mk {
  position : PlayerPosition;
  name : string;
  stack : Q;
  holeCards : list Card;
  currentBet : Q;
  isFolded : bool;
  isAllIn : bool;
  style : option PlayerStyle
}.
End Player.

Module BetAction.
Record t : Type := mk {
  type : PlayerAction;
  amount : option Q
}.
End BetAction.

Module Action.
Record t : Type := mk {
  player : PlayerPosition;
  playerName : string;
  action : PlayerAction;
  amount : Q;
  timestamp : Z;
  bettingRound : BettingRound
}.
End Action.

Module GameState.
Record t : Type := mk {
  phase : GamePhase;
  bettingRound : BettingRound;
  pot : Q;
  communityCards : list Card;
  players : list Player.t;
  currentPlayerIndex : nat;
  dealerButtonIndex : nat;
  smallBlindIndex : nat;
  bigBlindIndex : nat;
  smallBlind : Q;
  bigBlind : Q;
  currentBet : Q;
  minRaise : Q;
  actionHistory : list Action.t
}.
End GameState.

(** [xs.map((x, index) => f(x, index))] *)
Fixpoint mapiFrom (A B : Type) (f : A -> nat -> B) (i : nat) (xs : list A)
  : list B :=
  match xs with
  | [] => []
  | x :: xs' => f x i :: mapiFrom f (S i) xs'
  end.

Definition mapi (A B : Type) (f : A -> nat -> B) (xs : list A) : list B :=
  mapiFrom f 0 xs.

(** [xs.map(f)] where [f] may throw. *)
Fixpoint mapResult (A B : Type) (f : A -> result B) (xs : list A)
  : result (list B) :=
  match xs with
  | [] => Ok []
  | x :: xs' =>
      let* y := f x in
      let* ys := mapResult f xs' in
      Ok (y :: ys)
  end.

(* ================================================================= *)
(** ** utils/pokerLogic.ts *)

Definition calculateMinRaise (currentBet lastRaise bigBlind : Q) : Q :=
  currentBet + Qmax lastRaise bigBlind.

Definition canCheck (player : Player.t) (currentBet : Q) : bool :=
  Qeq_bool (Player.currentBet player) currentBet.

Definition getCallAmount (player : Player.t) (currentBet : Q) : Q :=
  Qmin (currentBet - Player.currentBet player) (Player.stack player).

Definition isBettingRoundComplete (players : list Player.t) (currentBet : Q)
  : bool :=
  let activePlayers :=
    filter (fun p => negb (Player.isFolded p) && negb (Player.isAllIn p)) players in
  if (length activePlayers =? 0)%nat then true
  else if (length activePlayers =? 1)%nat then true
  else forallb (fun p => Qeq_bool (Player.currentBet p) currentBet) activePlayers.

(** The [while] loop of [getNextPlayerIndex]; [fuel] is
    [players.length - attempts]. *)
Fixpoint getNextPlayerIndexLoop (players : list Player.t) (fuel nextIndex : nat)
  : result nat :=
  let* p := deref (nth_error players nextIndex) in
  if Player.isFolded p || Player.isAllIn p then
    match fuel with
    | O => Ok nextIndex
    | S fuel' =>
        getNextPlayerIndexLoop players fuel' ((nextIndex + 1) mod length players)%nat
    end
  else Ok nextIndex.

Definition getNextPlayerIndex (players : list Player.t) (currentIndex : nat)
  : result nat :=
  getNextPlayerIndexLoop players (length players)
    ((currentIndex + 1) mod length players)%nat.

Definition getActivePlayers (players : list Player.t) : list Player.t :=
  filter (fun p => negb (Player.isFolded p)) players.

Definition sumBets (players : list Player.t) : Q :=
  fold_left (fun sum p => sum + Player.currentBet p) players 0.

Definition calculatePot (players : list Player.t) (currentPot : Q) : Q :=
  currentPot + sumBets players.

(** [collectBets]: the second component is the sum of the street bets. *)
Definition collectBets (players : list Player.t) : list Player.t * Q :=
  (map (fun player =>
          Player.mk (Player.position player) (Player.name player)
            (Player.stack player) (Player.holeCards player)
            0
            (Player.isFolded player) (Player.isAllIn player)
            (Player.style player))
       players,
   sumBets players).

(** [getBlindPositions]: dealer, small blind, big blind.  (For
    [playerCount = 0] the source computes NaN indices.) *)
Definition getBlindPositions (playerCount dealerIndex : nat) : nat * nat * nat :=
  if (playerCount =? 2)%nat then
    (dealerIndex, dealerIndex, ((dealerIndex + 1) mod playerCount)%nat)
  else
    (dealerIndex, ((dealerIndex + 1) mod playerCount)%nat,
     ((dealerIndex + 2) mod playerCount)%nat).

Definition getFirstPreFlopPlayer (playerCount bigBlindIndex : nat) : nat :=
  ((bigBlindIndex + 1) mod playerCount)%nat.

Definition getFirstPostFlopPlayer (playerCount dealerIndex : nat) : nat :=
  if (playerCount =? 2)%nat then dealerIndex
  else ((dealerIndex + 1) mod playerCount)%nat.

Definition isHandOver (players : list Player.t) : bool :=
  (length (getActivePlayers players) <=? 1)%nat.

(** [processPlayerAction]: updated player, pot increase, new current bet. *)
Definition processPlayerAction (action : BetAction.t) (player : Player.t)
  (gameState : GameState.t) : Player.t * Q * Q :=
  match BetAction.type action with
  | fold =>
      (Player.mk (Player.position player) (Player.name player)
         (Player.stack player) (Player.holeCards player)
         (Player.currentBet player) true (Player.isAllIn player)
         (Player.style player),
       0, GameState.currentBet gameState)
  | check => (player, 0, GameState.currentBet gameState)
  | call =>
      let callAmount :=
        Qmin (GameState.currentBet gameState - Player.currentBet player)
          (Player.stack player) in
      let stack' := Player.stack player - callAmount in
      (Player.mk (Player.position player) (Player.name player)
         stack' (Player.holeCards player)
         (Player.currentBet player + callAmount)
         (Player.isFolded player)
         (if Qeq_bool stack' 0 then true else Player.isAllIn player)
         (Player.style player),
       callAmount, GameState.currentBet gameState)
  | raise =>
      let raiseAmount := Qmin (orZero (BetAction.amount action)) (Player.stack player) in
      let totalBet := raiseAmount in
      let additionalAmount := totalBet - Player.currentBet player in
      let stack' := Player.stack player - additionalAmount in
      (Player.mk (Player.position player) (Player.name player)
         stack' (Player.holeCards player)
         totalBet
         (Player.isFolded player)
         (if Qeq_bool stack' 0 then true else Player.isAllIn player)
         (Player.style player),
       additionalAmount, totalBet)
  | all_in =>
      let allInAmount := Player.stack player in
      let bet' := Player.currentBet player + allInAmount in
      (Player.mk (Player.position player) (Player.name player)
         0 (Player.holeCards player)
         bet'
         (Player.isFolded player) true
         (Player.style player),
       allInAmount,
       if Qltb (GameState.currentBet gameState) bet' then bet'
       else GameState.currentBet gameState)
  end.

(** The result of [validateBetAmount]: [{ valid: true }], or
    [{ valid: false, error }] with one of the two messages
    ['Bet exceeds stack size'] and ['Minimum raise is ${minRaise}']. *)
Inductive BetValidation : Type :=
| betValid
| betExceedsStack
| betBelowMinimumRaise (minRaise : Q).

Definition validateBetAmount (amount : Q) (player : Player.t)
  (currentBet minRaise : Q) : BetValidation :=
  if Qltb (Player.stack player) amount then betExceedsStack
  else if Qltb currentBet amount && Qltb amount minRaise
          && Qltb amount (Player.stack player)
  then betBelowMinimumRaise minRaise
  else betValid.

(** [generateRandomStack]; [r] is the value [Math.random()] returns. *)
Definition generateRandomStack (r : Q) (minBB maxBB bigBlind : Q) : Q :=
  let bbCount := Math_floor (r * (maxBB - minBB + 1)) + minBB in
  bbCount * bigBlind.

(** [determineWinner]; [evaluations.get(position)] is [evaluations position]. *)
Definition determineWinner (players : list Player.t)
  (evaluations : PlayerPosition -> option HandEvaluation)
  : result (list PlayerPosition) :=
  let activePlayers := getActivePlayers players in
  if (length activePlayers =? 1)%nat then
    let* p := deref (nth_error activePlayers 0) in
    Ok [Player.position p]
  else
    let activeWithEvals :=
      map (fun p => (Player.position p, evaluations (Player.position p)))
        activePlayers in
    let* first := deref (nth_error activeWithEvals 0) in
    Ok [fst first].

Definition hasEnoughChips (player : Player.t) (amount : Q) : bool :=
  Qle_bool amount (Player.stack player).

Definition resetPlayersForNewHand (players : list Player.t) : list Player.t :=
  map (fun player =>
         Player.mk (Player.position player) (Player.name player)
           (Player.stack player) [] 0 false false (Player.style player))
    players.

(* ================================================================= *)
(** ** hooks/useDeck.ts *)

(** [deal(count)] of [useDeck], for the [deck] the callback has captured:
    the cards [dealCards(deck, count)] returns.  The callback also stores
    the remaining deck for the next render with [setDeck]; within one state
    updater every call reads the same captured [deck]. *)
Definition deal (deck : list Card) (count : nat) : result (list Card) :=
  let* r := dealCards deck count in
  Ok (fst r).

(* ================================================================= *)
(** ** hooks/useGameState.ts *)

Definition SMALL_BLIND : Q := 1 # 2.
Definition BIG_BLIND : Q := 1.

Inductive NextRound : Type :=
| next_flop | next_turn | next_river | complete.

Definition getNextBettingRound (current : BettingRound) : NextRound :=
  match current with
  | preflop => next_flop
  | flop => next_turn
  | turn => next_river
  | river => complete
  end.

Definition opponentPositions : list PlayerPosition :=
  [opponent1; opponent2; opponent3].

Definition seat (position : PlayerPosition) (name : string) (stack : Q)
  : Player.t :=
  Player.mk position name stack [] 0 false false None.


(** [initializeGame]; the four arguments are the values drawn by
    [generateRandomStack]. *)
Definition initializeGame (stack0 stack1 stack2 stack3 : Q) : GameState.t :=
  let players :=
    [seat hero "Hero" stack0; seat opponent1 "Opponent 1" stack1;
     seat opponent2 "Opponent 2" stack2; seat opponent3 "Opponent 3" stack3] in
  let '(blindsDealer, blindsSmallBlind, blindsBigBlind) :=
    getBlindPositions (length players) 0 in
  GameState.mk waiting preflop 0 [] players 0 blindsDealer blindsSmallBlind
    blindsBigBlind SMALL_BLIND BIG_BLIND 0 (BIG_BLIND * 2) [].


(** The state updater of [startNewHand].  [deck] is the deck captured by
    [deal]; [aiOpponentsMap] is the session's map from seat to AI style. *)
Definition startNewHand (deck : list Card)
  (aiOpponentsMap : PlayerPosition -> option PlayerStyleConfig.t)
  (prev : GameState.t) : result GameState.t :=
  let playerCount := length (GameState.players prev) in
  let newDealerIndex := ((GameState.dealerButtonIndex prev + 1) mod playerCount)%nat in
  let '(_, blindsSmallBlind, blindsBigBlind) :=
    getBlindPositions playerCount newDealerIndex in
  let resetPlayers :=
    map (fun p =>
           Player.mk (Player.position p) (Player.name p) (Player.stack p)
             [] 0 false false (Player.style p))
      (GameState.players prev) in
  let resetPlayers :=
    match GameState.phase prev with
    | waiting =>
        map (fun player =>
               if existsb (PlayerPosition_eqb (Player.position player)) opponentPositions
               then
                 match aiOpponentsMap (Player.position player) with
                 | Some styleConfig =>
                     Player.mk (Player.position player)
                       (PlayerStyleConfig.name styleConfig)
                       (Player.stack player) (Player.holeCards player)
                       (Player.currentBet player) (Player.isFolded player)
                       (Player.isAllIn player)
                       (Some (PlayerStyleConfig.style styleConfig))
                 | None => player
                 end
               else player)
          resetPlayers
    | _ => resetPlayers
    end in
  let* playersWithCards :=
    mapResult (fun player =>
                 let* cards := deal deck 2 in
                 Ok (Player.mk (Player.position player) (Player.name player)
                       (Player.stack player) cards
                       (Player.currentBet player) (Player.isFolded player)
                       (Player.isAllIn player) (Player.style player)))
      resetPlayers in
  let updatedPlayers :=
    mapi (fun player index =>
            if (index =? blindsSmallBlind)%nat then
              let sbAmount := Qmin SMALL_BLIND (Player.stack player) in
              Player.mk (Player.position player) (Player.name player)
                (Player.stack player - sbAmount) (Player.holeCards player)
                sbAmount (Player.isFolded player)
                (Qeq_bool (Player.stack player) sbAmount)
                (Player.style player)
            else if (index =? blindsBigBlind)%nat then
              let bbAmount := Qmin BIG_BLIND (Player.stack player) in
              Player.mk (Player.position player) (Player.name player)
                (Player.stack player - bbAmount) (Player.holeCards player)
                bbAmount (Player.isFolded player)
                (Qeq_bool (Player.stack player) bbAmount)
                (Player.style player)
            else player)
      playersWithCards in
  let firstPlayer := getFirstPreFlopPlayer (length updatedPlayers) blindsBigBlind in
  Ok (GameState.mk betting preflop 0 [] updatedPlayers firstPlayer
        newDealerIndex blindsSmallBlind blindsBigBlind
        (GameState.smallBlind prev) (GameState.bigBlind prev)
        BIG_BLIND (BIG_BLIND * 2) []).

(** The state updater of [handlePlayerAction].  [deck] is the deck captured
    by [deal] and [now] the value of [Date.now()].  ([addAction] only feeds
    the separate hand-history hook.) *)
Definition handlePlayerAction (deck : list Card) (now : Z)
  (action : BetAction.t) (prev : GameState.t) : result GameState.t :=
  let* currentPlayer :=
    deref (nth_error (GameState.players prev) (GameState.currentPlayerIndex prev)) in
  let '(updatedPlayer, potIncrease, newCurrentBet) :=
    processPlayerAction action currentPlayer prev in
  let updatedPlayers :=
    mapi (fun p index =>
            if (index =? GameState.currentPlayerIndex prev)%nat
            then updatedPlayer else p)
      (GameState.players prev) in
  let actionRecord :=
    Action.mk (Player.position currentPlayer) (Player.name currentPlayer)
      (BetAction.type action) (orZero (BetAction.amount action)) now
      (GameState.bettingRound prev) in
  let actionHistory' := GameState.actionHistory prev ++ [actionRecord] in
  let newPot := GameState.pot prev + potIncrease in
  let newMinRaise :=
    calculateMinRaise newCurrentBet (newCurrentBet - GameState.currentBet prev)
      BIG_BLIND in
  if isHandOver updatedPlayers then
    Ok (GameState.mk showdown (GameState.bettingRound prev) newPot
          (GameState.communityCards prev) updatedPlayers
          (GameState.currentPlayerIndex prev) (GameState.dealerButtonIndex prev)
          (GameState.smallBlindIndex prev) (GameState.bigBlindIndex prev)
          (GameState.smallBlind prev) (GameState.bigBlind prev)
          newCurrentBet newMinRaise actionHistory')
  else if isBettingRoundComplete updatedPlayers newCurrentBet then
    let '(playersAfterCollection, collectedPot) := collectBets updatedPlayers in
    let totalPot := newPot + collectedPot in
    match getNextBettingRound (GameState.bettingRound prev) with
    | complete =>
        Ok (GameState.mk showdown (GameState.bettingRound prev) totalPot
              (GameState.communityCards prev) playersAfterCollection
              (GameState.currentPlayerIndex prev) (GameState.dealerButtonIndex prev)
              (GameState.smallBlindIndex prev) (GameState.bigBlindIndex prev)
              (GameState.smallBlind prev) (GameState.bigBlind prev)
              0 (GameState.minRaise prev) actionHistory')
    | nextRound =>
        let* newCommunityCards :=
          match nextRound with
          | next_flop => deal deck 3
          | _ =>
              let* dealt := deal deck 1 in
              Ok (GameState.communityCards prev ++ dealt)
          end in
        let firstPlayer :=
          getFirstPostFlopPlayer (length playersAfterCollection)
            (GameState.dealerButtonIndex prev) in
        Ok (GameState.mk (GameState.phase prev)
              (match nextRound with
               | next_flop => flop
               | next_turn => turn
               | _ => river
               end)
              totalPot newCommunityCards playersAfterCollection
              firstPlayer (GameState.dealerButtonIndex prev)
              (GameState.smallBlindIndex prev) (GameState.bigBlindIndex prev)
              (GameState.smallBlind prev) (GameState.bigBlind prev)
              0 BIG_BLIND actionHistory')
    end
  else
    let* nextPlayerIndex :=
      getNextPlayerIndex updatedPlayers (GameState.currentPlayerIndex prev) in
    Ok (GameState.mk (GameState.phase prev) (GameState.bettingRound prev) newPot
          (GameState.communityCards prev) updatedPlayers
          nextPlayerIndex (GameState.dealerButtonIndex prev)
          (GameState.smallBlindIndex prev) (GameState.bigBlindIndex prev)
          (GameState.smallBlind prev) (GameState.bigBlind prev)
          newCurrentBet newMinRaise actionHistory').

(* ================================================================= *)
(** ** services/ai/handStrength.ts *)

Inductive PositionCategory : Type := early | middle | late | button.

Inductive HandStrength : Type := premium | strong | playable | weak | trash.

(** [evaluatePreFlopHand]: strength category and score. *)
Definition evaluatePreFlopHand (card1 card2 : Card) : HandStrength * Z :=
  let rank1 := getRankValue (rank card1) in
  let rank2 := getRankValue (rank card2) in
  let suited := Suit_eqb (suit card1) (suit card2) in
  let isPair := (rank1 =? rank2)%Z in
  let highCard := Z.max rank1 rank2 in
  let lowCard := Z.min rank1 rank2 in
  let gap := (highCard - lowCard)%Z in
  let score :=
  (if isPair then
     if rank1 >=? 14 then 95
     else if rank1 >=? 13 then 90
     else if rank1 >=? 12 then 85
     else if rank1 >=? 11 then 80
     else if rank1 >=? 10 then 75
     else if rank1 >=? 7 then 65
     else 50 + rank1 * 2
   else if highCard =? 14 then
     if lowCard >=? 13 then (if suited then 88 else 82)
     else if lowCard >=? 12 then (if suited then 78 else 72)
     else if lowCard >=? 11 then (if suited then 73 else 67)
     else if lowCard >=? 10 then (if suited then 68 else 62)
     else if lowCard >=? 7 then (if suited then 55 else 45)
     else (if suited then 45 else 30)
   else if highCard =? 13 then
     if lowCard >=? 12 then (if suited then 76 else 70)
     else if lowCard >=? 11 then (if suited then 71 else 65)
     else if lowCard >=? 10 then (if suited then 66 else 58)
     else if lowCard >=? 9 then (if suited then 58 else 48)
     else (if suited then 48 else 35)
   else if highCard =? 12 then
     if lowCard >=? 11 then (if suited then 69 else 63)
     else if lowCard >=? 10 then (if suited then 64 else 56)
     else if lowCard >=? 9 then (if suited then 56 else 46)
     else (if suited then 46 else 33)
   else if highCard =? 11 then
     if lowCard >=? 10 then (if suited then 62 else 54)
     else if lowCard >=? 9 then (if suited then 54 else 44)
     else (if suited then 44 else 31)
   else if gap =? 0 then
     (if suited then 40 + highCard * 2 else 30 + highCard * 2)
   else if gap =? 1 then
     (if suited then 35 + highCard else 25 + highCard)
   else if suited then 30 + highCard
   else 15 + highCard)%Z in
  let strength :=
    (if score >=? 80 then premium
     else if score >=? 65 then strong
     else if score >=? 45 then playable
     else if score >=? 30 then weak
     else trash)%Z in
  (strength, score).

(** [%] keeps the sign of the dividend: [Z.rem].  With [totalPlayers = 0]
    the remainder is NaN, every comparison is false and the last branch
    is taken. *)
Definition getPositionCategory (playerIndex dealerIndex totalPlayers : Z)
  : PositionCategory :=
  let seatsAfterDealer :=
    Z.rem (playerIndex - dealerIndex + totalPlayers) totalPlayers in
  (if totalPlayers =? 0 then late
   else if seatsAfterDealer =? 0 then button
   else if (seatsAfterDealer =? 1) || (seatsAfterDealer =? 2) then early
   else if totalPlayers =? 4 then
     (if seatsAfterDealer =? 3 then late else middle)
   else if seatsAfterDealer <=? 3 then early
   else if seatsAfterDealer <=? 5 then middle
   else late)%Z.

Definition shouldPlayHand (handScore vpip positionAdjustment : Q) : bool :=
  let adjustedScore := handScore * positionAdjustment in
  let threshold := (100 - vpip) * (95 # 100) in
  Qle_bool threshold adjustedScore.

Definition shouldRaiseHand (handScore pfr positionAdjustment : Q) : bool :=
  let adjustedScore := handScore * positionAdjustment in
  let threshold := (100 - pfr) * (95 # 100) in
  Qle_bool threshold adjustedScore.

(* ================================================================= *)
(** ** services/ai/AIOpponent.ts

    [rnd k] is the value of the [(k+1)]-th call of [Math.random()] made
    while one decision is computed. *)
Section AIOpponent.
Variable styleConfig : PlayerStyleConfig.t.
Variable rnd : nat -> Q.

Definition getPositionMultiplier (position : PositionCategory) : Q :=
  match position with
  | early => 8 # 10
  | middle => 9 # 10
  | late => 11 # 10
  | button => 12 # 10
  end.

Definition estimateHandStrength (r : HandRanking) : Q :=
  match r with
  | royal_flush => 100 | straight_flush => 95 | four_of_a_kind => 90
  | full_house => 85 | flush => 75 | straight => 70 | three_of_a_kind => 60
  | two_pair => 50 | pair => 35 | high_card => 20
  end.

Definition raiseAction (amount : Q) : BetAction.t := BetAction.mk raise (Some amount).
Definition callAction (amount : Q) : BetAction.t := BetAction.mk call (Some amount).
Definition foldAction : BetAction.t := BetAction.mk fold None.
Definition checkAction : BetAction.t := BetAction.mk check None.

Definition determineRaiseSize (player : Player.t) (pot handStrength : Q)
  : BetAction.t :=
  let aggression := PlayerStyleConfig.aggression styleConfig in
  let raiseMultiplier :=
    if Qle_bool 85 handStrength then (75 # 100) + (aggression / 10) * (15 # 10)
    else if Qle_bool 70 handStrength then (5 # 10) + (aggression / 10) * 1
    else (33 # 100) + (aggression / 10) * (67 # 100) in
  let raiseAmount := Math_floor (pot * raiseMultiplier) in
  let cappedRaise := Qmin raiseAmount (Player.stack player) in
  raiseAction cappedRaise.

(** [shouldBeAggressive], with the draw it makes. *)
Definition shouldBeAggressive (draw : Q) : bool :=
  let aggressionThreshold := (10 - PlayerStyleConfig.aggression styleConfig) / 10 in
  Qltb aggressionThreshold draw.

Definition shouldCall (callAmount pot handStrength : Q) : bool :=
  let potOdds := calculatePotOdds pot callAmount in
  let callThreshold := 100 - PlayerStyleConfig.vpip styleConfig in
  Qle_bool callThreshold handStrength || Qltb potOdds handStrength.

Definition suitKeyIndex (s : Suit) : option Z := None.

Definition hasThreeToFlush (cs : list Card) : bool :=
  let suitCounts := countBy Suit_eqb suit cs in
  existsb (fun count => (3 <=? count)%nat) (objValues suitKeyIndex suitCounts).

(** The loop of [hasThreeToStraight] on the suffix [ranks.slice(i)]. *)
Fixpoint threeWithinFive (ranks : list Z) : bool :=
  match ranks with
  | a :: ((_ :: c :: _) as tl) =>
      if (c - a <=? 4)%Z then true else threeWithinFive tl
  | _ => false
  end.

Definition hasThreeToStraight (cs : list Card) : bool :=
  if (length cs <? 3)%nat then false
  else
    let ranks := rev (sortDesc (fun v => v) (map (fun c => getRankValue (rank c)) cs)) in
    threeWithinFive ranks.

(** [shouldBluff], with the draw it makes. *)
Definition shouldBluff (communityCards : list Card) (draw : Q) : bool :=
  let bluffBonus :=
    if hasThreeToFlush communityCards || hasThreeToStraight communityCards
    then 2 # 10 else 0 in
  Qltb draw (PlayerStyleConfig.bluffFrequency styleConfig + bluffBonus).

Definition decidePreFlop (player : Player.t) (currentBet pot : Q)
  (playerIndex dealerIndex : Z) : result BetAction.t :=
  let* card1 := deref (nth_error (Player.holeCards player) 0) in
  let* card2 := deref (nth_error (Player.holeCards player) 1) in
  let score := inject_Z (snd (evaluatePreFlopHand card1 card2)) in
  let position := getPositionCategory playerIndex dealerIndex 4 in
  let positionMultiplier := getPositionMultiplier position in
  let adjustedScore := score * positionMultiplier in
  let shouldPlay :=
    shouldPlayHand score (PlayerStyleConfig.vpip styleConfig) positionMultiplier in
  if negb shouldPlay then Ok foldAction
  else
    let shouldRaise :=
      shouldRaiseHand score (PlayerStyleConfig.pfr styleConfig) positionMultiplier in
    let callAmount := currentBet - Player.currentBet player in
    if Qeq_bool currentBet (Player.currentBet player) then
      if shouldRaise && shouldBeAggressive (rnd 0)
      then Ok (determineRaiseSize player pot adjustedScore)
      else Ok checkAction
    else if shouldRaise && Qle_bool 75 adjustedScore then
      Ok (determineRaiseSize player pot adjustedScore)
    else if Qle_bool 50 adjustedScore || shouldCall callAmount pot adjustedScore then
      Ok (callAction callAmount)
    else Ok foldAction.

Definition decidePostFlop (player : Player.t) (currentBet pot : Q)
  (communityCards : list Card) : result BetAction.t :=
  let allCards := Player.holeCards player ++ communityCards in
  let* myHand := evaluateHand allCards in
  let handStrength := estimateHandStrength (ranking myHand) in
  let callAmount := currentBet - Player.currentBet player in
  let potOdds := calculatePotOdds pot callAmount in
  let estimatedEquity := handStrength in
  let shouldBluff := shouldBluff communityCards (rnd 0) in
  if Qeq_bool currentBet (Player.currentBet player) then
    if Qle_bool 60 handStrength && shouldBeAggressive (rnd 1) then
      Ok (determineRaiseSize player pot handStrength)
    else if shouldBluff && Qle_bool 6 (PlayerStyleConfig.aggression styleConfig) then
      Ok (raiseAction (Math_floor (pot * (5 # 10))))
    else Ok checkAction
  else if Qle_bool 75 handStrength then
    if shouldBeAggressive (rnd 1)
    then Ok (determineRaiseSize player pot handStrength)
    else Ok (callAction callAmount)
  else if Qle_bool 50 handStrength then
    if shouldBeAggressive (rnd 1) && Qltb (rnd 2) (3 # 10)
    then Ok (determineRaiseSize player pot handStrength)
    else Ok (callAction callAmount)
  else if Qltb potOdds estimatedEquity || shouldBluff then
    if shouldBluff && Qltb (rnd 1) (PlayerStyleConfig.bluffFrequency styleConfig)
    then Ok (determineRaiseSize player pot 40)
    else Ok (callAction callAmount)
  else Ok foldAction.

(** [players.findIndex(p => p.position === position)]: [-1] when absent. *)
Fixpoint findIndexFrom (position : PlayerPosition) (players : list Player.t)
  (i : Z) : Z :=
  match players with
  | [] => (-1)%Z
  | p :: players' =>
      if PlayerPosition_eqb (Player.position p) position then i
      else findIndexFrom position players' (i + 1)%Z
  end.

Definition decide (player : Player.t) (gameState : GameState.t)
  : result BetAction.t :=
  let playerIndex :=
    findIndexFrom (Player.position player) (GameState.players gameState) 0%Z in
  let dealerIndex := Z.of_nat (GameState.dealerButtonIndex gameState) in
  match GameState.bettingRound gameState with
  | preflop =>
      decidePreFlop player (GameState.currentBet gameState)
        (GameState.pot gameState) playerIndex dealerIndex
  | _ =>
      decidePostFlop player (GameState.currentBet gameState)
        (GameState.pot gameState) (GameState.communityCards gameState)
  end.

End AIOpponent.

(* ================================================================= *)
(** ** services/ai/playerStyles.ts *)


Definition PLAYER_STYLES (s : PlayerStyle) : PlayerStyleConfig.t :=
  match s with
  | tight_aggressive =>
      PlayerStyleConfig.mk "Sharky" tight_aggressive 20 18 7 (25 # 100)
  | loose_passive =>
      PlayerStyleConfig.mk "Fishy" loose_passive 45 10 2 (5 # 100)
  | loose_aggressive =>
      PlayerStyleConfig.mk "Donkey" loose_aggressive 50 35 8 (4 # 10)
  | tight_passive =>
      PlayerStyleConfig.mk "Grinder" tight_passive 15 8 3 (1 # 10)
  | ultra_aggressive =>
      PlayerStyleConfig.mk "Maniac" ultra_aggressive 65 50 10 (5 # 10)
  end.


(* ================================================================= *)
(** ** Auxiliary definitions of the statements *)

(** A shuffled deck with two aces on top. *)
Definition acesOnTop : list Card :=
  mkCard hearts RA :: mkCard diamonds RA
  :: filter (fun c => negb (sameCard (mkCard hearts RA) c)
                      && negb (sameCard (mkCard diamonds RA) c))
       createDeck.

(** Random draws that are all 0. *)
Definition zeroDraws (k : nat) : Q := 0.

(** A table whose button sits at seat [d]. *)
Definition withDealerButton (d : nat) (s : GameState.t) : GameState.t :=
  GameState.mk (GameState.phase s) (GameState.bettingRound s) (GameState.pot s)
    (GameState.communityCards s) (GameState.players s)
    (GameState.currentPlayerIndex s) d
    (GameState.smallBlindIndex s) (GameState.bigBlindIndex s)
    (GameState.smallBlind s) (GameState.bigBlind s)
    (GameState.currentBet s) (GameState.minRaise s) (GameState.actionHistory s).

(** Four seats with 100 chips each, the button one seat before seat 0, so
    that the next hand is dealt with the button at seat 0. *)
Definition table4 : GameState.t :=
  withDealerButton 3 (initializeGame 100 100 100 100).

Definition noStyles (position : PlayerPosition) : option PlayerStyleConfig.t :=
  None.

(** The hand of [table4] dealt from [acesOnTop], and its first seat to
    act, evaluated. *)
Definition acesState : GameState.t :=
  Eval vm_compute in
    match startNewHand acesOnTop noStyles table4 with
    | Ok s => s
    | Throw _ => table4
    end.

Definition acesSeat : Player.t :=
  Eval vm_compute in
    match nth_error (GameState.players acesState)
            (GameState.currentPlayerIndex acesState) with
    | Some p => p
    | None => seat hero "" 0
    end.

(** The blind seat [i] owes, if any. *)
Definition blindOwed (sb bb i : nat) : option Q :=
  if (i =? sb)%nat then Some SMALL_BLIND
  else if (i =? bb)%nat then Some BIG_BLIND
  else None.

(** The hand of [table4] once the two seats after the big blind have
    called: the small blind, who has posted 1/2 and holds 199/2, is to act. *)
Definition smallBlindToAct : result GameState.t :=
  let* s := startNewHand createDeck noStyles table4 in
  let* s := handlePlayerAction createDeck 0 (BetAction.mk call None) s in
  handlePlayerAction createDeck 0 (BetAction.mk call None) s.

(** The state [smallBlindToAct] returns and its seat to act, evaluated. *)
Definition smallBlindState : GameState.t :=
  Eval vm_compute in
    match smallBlindToAct with
    | Ok s => s
    | Throw _ => table4
    end.

Definition smallBlindSeat : Player.t :=
  Eval vm_compute in
    match nth_error (GameState.players smallBlindState)
            (GameState.currentPlayerIndex smallBlindState) with
    | Some p => p
    | None => seat hero "" 0
    end.

(** The hand of [table4] once the two seats after the big blind have
    called and the small blind has folded. *)
Definition smallBlindFolded : result GameState.t :=
  let* s := smallBlindToAct in
  handlePlayerAction createDeck 0 (BetAction.mk fold None) s.

(** The sum of the stacks. *)
Definition sumStacks (players : list Player.t) : Q :=
  fold_left (fun sum p => sum + Player.stack p) players 0.

Close Scope Q_scope.

(** Keys in descending order. *)
Definition sortedDesc (A : Type) (key : A -> Z) (l : list A) : Prop :=
  StronglySorted (fun a b => (key b <= key a)%Z) l.

(** The number of cards of a rank, of a suit. *)
Definition countRank (r : Rank) (cs : list Card) : nat :=
  length (filter (hasRank r) cs).

Definition countSuit (s : Suit) (cs : list Card) : nat :=
  length (filter (hasSuit s) cs).

(** [t] is the highest rank with property [P]. *)
Definition highestWith (P : Rank -> Prop) (t : Rank) : Prop :=
  P t /\ forall r, P r -> (getRankValue r <= getRankValue t)%Z.

(** The evaluations [checkFullHouse] and [checkTwoPair] build from the
    ranks they have chosen. *)
Definition fullHouseOf (t p : Rank) (cs : list Card) : HandEvaluation :=
  mkEval full_house
    (map Some (firstn 3 (filter (hasRank t) cs) ++ firstn 2 (filter (hasRank p) cs)))
    ("Full House, " ++ rankStr t ++ "s over " ++ rankStr p ++ "s").

Definition twoPairOf (p0 p1 : Rank) (cs : list Card) : HandEvaluation :=
  mkEval two_pair
    (map Some (firstn 2 (filter (hasRank p0) cs) ++ firstn 2 (filter (hasRank p1) cs))
     ++ [hd_error (sortCardsByRank
                     (filter (fun c => negb (includes [p0; p1] (rank c))) cs))])
    ("Two Pair, " ++ rankStr p0 ++ "s and " ++ rankStr p1 ++ "s").

(** The evaluations [checkFourOfAKind], [checkThreeOfAKind] and [checkPair]
    build from the rank they have found. *)
Definition othersSorted (r : Rank) (cs : list Card) : list Card :=
  sortCardsByRank (filter (fun c => negb (hasRank r c)) cs).

Definition fourOf (r : Rank) (cs : list Card) : HandEvaluation :=
  mkEval four_of_a_kind
    (map Some (filter (hasRank r) cs) ++ [hd_error (othersSorted r cs)])
    ("Four of a Kind, " ++ rankStr r ++ "s").

Definition threeOf (r : Rank) (cs : list Card) : HandEvaluation :=
  mkEval three_of_a_kind
    (map Some (filter (hasRank r) cs ++ firstn 2 (othersSorted r cs)))
    ("Three of a Kind, " ++ rankStr r ++ "s").

Definition pairOf (r : Rank) (cs : list Card) : HandEvaluation :=
  mkEval pair
    (map Some (filter (hasRank r) cs ++ firstn 3 (othersSorted r cs)))
    ("Pair of " ++ rankStr r ++ "s").

(** A small non-negative integer as a double. *)
Definition float_of_nat (n : nat) : float :=
  PrimFloat.of_uint63 (Uint63.of_Z (Z.of_nat n)).

(** For [outs], the double [calculateHitProbability64] returns is the one
    the rational model predicts: [min(2 outs, 100)] with one card to come,
    and with two cards to come the integer [Math_round] finds, divided by
    10 in binary64. *)
Definition agrees64 (outs : nat) : bool :=
  let q := inject_Z (Z.of_nat outs) in
  let tenths :=
    Qfloor ((1 - ((47 - q) / 47) * ((46 - q) / 46)) * 100 * 10 + (1 # 2))%Q in
  PrimFloat.eqb (calculateHitProbability64 (float_of_nat outs) 1)
    (float_of_nat (Nat.min (2 * outs) 100))
  && (0 <=? tenths)%Z
  && PrimFloat.eqb (calculateHitProbability64 (float_of_nat outs) 2)
       (PrimFloat.div (float_of_nat (Z.to_nat tenths)) 10).

(** The distinct cards of a list, and whether a list has no repetition. *)
Fixpoint distinctCards (cs : list Card) : list Card :=
  match cs with
  | [] => []
  | c :: cs' =>
      if existsb (sameCard c) cs' then distinctCards cs'
      else c :: distinctCards cs'
  end.

Fixpoint allDistinct (cs : list Card) : bool :=
  match cs with
  | [] => true
  | c :: cs' => negb (existsb (sameCard c) cs') && allDistinct cs'
  end.

(** The cards hold an ace, a two, a three, a four and a five. *)
Definition holdsWheel (cs : list Card) : Prop :=
  forall r, In r [RA; R2; R3; R4; R5] -> In r (map rank cs).

(** The evaluation of a wheel: five high, the ace last. *)
Definition wheelOf (c5 c4 c3 c2 cA : Card) : HandEvaluation :=
  mkEval straight [Some c5; Some c4; Some c3; Some c2; Some cA]
    "Straight, 5 high (Wheel)".

(** A wheel in mixed suits. *)
Definition mixedWheel : list Card :=
  [mkCard hearts RA; mkCard clubs R2; mkCard diamonds R3; mkCard spades R4;
   mkCard hearts R5].

(** Seven cards with three pairs, and the same cards with the two queens
    exchanged. *)
Definition threePairs : list Card :=
  [mkCard hearts RA; mkCard diamonds RA; mkCard hearts RK; mkCard diamonds RK;
   mkCard hearts RQ; mkCard diamonds RQ; mkCard clubs R7].

Definition threePairsSwapped : list Card :=
  [mkCard hearts RA; mkCard diamonds RA; mkCard hearts RK; mkCard diamonds RK;
   mkCard diamonds RQ; mkCard hearts RQ; mkCard clubs R7].

(** The ranks in the slots of a selection. *)
Definition slotRanks (slots : list (option Card)) : list (option Rank) :=
  map (option_map rank) slots.

(** Two evaluations agree up to the suits of the selected cards. *)
Definition sameHand (e e' : HandEvaluation) : Prop :=
  ranking e = ranking e' /\
  description e = description e' /\
  slotRanks (cards e) = slotRanks (cards e').

Definition sameResult (r r' : result (option HandEvaluation)) : Prop :=
  match r, r' with
  | Ok None, Ok None => True
  | Ok (Some e), Ok (Some e') => sameHand e e'
  | Throw x, Throw y => x = y
  | _, _ => False
  end.

Definition sameEvaluation (r r' : result HandEvaluation) : Prop :=
  match r, r' with
  | Ok e, Ok e' => sameHand e e'
  | Throw x, Throw y => x = y
  | _, _ => False
  end.

(** A selection of exactly five cards of [cs]. *)
Definition fiveOf (cs : list Card) (slots : list (option Card)) : Prop :=
  length slots = 5 /\
  Forall (fun slot => exists c, slot = Some c /\ In c cs) slots.

(** Evaluations for the examples of the order of hands. *)
Definition acesPair : HandEvaluation :=
  mkEval pair
    (map Some [mkCard hearts RA; mkCard spades RA; mkCard clubs RK;
               mkCard diamonds R9; mkCard clubs R4])
    "Pair of As".

Definition acesPairOther : HandEvaluation :=
  mkEval pair
    (map Some [mkCard clubs RA; mkCard diamonds RA; mkCard hearts RK;
               mkCard spades R9; mkCard hearts R4])
    "Pair of As".

Definition kingsPair : HandEvaluation :=
  mkEval pair
    (map Some [mkCard hearts RK; mkCard spades RK; mkCard clubs RQ;
               mkCard diamonds R9; mkCard clubs R4])
    "Pair of Ks".

Definition kingHigh : HandEvaluation :=
  mkEval high_card
    (map Some [mkCard hearts RK; mkCard spades RJ; mkCard clubs R9;
               mkCard diamonds R7; mkCard clubs R4])
    "High Card, K".

(** The seat [j] holds a player who can act: neither folded nor all-in. *)
Definition canActAt (players : list Player.t) (j : nat) : bool :=
  match nth_error players j with
  | Some p => negb (Player.isFolded p || Player.isAllIn p)
  | None => false
  end.

(** A seat for the examples: a stack, a street bet, not folded, not all-in. *)
Definition seatWith (position : PlayerPosition) (stack bet : Q) : Player.t :=
  Player.mk position "Player" stack [] bet false false None.

(** The flop of [smallBlindFolded], evaluated: the street bets are
    collected and nobody has bet on the new street. *)
Definition flopState : GameState.t :=
  Eval vm_compute in
    match smallBlindFolded with
    | Ok s => s
    | Throw _ => table4
    end.

Definition flopSeat : Player.t :=
  Eval vm_compute in
    match nth_error (GameState.players flopState)
            (GameState.currentPlayerIndex flopState) with
    | Some p => p
    | None => seatWith hero 0 0
    end.

(** What a hand keeps of a seat: the player and the chips in front of the
    player. *)
Definition sameSeat (p p' : Player.t) : Prop :=
  Player.position p' = Player.position p /\
  Player.stack p' = Player.stack p /\
  Player.holeCards p' = Player.holeCards p /\
  Player.isFolded p' = Player.isFolded p /\
  Player.isAllIn p' = Player.isAllIn p.

(** The selected cards are of one suit. *)
Definition sameSuit (five : list Card) : Prop :=
  exists s, Forall (fun c => suit c = s) five.

(** Five ranks in a row, highest first, or the wheel 5-4-3-2-A. *)
Definition isRun (ranks : list Rank) : Prop :=
  ranks = [R5; R4; R3; R2; RA] \/
  exists top,
    map getRankValue ranks = [top; top - 1; top - 2; top - 3; top - 4]%Z.

(** The five selected cards, in the order of the selection, make a hand
    of the category. *)
Definition formsHand (category : HandRanking) (five : list Card) : Prop :=
  let ranks := map rank five in
  let descending := sortedDesc (fun c => getRankValue (rank c)) in
  match category with
  | royal_flush => sameSuit five /\ ranks = [RA; RK; RQ; RJ; RT]
  | straight_flush => sameSuit five /\ isRun ranks
  | four_of_a_kind => exists q k, ranks = [q; q; q; q; k] /\ k <> q
  | full_house => exists t p, ranks = [t; t; t; p; p] /\ p <> t
  | flush => sameSuit five /\ descending five
  | straight => isRun ranks
  | three_of_a_kind =>
      exists t k1 k2,
        ranks = [t; t; t; k1; k2] /\ k1 <> t /\ k2 <> t /\
        (getRankValue k2 <= getRankValue k1)%Z
  | two_pair =>
      exists p0 p1 k,
        ranks = [p0; p0; p1; p1; k] /\
        (getRankValue p1 < getRankValue p0)%Z /\ k <> p0 /\ k <> p1
  | pair =>
      exists p k1 k2 k3,
        ranks = [p; p; k1; k2; k3] /\ k1 <> p /\ k2 <> p /\ k3 <> p /\
        (getRankValue k3 <= getRankValue k2 <= getRankValue k1)%Z
  | high_card => descending five
  end.

(** A hand of seven cards for the examples: one pair. *)
Definition sevenCards : list Card :=
  [mkCard hearts RK; mkCard spades R9; mkCard clubs RK; mkCard diamonds R4;
   mkCard hearts R7; mkCard clubs R2; mkCard spades RJ].

Definition sevenCardsHand : HandEvaluation :=
  Eval vm_compute in
    match evaluateHand sevenCards with
    | Ok e => e
    | Throw _ => kingHigh
    end.

(** An amount of chips: a whole number of half big blinds, of a size at
    which the sums and differences of doubles are exact. *)
Definition chips (x : Q) : Prop :=
  exists n : Z, (Z.abs n <= 2 ^ 50)%Z /\ (x == n # 2)%Q.

(** A table on the flop, 30 in the pot: the hero holds 40 behind a street
    bet of 60 and faces a bet of 120. *)
Definition shortStackTable : GameState.t :=
  GameState.mk betting flop (30 # 1) []
    [seatWith hero (40 # 1) (60 # 1); seatWith opponent1 (200 # 1) (120 # 1);
     seatWith opponent2 (200 # 1) (120 # 1)]
    0 2 0 1 SMALL_BLIND BIG_BLIND (120 # 1) (180 # 1) [].

(** A table on the flop, 100 in the pot and no bet yet: the seat to act
    holds 10 chips and seven-deuce on the board K 9 4. *)
Definition bluffSeat : Player.t :=
  Player.mk opponent1 "Maniac" (10 # 1) [mkCard clubs R7; mkCard diamonds R2]
    (0 # 1) false false (Some ultra_aggressive).

Definition bluffState : GameState.t :=
  GameState.mk betting flop (100 # 1)
    [mkCard hearts RK; mkCard spades R9; mkCard clubs R4]
    [seatWith hero (150 # 1) (0 # 1); bluffSeat; seatWith opponent2 (150 # 1) (0 # 1)]
    1 0 1 2 SMALL_BLIND BIG_BLIND (0 # 1) BIG_BLIND [].

(** Seven cards that hold the straight 6-5-4-3-2 and the ace, and seven
    cards that hold the same straight without an ace. *)
Definition aceToSix : list Card :=
  [mkCard hearts RA; mkCard clubs R2; mkCard diamonds R3; mkCard spades R4;
   mkCard hearts R5; mkCard clubs R6; mkCard diamonds RK].

Definition twoToSix : list Card :=
  [mkCard clubs R2; mkCard diamonds R3; mkCard spades R4; mkCard hearts R5;
   mkCard clubs R6; mkCard diamonds R9; mkCard hearts RK].

(** A seat that holds 10 behind a street bet of 2 and faces a bet of 6. *)
Definition facingSix : GameState.t :=
  GameState.mk betting preflop (0 # 1) []
    [seatWith hero (10 # 1) (2 # 1); seatWith opponent1 (10 # 1) (6 # 1)]
    0 0 0 1 SMALL_BLIND BIG_BLIND (6 # 1) (10 # 1) [].

(* ================================================================= *)
(** * Properties *)

Unset Implicit Arguments.

(** ** Lists *)

Lemma nth_error_mapiFrom (A B : Type) (f : A -> nat -> B) (xs : list A) :
  forall k i,
    nth_error (mapiFrom f k xs) i = option_map (fun x => f x (k + i)) (nth_error xs i).
Proof.
  induction xs as [|x xs IH]; intros k i.
  - destruct i; reflexivity.
  - destruct i; simpl.
    + now rewrite Nat.add_0_r.
    + rewrite IH. now rewrite Nat.add_succ_r.
Qed.

Lemma nth_error_mapi (A B : Type) (f : A -> nat -> B) (xs : list A) (i : nat) :
  nth_error (mapi f xs) i = option_map (fun x => f x i) (nth_error xs i).
Proof. unfold mapi. now rewrite nth_error_mapiFrom. Qed.

Lemma length_mapiFrom (A B : Type) (f : A -> nat -> B) (xs : list A) :
  forall k, length (mapiFrom f k xs) = length xs.
Proof. induction xs; intros; simpl; auto. Qed.

Lemma length_mapi (A B : Type) (f : A -> nat -> B) (xs : list A) :
  length (mapi f xs) = length xs.
Proof. apply length_mapiFrom. Qed.

Lemma mapResult_ok (A B : Type) (f : A -> result B) (g : A -> B) (xs : list A) :
  (forall x, In x xs -> f x = Ok (g x)) -> mapResult f xs = Ok (map g xs).
Proof.
  induction xs as [|x xs IH]; intros H; simpl; [reflexivity|].
  rewrite (H x (or_introl eq_refl)). simpl.
  rewrite IH by (intros; apply H; now right). reflexivity.
Qed.

Lemma firstn_In (A : Type) (n : nat) (l : list A) (x : A) :
  In x (firstn n l) -> In x l.
Proof.
  intros H. rewrite <- (firstn_skipn n l). apply in_or_app. now left.
Qed.

Lemma deal_ok (deck : list Card) (n : nat) :
  n <= length deck -> deal deck n = Ok (firstn n deck).
Proof.
  intros H. unfold deal, dealCards.
  destruct (Nat.ltb_spec (length deck) n); [lia|reflexivity].
Qed.

Lemma deal_length (deck cs : list Card) (n : nat) :
  deal deck n = Ok cs -> length cs = n.
Proof.
  unfold deal, dealCards.
  destruct (Nat.ltb_spec (length deck) n); simpl; [discriminate|].
  intros [= <-]. rewrite length_firstn. lia.
Qed.

(** ** Starting a hand *)

Open Scope Q_scope.

Lemma Qeq_bool_sub_zero (a b : Q) : Qeq_bool a b = true <-> a - b == 0.
Proof. rewrite Qeq_bool_iff. split; intros H; lra. Qed.

(** C5. [startNewHand] moves the button one seat on (mod the number of
    seats); with that button [d] and more than two seats the small blind
    is seat [(d+1) mod N] and the big blind seat [(d+2) mod N]; each blind
    posted is the blind capped at the poster's stack, taken from the
    stack, and the poster is all-in exactly when the stack is then empty;
    the other seats have no bet; the bet to match is the big blind, the
    minimum raise twice the big blind, and the first to act is the seat
    after the big blind.  With four stacks of 100 and the button arriving
    at seat 0: seat 1 has bet 1/2, seat 2 has bet 1, the bet to match is
    1, the minimum raise 2 and seat 3 acts. *)
Theorem startNewHand_blinds
  (deck : list Card) (ai : PlayerPosition -> option PlayerStyleConfig.t)
  (prev : GameState.t) :
  let N := length (GameState.players prev) in
  let d := ((GameState.dealerButtonIndex prev + 1) mod N)%nat in
  let sb := ((d + 1) mod N)%nat in
  let bb := ((d + 2) mod N)%nat in
  (2 < N)%nat -> (2 <= length deck)%nat ->
  exists s,
    startNewHand deck ai prev = Ok s /\
    GameState.dealerButtonIndex s = d /\
    GameState.smallBlindIndex s = sb /\
    GameState.bigBlindIndex s = bb /\
    GameState.currentBet s = BIG_BLIND /\
    GameState.minRaise s == 2 * BIG_BLIND /\
    GameState.currentPlayerIndex s = ((bb + 1) mod N)%nat /\
    length (GameState.players s) = N /\
    (forall i p, nth_error (GameState.players prev) i = Some p ->
       exists p', nth_error (GameState.players s) i = Some p' /\
         match blindOwed sb bb i with
         | Some blind =>
             Player.currentBet p' = Qmin blind (Player.stack p) /\
             Player.stack p' = Player.stack p - Qmin blind (Player.stack p) /\
             (Player.isAllIn p' = true <-> Player.stack p' == 0)
         | None =>
             Player.currentBet p' = 0 /\ Player.stack p' = Player.stack p /\
             Player.isAllIn p' = false
         end) /\
    (map Player.stack (GameState.players prev) = [100; 100; 100; 100] ->
     d = 0%nat ->
     exists p0 p1 p2 p3,
       GameState.players s = [p0; p1; p2; p3] /\
       Player.currentBet p1 == 1 # 2 /\ Player.currentBet p2 == 1 /\
       GameState.currentBet s == 1 /\ GameState.minRaise s == 2 /\
       GameState.currentPlayerIndex s = 3%nat).
Proof.
  intros N d sb bb HN Hdeck.
  unfold startNewHand. fold N. fold d.
  unfold getBlindPositions.
  destruct (Nat.eqb_spec N 2) as [E|_]; [lia|]. fold sb. fold bb.
  match goal with
  | |- context [mapResult ?f ?xs] =>
      rewrite (@mapResult_ok _ _ f
                 (fun player =>
                    Player.mk (Player.position player) (Player.name player)
                      (Player.stack player) (firstn 2 deck)
                      (Player.currentBet player) (Player.isFolded player)
                      (Player.isAllIn player) (Player.style player)) xs)
        by (intros; rewrite deal_ok by exact Hdeck; reflexivity)
  end.
  cbn [bind].
  match goal with
  | |- context [mapi ?F (map ?G ?R)] =>
      set (blinds := F); set (cards := G); set (reset := R)
  end.
  assert (Hreset : forall i p, nth_error (GameState.players prev) i = Some p ->
            exists q, nth_error reset i = Some q /\
              Player.stack q = Player.stack p /\ Player.currentBet q = 0 /\
              Player.isAllIn q = false).
  { intros i p Hp. subst reset.
    destruct (GameState.phase prev); rewrite ?nth_error_map, Hp; cbn [option_map];
      try (eexists; split; [reflexivity|now cbn]).
    destruct (existsb _ _); [destruct (ai _)|];
      eexists; (split; [reflexivity|now cbn]). }
  assert (Hlen : length (mapi blinds (map cards reset)) = N).
  { rewrite length_mapi, length_map. subst reset.
    destruct (GameState.phase prev); rewrite ?length_map; reflexivity. }
  assert (Hseat : forall i p, nth_error (GameState.players prev) i = Some p ->
    exists p', nth_error (mapi blinds (map cards reset)) i = Some p' /\
      match blindOwed sb bb i with
      | Some blind =>
          Player.currentBet p' = Qmin blind (Player.stack p) /\
          Player.stack p' = Player.stack p - Qmin blind (Player.stack p) /\
          (Player.isAllIn p' = true <-> Player.stack p' == 0)
      | None =>
          Player.currentBet p' = 0 /\ Player.stack p' = Player.stack p /\
          Player.isAllIn p' = false
      end).
  { intros i p Hp.
    rewrite nth_error_mapi, nth_error_map.
    destruct (Hreset i p Hp) as (q & -> & Hst & Hbet & Hall). cbn [option_map].
    eexists; split; [reflexivity|].
    unfold blindOwed, blinds, cards.
    destruct (i =? sb)%nat; [|destruct (i =? bb)%nat]; cbn; rewrite ?Hst;
      try (repeat split; auto; rewrite Qeq_bool_sub_zero; tauto). }
  clearbody blinds cards reset.
  eexists. split; [reflexivity|]. cbn [GameState.dealerButtonIndex
    GameState.smallBlindIndex GameState.bigBlindIndex GameState.currentBet
    GameState.minRaise GameState.currentPlayerIndex GameState.players].
  do 4 (split; [reflexivity|]).
  split; [unfold BIG_BLIND; ring|].
  split; [unfold getFirstPreFlopPlayer; now rewrite Hlen|].
  split; [exact Hlen|]. split; [exact Hseat|].
  intros Hstacks Hd.
  assert (HN4 : N = 4%nat)
    by (unfold N; rewrite <- (length_map Player.stack), Hstacks; reflexivity).
  assert (Hsb : sb = 1%nat) by (unfold sb; rewrite Hd, HN4; reflexivity).
  assert (Hbb : bb = 2%nat) by (unfold bb; rewrite Hd, HN4; reflexivity).
  unfold getFirstPreFlopPlayer. rewrite Hlen.
  remember (mapi blinds (map cards reset)) as ps eqn:Eps.
  assert (Hl : length ps = 4%nat) by (rewrite Hlen; exact HN4).
  destruct ps as [|p0 [|p1 [|p2 [|p3 [|]]]]]; try discriminate Hl.
  exists p0, p1, p2, p3. split; [reflexivity|].
  destruct (GameState.players prev) as [|q0 [|q1 [|q2 [|q3 [|]]]]];
    try discriminate Hstacks.
  injection Hstacks as H0 H1 H2 H3.
  destruct (Hseat 1%nat q1 eq_refl) as (p1' & E1 & B1).
  destruct (Hseat 2%nat q2 eq_refl) as (p2' & E2 & B2).
  cbn in E1, E2. injection E1 as <-. injection E2 as <-.
  rewrite Hsb, Hbb in B1, B2. cbn in B1, B2.
  destruct B1 as (B1 & _). destruct B2 as (B2 & _).
  rewrite B1, B2, H1, H2, Hbb, HN4.
  repeat split; reflexivity.
Qed.

(** The scenario of C5: four stacks of 100, blinds 1/2 and 1, the button
    arriving at seat 0. *)
Lemma startNewHand_blinds_witness :
  exists s,
    startNewHand createDeck noStyles table4 = Ok s /\
    GameState.dealerButtonIndex s = 0%nat /\
    GameState.smallBlindIndex s = 1%nat /\
    GameState.bigBlindIndex s = 2%nat /\
    GameState.currentPlayerIndex s = 3%nat.
Proof.
  destruct (@startNewHand_blinds createDeck noStyles table4)
    as (s & E & Hd & Hsb & Hbb & _ & _ & Hact & _).
  - vm_compute. lia.
  - vm_compute. lia.
  - exists s. repeat split; assumption.
Defined.

(** From the state [initializeGame] builds, whose button is at seat 0, the
    first hand is dealt with the button at seat 1: small blind seat 2, big
    blind seat 3, and seat 0 acts first. *)
Lemma startNewHand_first_hand :
  exists s,
    startNewHand createDeck noStyles (initializeGame 100 100 100 100) = Ok s /\
    GameState.dealerButtonIndex s = 1%nat /\
    GameState.smallBlindIndex s = 2%nat /\
    GameState.bigBlindIndex s = 3%nat /\
    GameState.currentPlayerIndex s = 0%nat.
Proof. eexists. split; [vm_compute; reflexivity|]. repeat split. Qed.

(** ** Acting *)

Lemma getNextPlayerIndexLoop_ok (players : list Player.t) (fuel : nat) :
  forall i, (i < length players)%nat ->
    exists j, getNextPlayerIndexLoop players fuel i = Ok j /\ (j < length players)%nat.
Proof.
  induction fuel as [|fuel IH]; intros i Hi; simpl;
    destruct (nth_error players i) as [p|] eqn:E;
    try (apply nth_error_None in E; lia); cbn [deref bind];
    destruct (Player.isFolded p || Player.isAllIn p); eauto.
  apply IH. apply Nat.mod_upper_bound. lia.
Qed.

Lemma getNextPlayerIndex_ok (players : list Player.t) (i : nat) :
  players <> [] ->
  exists j, getNextPlayerIndex players i = Ok j /\ (j < length players)%nat.
Proof.
  intros H. apply getNextPlayerIndexLoop_ok. apply Nat.mod_upper_bound.
  destruct players; [congruence|simpl; lia].
Qed.

(** A raise as [processPlayerAction] carries it out.  It sets the
    player's street bet to
    [min(action.amount || 0, player.stack)] (the cap is the stack alone,
    not the stack plus the bet already made), takes the difference between
    this total and the previous street bet from the stack, and makes the
    total the bet to match; the player is all-in afterwards exactly when
    the stack is then empty or the player was all-in before.  Unless the
    raise ends the street, the new state stores the minimum raise
    [total + max(total - previous bet to match, BIG_BLIND)]. *)
Theorem raise_commitment
  (deck : list Card) (now : Z) (action : BetAction.t) (prev : GameState.t)
  (player : Player.t) :
  BetAction.type action = raise ->
  nth_error (GameState.players prev) (GameState.currentPlayerIndex prev)
    = Some player ->
  let total := Qmin (orZero (BetAction.amount action)) (Player.stack player) in
  let delta := total - Player.currentBet player in
  exists p',
    processPlayerAction action player prev = (p', delta, total) /\
    Player.currentBet p' = total /\
    Player.stack p' = Player.stack player - delta /\
    (Player.isAllIn p' = true <->
     Player.stack p' == 0 \/ Player.isAllIn player = true) /\
    Player.isFolded p' = Player.isFolded player /\
    let updatedPlayers :=
      mapi (fun p index =>
              if (index =? GameState.currentPlayerIndex prev)%nat then p' else p)
        (GameState.players prev) in
    (isHandOver updatedPlayers = true \/
     isBettingRoundComplete updatedPlayers total = false ->
     exists s,
       handlePlayerAction deck now action prev = Ok s /\
       GameState.players s = updatedPlayers /\
       GameState.currentBet s = total /\
       GameState.minRaise s
       = total + Qmax (total - GameState.currentBet prev) BIG_BLIND).
Proof.
  intros Hty Hp total delta.
  unfold processPlayerAction. rewrite Hty. fold total. fold delta.
  eexists. split; [reflexivity|]. cbn [Player.currentBet Player.stack
    Player.isAllIn Player.isFolded].
  split; [reflexivity|]. split; [reflexivity|].
  split.
  { destruct (Qeq_bool (Player.stack player - delta) 0) eqn:E.
    - apply Qeq_bool_iff in E. tauto.
    - split; [tauto|]. intros [H|H]; [|exact H].
      apply Qeq_bool_iff in H. congruence. }
  split; [reflexivity|].
  match goal with
  | |- context [isHandOver ?u] => set (updatedPlayers := u)
  end.
  intros Hopen.
  unfold handlePlayerAction. rewrite Hp. cbn [deref bind].
  unfold processPlayerAction. rewrite Hty. fold total. fold delta.
  fold updatedPlayers.
  destruct (isHandOver updatedPlayers) eqn:Hover.
  - eexists. split; [reflexivity|]. repeat split.
  - destruct Hopen as [Hopen|Hopen]; [discriminate|]. rewrite Hopen.
    destruct (@getNextPlayerIndex_ok updatedPlayers
                (GameState.currentPlayerIndex prev)) as (j & -> & _).
    { intros Hnil. apply (f_equal (@length _)) in Hnil.
      unfold updatedPlayers in Hnil. rewrite length_mapi in Hnil.
      destruct (GameState.players prev); [|discriminate].
      destruct (GameState.currentPlayerIndex prev); discriminate. }
    cbn [bind]. eexists. split; [reflexivity|]. repeat split.
Qed.

(** The cap at work in a hand: the small blind of [smallBlindToAct]
    holds 199/2 behind a bet of 1/2 and raises to 100, the whole of it;
    the street bet becomes 199/2, not [min(100, 199/2 + 1/2) = 100]. *)
Lemma raise_commitment_counterexample :
  exists gs player p' potIncrease newCurrentBet,
    smallBlindToAct = Ok gs /\
    nth_error (GameState.players gs) (GameState.currentPlayerIndex gs) = Some player /\
    processPlayerAction (BetAction.mk raise (Some 100)) player gs
    = (p', potIncrease, newCurrentBet) /\
    ~ Player.currentBet p'
      == Qmin 100 (Player.stack player + Player.currentBet player).
Proof.
  do 5 eexists. split; [vm_compute; reflexivity|].
  split; [vm_compute; reflexivity|].
  split; [vm_compute; reflexivity|].
  vm_compute. discriminate.
Qed.

(** [raise_commitment] at this raise. *)
Lemma raise_commitment_witness :
  smallBlindToAct = Ok smallBlindState /\
  exists p',
    Player.currentBet p' = Qmin 100 (Player.stack smallBlindSeat) /\
    Player.stack p'
    = Player.stack smallBlindSeat
      - (Qmin 100 (Player.stack smallBlindSeat) - Player.currentBet smallBlindSeat).
Proof.
  split; [vm_compute; reflexivity|].
  destruct (@raise_commitment createDeck 0%Z (BetAction.mk raise (Some 100))
              smallBlindState smallBlindSeat eq_refl eq_refl)
    as (p' & _ & Hbet & Hstack & _).
  exists p'. split; assumption.
Defined.

(** ** The pot *)

(** C1, evaluated.  In the hand of [table4], once the first seat to act has
    called the big blind, the stacks have lost 5/2 in total while the pot
    and the street bets together hold 7/2: the call is in the caller's
    street bet and in the pot at once.  After a second call the pot holds
    2; the small blind then completes to 1, which ends the street with
    street bets of 4 in total, all the chips that have left the stacks,
    and the pot becomes 13/2 instead of 4. *)
Theorem pot_counts_calls_twice :
  exists s0 s1 s2 s3,
    startNewHand createDeck noStyles table4 = Ok s0 /\
    handlePlayerAction createDeck 0 (BetAction.mk call None) s0 = Ok s1 /\
    sumStacks (GameState.players table4) - sumStacks (GameState.players s1) == 5 # 2 /\
    GameState.pot s1 + sumBets (GameState.players s1) == 7 # 2 /\
    smallBlindToAct = Ok s2 /\
    GameState.pot s2 == 2 /\
    handlePlayerAction createDeck 0 (BetAction.mk call None) s2 = Ok s3 /\
    GameState.bettingRound s3 = flop /\
    sumStacks (GameState.players table4) - sumStacks (GameState.players s3) == 4 /\
    sumBets (GameState.players s3) == 0 /\
    GameState.pot s3 == 13 # 2.
Proof.
  do 4 eexists.
  split; [vm_compute; reflexivity|].
  split; [vm_compute; reflexivity|].
  split; [vm_compute; reflexivity|].
  split; [vm_compute; reflexivity|].
  split; [vm_compute; reflexivity|].
  split; [vm_compute; reflexivity|].
  split; [vm_compute; reflexivity|].
  repeat split; vm_compute; reflexivity.
Qed.

(** ** Street transitions *)

Lemma collectBets_players (players : list Player.t) :
  length (fst (collectBets players)) = length players /\
  Forall (fun p => Player.currentBet p = 0) (fst (collectBets players)).
Proof.
  unfold collectBets. cbn [fst]. split; [apply length_map|].
  apply Forall_map. apply Forall_forall. intros; reflexivity.
Qed.

(** The part of C4 the code keeps.  When the action leaves more than one
    player in the hand and the betting round is complete, the street
    advances: the flop has exactly three community cards, the turn and the
    river one more each, after the river comes the showdown; on a new
    betting street the bet to match is 0, the minimum raise [BIG_BLIND],
    every street bet 0, and the seat to act is the one
    [getFirstPostFlopPlayer] names. *)
Lemma street_advances
  (deck : list Card) (now : Z) (action : BetAction.t) (prev : GameState.t)
  (player : Player.t) :
  nth_error (GameState.players prev) (GameState.currentPlayerIndex prev)
    = Some player ->
  (3 <= length deck)%nat ->
  let updatedPlayers :=
    mapi (fun p index =>
            if (index =? GameState.currentPlayerIndex prev)%nat
            then fst (fst (processPlayerAction action player prev)) else p)
      (GameState.players prev) in
  isHandOver updatedPlayers = false ->
  isBettingRoundComplete updatedPlayers
    (snd (processPlayerAction action player prev)) = true ->
  exists s,
    handlePlayerAction deck now action prev = Ok s /\
    length (GameState.players s) = length (GameState.players prev) /\
    Forall (fun p => Player.currentBet p = 0) (GameState.players s) /\
    GameState.currentBet s = 0 /\
    match GameState.bettingRound prev with
    | river => GameState.phase s = showdown
    | round =>
        GameState.phase s = GameState.phase prev /\
        GameState.bettingRound s
        = match round with preflop => flop | flop => turn | _ => river end /\
        length (GameState.communityCards s)
        = match round with
          | preflop => 3%nat
          | _ => S (length (GameState.communityCards prev))
          end /\
        GameState.minRaise s = BIG_BLIND /\
        GameState.currentPlayerIndex s
        = getFirstPostFlopPlayer (length (GameState.players prev))
            (GameState.dealerButtonIndex prev)
    end.
Proof.
  intros Hp Hdeck updatedPlayers Hover Hdone.
  unfold handlePlayerAction. rewrite Hp. cbn [deref bind].
  destruct (processPlayerAction action player prev) as [[p' inc] bet] eqn:E.
  cbn [fst snd] in *. fold updatedPlayers. rewrite Hover, Hdone.
  destruct (collectBets_players updatedPlayers) as [Hlen Hzero].
  unfold updatedPlayers in Hlen at 2. rewrite length_mapi in Hlen.
  destruct (collectBets updatedPlayers) as [after collected] eqn:Ec.
  cbn [fst] in *.
  rewrite !deal_ok by lia.
  destruct (GameState.bettingRound prev); cbn [getNextBettingRound bind];
    eexists; (split; [reflexivity|]);
    cbn [GameState.players GameState.currentBet GameState.phase
         GameState.bettingRound GameState.communityCards GameState.minRaise
         GameState.currentPlayerIndex];
    rewrite ?Hlen, ?length_app, ?length_firstn;
    repeat split; auto; lia.
Qed.

(** C4, evaluated.  In the hand of [table4] (button at seat 0) the two
    seats after the big blind call and the small blind, seat 1, folds:
    the flop is dealt and the seat to act is seat 1, the seat that has
    just folded, although seats 2, 3 and 0 are still in the hand. *)
Theorem flop_action_on_folded_seat :
  exists s p,
    smallBlindFolded = Ok s /\
    GameState.bettingRound s = flop /\
    length (GameState.communityCards s) = 3%nat /\
    GameState.dealerButtonIndex s = 0%nat /\
    GameState.currentPlayerIndex s = 1%nat /\
    nth_error (GameState.players s) (GameState.currentPlayerIndex s) = Some p /\
    Player.isFolded p = true /\
    map Player.isFolded (GameState.players s) = [false; true; false; false] /\
    map Player.isAllIn (GameState.players s) = [false; false; false; false].
Proof.
  do 2 eexists.
  split; [vm_compute; reflexivity|].
  repeat split; vm_compute; reflexivity.
Qed.

(** ** The AI's raises *)

Lemma determineRaiseSize_capped
  (styleConfig : PlayerStyleConfig.t) (player : Player.t) (pot handStrength : Q) :
  exists a,
    determineRaiseSize styleConfig player pot handStrength
    = BetAction.mk raise (Some a) /\
    a <= Player.stack player.
Proof.
  unfold determineRaiseSize, raiseAction. eexists. split; [reflexivity|].
  apply Q.le_min_r.
Qed.

Ltac split_ifs :=
  repeat match goal with
    | |- context [if ?b then _ else _] => destruct b eqn:?
    end.

(** A returned action that is a raise is one of the raises built in the
    branch at hand. *)
Ltac raise_branch Hsize :=
  match goal with
  | |- Ok (determineRaiseSize _ _ _ _) = Ok _ -> _ => apply Hsize
  | |- Ok ?act = Ok _ -> _ =>
      let E := fresh in
      intros E; injection E as <-;
      first [discriminate
            | intros _; eexists; split; [reflexivity|]]
  end.

Lemma decidePreFlop_raise
  (styleConfig : PlayerStyleConfig.t) (rnd : nat -> Q) (player : Player.t)
  (currentBet pot : Q) (playerIndex dealerIndex : Z) (action : BetAction.t) :
  decidePreFlop styleConfig rnd player currentBet pot playerIndex dealerIndex
  = Ok action ->
  BetAction.type action = raise ->
  exists a, BetAction.amount action = Some a /\ a <= Player.stack player.
Proof.
  assert (Hsize : forall pot hs,
             Ok (determineRaiseSize styleConfig player pot hs) = Ok action ->
             BetAction.type action = raise ->
             exists a, BetAction.amount action = Some a /\ a <= Player.stack player).
  { intros p hs [= <-] _.
    destruct (determineRaiseSize_capped styleConfig player p hs) as (a & -> & Ha).
    exists a. now split. }
  unfold decidePreFlop.
  destruct (nth_error (Player.holeCards player) 0); [|discriminate].
  destruct (nth_error (Player.holeCards player) 1); [|discriminate].
  cbn [deref bind]. split_ifs; raise_branch Hsize.
Qed.

Lemma decidePostFlop_raise
  (styleConfig : PlayerStyleConfig.t) (rnd : nat -> Q) (player : Player.t)
  (currentBet pot : Q) (communityCards : list Card) (action : BetAction.t) :
  decidePostFlop styleConfig rnd player currentBet pot communityCards = Ok action ->
  BetAction.type action = raise ->
  exists a,
    BetAction.amount action = Some a /\
    (a <= Player.stack player \/
     (currentBet == Player.currentBet player /\
      6 <= PlayerStyleConfig.aggression styleConfig /\
      a = Math_floor (pot * (5 # 10)))).
Proof.
  assert (Hsize : forall pot' hs,
             Ok (determineRaiseSize styleConfig player pot' hs) = Ok action ->
             BetAction.type action = raise ->
             exists a, BetAction.amount action = Some a /\
               (a <= Player.stack player \/
                (currentBet == Player.currentBet player /\
                 6 <= PlayerStyleConfig.aggression styleConfig /\
                 a = Math_floor (pot * (5 # 10))))).
  { intros p hs [= <-] _.
    destruct (determineRaiseSize_capped styleConfig player p hs) as (a & -> & Ha).
    exists a. split; [reflexivity|now left]. }
  unfold decidePostFlop.
  destruct (evaluateHand _); [|discriminate]. cbn [bind].
  split_ifs; raise_branch Hsize.
  right.
  repeat match goal with
    | H : (_ && _)%bool = true |- _ => apply andb_prop in H; destruct H
    end.
  split; [now apply Qeq_bool_iff|]. split; [now apply Qle_bool_iff|reflexivity].
Qed.

(** The raises of [decide].  Whatever the style, the snapshot and the
    random draws, a raise returned by [decide] carries an amount, and
    either the amount is at most the player's stack (every raise sized by
    [determineRaiseSize]), or the raise is the post-flop bluff bet
    [floor(pot * 0.5)] made when no bet is outstanding.  No bound from
    below by the minimum raise is stated: [decide] does not read it. *)
Theorem decide_raise_capped
  (styleConfig : PlayerStyleConfig.t) (rnd : nat -> Q) (player : Player.t)
  (gameState : GameState.t) (action : BetAction.t) :
  decide styleConfig rnd player gameState = Ok action ->
  BetAction.type action = raise ->
  exists a,
    BetAction.amount action = Some a /\
    (a <= Player.stack player \/
     (GameState.bettingRound gameState <> preflop /\
      GameState.currentBet gameState == Player.currentBet player /\
      6 <= PlayerStyleConfig.aggression styleConfig /\
      a = Math_floor (GameState.pot gameState * (5 # 10)))).
Proof.
  intros Hd Hty. unfold decide in Hd.
  destruct (GameState.bettingRound gameState) eqn:Eround;
    [destruct (decidePreFlop_raise _ _ _ _ _ _ _ _ Hd Hty) as (a & Ha & Hle);
     exists a; split; [exact Ha|now left]|..];
    destruct (decidePostFlop_raise _ _ _ _ _ _ _ Hd Hty) as (a & Ha & [Hle|Hbluff]);
    exists a; (split; [exact Ha|]); [now left|right|now left|right|now left|right];
    (split; [discriminate|exact Hbluff]).
Qed.

(** A raise below the minimum raise.  In the hand of [table4] dealt from
    [acesOnTop], the first seat to act holds two aces, 100 chips, and
    faces the big blind with an empty pot: the tight-aggressive style
    raises to [floor(0 * 1.8) = 0], below the minimum raise 2 and not the
    player's stack. *)
Lemma decide_min_raise_counterexample :
  exists gs player a,
    startNewHand acesOnTop noStyles table4 = Ok gs /\
    nth_error (GameState.players gs) (GameState.currentPlayerIndex gs) = Some player /\
    decide (PLAYER_STYLES tight_aggressive) zeroDraws player gs
    = Ok (BetAction.mk raise (Some a)) /\
    a < GameState.minRaise gs /\
    ~ a == Player.stack player.
Proof.
  do 3 eexists.
  split; [vm_compute; reflexivity|].
  split; [vm_compute; reflexivity|].
  split; [vm_compute; reflexivity|].
  split; [reflexivity|]. vm_compute. discriminate.
Qed.

(** [decide_raise_capped] at this raise: 0 is at most the stack. *)
Lemma decide_raise_capped_witness :
  startNewHand acesOnTop noStyles table4 = Ok acesState /\
  decide (PLAYER_STYLES tight_aggressive) zeroDraws acesSeat acesState
  = Ok (BetAction.mk raise (Some 0)) /\
  exists a,
    Some 0 = Some a /\
    (a <= Player.stack acesSeat \/
     (GameState.bettingRound acesState <> preflop /\
      GameState.currentBet acesState == Player.currentBet acesSeat /\
      6 <= PlayerStyleConfig.aggression (PLAYER_STYLES tight_aggressive) /\
      a = Math_floor (GameState.pot acesState * (5 # 10)))).
Proof.
  split; [vm_compute; reflexivity|].
  assert (E : decide (PLAYER_STYLES tight_aggressive) zeroDraws acesSeat acesState
              = Ok (BetAction.mk raise (Some 0))) by (vm_compute; reflexivity).
  split; [exact E|].
  exact (@decide_raise_capped (PLAYER_STYLES tight_aggressive) zeroDraws acesSeat
           acesState (BetAction.mk raise (Some 0)) E eq_refl).
Defined.

(** ** Hit probability *)

Lemma Math_round_near (x : Q) :
  x - (1 # 2) <= Math_round x /\ Math_round x <= x + (1 # 2).
Proof.
  unfold Math_round.
  pose proof (Qfloor_le (x + (1 # 2))) as Hle.
  pose proof (Qlt_floor (x + (1 # 2))) as Hlt.
  rewrite inject_Z_plus in Hlt. change (inject_Z 1) with 1 in Hlt.
  split; lra.
Qed.

(** C7.  For a non-negative integer number of outs, with one card to come
    the result is [min(outs * 2, 100)]; with two cards to come it is a
    multiple of 1/10 within 1/20 of the percentage
    [100 * (1 - (47 - outs)/47 * (46 - outs)/46)], that is, this
    percentage rounded to one decimal.  [calculateHitProbability(8, 1)]
    is 16 and [calculateHitProbability(9, 2)] is within 0.2 of 35 (it is
    35), on rationals and on binary64 numbers alike. *)
Theorem calculateHitProbability_values (n : nat) :
  let outs := inject_Z (Z.of_nat n) in
  calculateHitProbability outs 1 == Qmin (outs * 2) 100 /\
  (let percentage := 100 * (1 - ((47 - outs) / 47) * ((46 - outs) / 46)) in
   (exists k : Z, calculateHitProbability outs 2 == inject_Z k / 10) /\
   Qabs (calculateHitProbability outs 2 - percentage) <= 1 # 20) /\
  calculateHitProbability 8 1 == 16 /\
  calculateHitProbability 9 2 == 35 /\
  Qabs (calculateHitProbability 9 2 - 35) <= 2 # 10 /\
  calculateHitProbability64 8 1 = 16%float /\
  calculateHitProbability64 9 2 = 35%float.
Proof.
  intros outs. split; [reflexivity|]. split.
  - cbn zeta. unfold calculateHitProbability. cbn [Qeq_bool].
    change (Qeq_bool 2 1) with false. change (Qeq_bool 2 2) with true. cbn iota.
    split; [eexists; reflexivity|].
    set (x := (1 - (47 - outs) / 47 * ((46 - outs) / 46)) * 100 * 10).
    destruct (Math_round_near x) as [Hlo Hhi].
    apply Qabs_diff_Qle_condition.
    assert (Hx : 100 * (1 - (47 - outs) / 47 * ((46 - outs) / 46)) == x / 10)
      by (unfold x; field).
    rewrite Hx.
    assert (E : Math_round x / 10 == Math_round x * (1 # 10)) by field.
    assert (E' : x / 10 == x * (1 # 10)) by field.
    rewrite E, E'. split; lra.
  - split; [reflexivity|]. split; [reflexivity|].
    split; [vm_compute; discriminate|].
    split; vm_compute; reflexivity.
Qed.

(** For every number of outs a deck allows, 0 to 52, the binary64
    computation and the rational model give the same value. *)
Lemma calculateHitProbability64_agrees :
  forallb agrees64 (seq 0 53) = true.
Proof. vm_compute. reflexivity. Qed.

Close Scope Q_scope.

(** ** Ranks and sorting *)

Lemma getRankValue_inj (a b : Rank) : getRankValue a = getRankValue b -> a = b.
Proof. destruct a, b; simpl; intros H; first [reflexivity | discriminate H]. Qed.

Lemma Rank_eqb_eq (a b : Rank) : Rank_eqb a b = true <-> a = b.
Proof.
  unfold Rank_eqb. rewrite Z.eqb_eq. split; [apply getRankValue_inj|now intros ->].
Qed.

Lemma Rank_eqb_refl (a : Rank) : Rank_eqb a a = true.
Proof. now apply Rank_eqb_eq. Qed.

Lemma Rank_eqb_neq (a b : Rank) : Rank_eqb a b = false <-> a <> b.
Proof.
  rewrite <- Rank_eqb_eq. destruct (Rank_eqb a b); split; congruence.
Qed.

Lemma Rank_eqb_sym (a b : Rank) : Rank_eqb a b = Rank_eqb b a.
Proof. unfold Rank_eqb. apply Z.eqb_sym. Qed.

Lemma Rank_eq_dec (a b : Rank) : {a = b} + {a <> b}.
Proof.
  destruct (Rank_eqb a b) eqn:E; [left; now apply Rank_eqb_eq|right; now apply Rank_eqb_neq].
Qed.

Lemma Suit_eqb_eq (a b : Suit) : Suit_eqb a b = true <-> a = b.
Proof. destruct a, b; simpl; split; congruence. Qed.

Lemma sameCard_eq (a b : Card) : sameCard a b = true <-> a = b.
Proof.
  unfold sameCard. rewrite andb_true_iff, Rank_eqb_eq, Suit_eqb_eq.
  destruct a, b; simpl; split; [intros [-> ->]; reflexivity|intros [= -> ->]; auto].
Qed.

Lemma includes_In (rs : list Rank) (r : Rank) : includes rs r = true <-> In r rs.
Proof.
  unfold includes. rewrite existsb_exists. split.
  - intros (x & Hx & E). apply Rank_eqb_eq in E. now subst.
  - intros H. exists r. split; [exact H|apply Rank_eqb_refl].
Qed.

Section SortFacts.
Variable A : Type.
Variable key : A -> Z.

Lemma insertDesc_perm (x : A) (l : list A) :
  Permutation (insertDesc key x l) (x :: l).
Proof.
  induction l as [|y l IH]; simpl; [reflexivity|].
  destruct (key x <? key y)%Z; [|reflexivity].
  rewrite IH. apply perm_swap.
Qed.

Lemma sortDesc_perm (l : list A) : Permutation (sortDesc key l) l.
Proof.
  induction l as [|x l IH]; simpl; [reflexivity|].
  rewrite insertDesc_perm. now constructor.
Qed.

Lemma insertDesc_sorted (x : A) (l : list A) :
  sortedDesc key l -> sortedDesc key (insertDesc key x l).
Proof.
  unfold sortedDesc. induction l as [|y l IH]; intros Hs; simpl.
  - constructor; [constructor|constructor].
  - inversion Hs as [|? ? Hs' Hall]; subst.
    destruct (Z.ltb_spec (key x) (key y)).
    + constructor; [now apply IH|].
      apply Forall_forall. intros z Hz.
      apply (Permutation_in _ (insertDesc_perm x l)) in Hz.
      destruct Hz as [<-|Hz]; [lia|].
      rewrite Forall_forall in Hall. now apply Hall.
    + constructor; [exact Hs|].
      constructor; [lia|].
      eapply Forall_impl; [|exact Hall]. simpl. intros; lia.
Qed.

Lemma sortDesc_sorted (l : list A) : sortedDesc key (sortDesc key l).
Proof.
  induction l as [|x l IH]; simpl; [constructor|now apply insertDesc_sorted].
Qed.

Lemma sortDesc_length (l : list A) : length (sortDesc key l) = length l.
Proof. apply Permutation_length, sortDesc_perm. Qed.

Lemma sortDesc_In (l : list A) (x : A) : In x (sortDesc key l) <-> In x l.
Proof.
  split; apply Permutation_in; [|symmetry]; apply sortDesc_perm.
Qed.

End SortFacts.

(** Two descending lists of integers with the same elements are equal. *)
Lemma sortedDesc_perm_eq (l l' : list Z) :
  sortedDesc (fun v : Z => v) l -> sortedDesc (fun v : Z => v) l' ->
  Permutation l l' -> l = l'.
Proof.
  unfold sortedDesc. revert l'.
  induction l as [|x l IH]; intros l' Hs Hs' Hp.
  - apply Permutation_nil in Hp. now subst.
  - destruct l' as [|y l'].
    + apply Permutation_sym, Permutation_nil in Hp. discriminate.
    + inversion Hs as [|? ? Hs1 Hall]; subst.
      inversion Hs' as [|? ? Hs1' Hall']; subst.
      assert (E : x = y).
      { assert (Hx : In x (y :: l')) by (eapply Permutation_in; [exact Hp|now left]).
        assert (Hy : In y (x :: l))
          by (eapply Permutation_in; [symmetry; exact Hp|now left]).
        rewrite Forall_forall in Hall, Hall'.
        destruct Hx as [->|Hx]; [reflexivity|].
        destruct Hy as [->|Hy]; [reflexivity|].
        specialize (Hall _ Hy). specialize (Hall' _ Hx). lia. }
      subst y. f_equal. apply IH; auto.
      eapply Permutation_cons_inv; exact Hp.
Qed.

Lemma sortedDesc_map (A : Type) (key : A -> Z) (l : list A) :
  sortedDesc key l -> sortedDesc (fun v : Z => v) (map key l).
Proof.
  unfold sortedDesc. induction 1 as [|x l Hs IH Hall]; simpl; constructor; auto.
  apply Forall_map. exact Hall.
Qed.

(** The keys of a sorted list depend on the elements only, not on their
    order in the input. *)
Lemma sortDesc_keys_perm (A : Type) (key : A -> Z) (l l' : list A) :
  Permutation l l' ->
  map key (sortDesc key l) = map key (sortDesc key l').
Proof.
  intros Hp. apply sortedDesc_perm_eq.
  - apply sortedDesc_map, sortDesc_sorted.
  - apply sortedDesc_map, sortDesc_sorted.
  - apply Permutation_map.
    rewrite !sortDesc_perm. exact Hp.
Qed.

Lemma map_getRankValue_inj (l l' : list Rank) :
  map getRankValue l = map getRankValue l' -> l = l'.
Proof.
  revert l'. induction l as [|x l IH]; intros [|y l']; simpl; try discriminate; auto.
  intros [= Hx Hl]. f_equal; [now apply getRankValue_inj|now apply IH].
Qed.

Lemma sortCardsByRank_ranks_perm (cs cs' : list Card) :
  Permutation cs cs' ->
  map rank (sortCardsByRank cs) = map rank (sortCardsByRank cs').
Proof.
  intros Hp. apply map_getRankValue_inj. rewrite !map_map.
  apply (sortDesc_keys_perm Card (fun c => getRankValue (rank c)) cs cs' Hp).
Qed.

Lemma sortDesc_ranks_perm (rs rs' : list Rank) :
  Permutation rs rs' -> sortDesc getRankValue rs = sortDesc getRankValue rs'.
Proof.
  intros Hp. apply map_getRankValue_inj. now apply sortDesc_keys_perm.
Qed.

(** ** Counter objects *)

Section JsObjectFacts.
Variable K : Type.
Variable K_eqb : K -> K -> bool.
Hypothesis K_eqb_eq : forall a b, K_eqb a b = true <-> a = b.

Lemma K_eqb_neq (a b : K) : K_eqb a b = false <-> a <> b.
Proof. rewrite <- K_eqb_eq. destruct (K_eqb a b); split; congruence. Qed.

Lemma objGet_objSet_same (o : JsObject K) (k : K) (v : nat) :
  objGet K_eqb (objSet K_eqb o k v) k = Some v.
Proof.
  induction o as [|[k' v'] o IH]; simpl.
  - now rewrite (proj2 (K_eqb_eq k k) eq_refl).
  - destruct (K_eqb k k') eqn:E; simpl.
    + now rewrite (proj2 (K_eqb_eq k k) eq_refl).
    + now rewrite E.
Qed.

Lemma objGet_objSet_other (o : JsObject K) (k k' : K) (v : nat) :
  k' <> k -> objGet K_eqb (objSet K_eqb o k v) k' = objGet K_eqb o k'.
Proof.
  intros Hne. induction o as [|[k0 v0] o IH]; simpl.
  - now rewrite (proj2 (K_eqb_neq k' k) Hne).
  - destruct (K_eqb k k0) eqn:E; simpl.
    + apply K_eqb_eq in E. subst k0.
      now rewrite (proj2 (K_eqb_neq k' k) Hne).
    + destruct (K_eqb k' k0); auto.
Qed.

Lemma objSet_keys (o : JsObject K) (k k' : K) (v : nat) :
  In k' (map fst (objSet K_eqb o k v)) <-> k' = k \/ In k' (map fst o).
Proof.
  induction o as [|[k0 v0] o IH]; simpl.
  - intuition.
  - destruct (K_eqb k k0) eqn:E; simpl.
    + apply K_eqb_eq in E. subst. intuition.
    + rewrite IH. intuition.
Qed.

Lemma objSet_NoDup (o : JsObject K) (k : K) (v : nat) :
  NoDup (map fst o) -> NoDup (map fst (objSet K_eqb o k v)).
Proof.
  induction o as [|[k0 v0] o IH]; simpl; intros Hnd.
  - constructor; [intros []|constructor].
  - inversion Hnd as [|? ? Hnotin Hnd']; subst.
    destruct (K_eqb k k0) eqn:E; simpl.
    + apply K_eqb_eq in E. subst. now constructor.
    + constructor; [|now apply IH].
      rewrite objSet_keys. intros [->|H]; [|contradiction].
      apply K_eqb_neq in E. congruence.
Qed.

Lemma objGet_None (o : JsObject K) (k : K) :
  objGet K_eqb o k = None <-> ~ In k (map fst o).
Proof.
  induction o as [|[k0 v0] o IH]; simpl; [intuition|].
  destruct (K_eqb k k0) eqn:E.
  - apply K_eqb_eq in E. subst. split; [discriminate|intros H; exfalso; auto].
  - apply K_eqb_neq in E. rewrite IH. intuition.
Qed.

Lemma objGet_In (o : JsObject K) (k : K) (v : nat) :
  NoDup (map fst o) -> (In (k, v) o <-> objGet K_eqb o k = Some v).
Proof.
  induction o as [|[k0 v0] o IH]; simpl; intros Hnd.
  - split; [intros []|discriminate].
  - inversion Hnd as [|? ? Hnotin Hnd']; subst.
    destruct (K_eqb k k0) eqn:E.
    + apply K_eqb_eq in E. subst k0. split.
      * intros [[= ->]|H]; [reflexivity|].
        exfalso. apply Hnotin. now apply (in_map fst) in H.
      * intros [= ->]. now left.
    + apply K_eqb_neq in E. rewrite <- IH by assumption. split.
      * intros [[= -> ->]|H]; [congruence|exact H].
      * now right.
Qed.

Section CountBy.
Variable A : Type.
Variable key : A -> K.

Let step (o : JsObject K) (x : A) : JsObject K :=
  objSet K_eqb o (key x) (objGetOr0 K_eqb o (key x) + 1).

Let occurrences (k : K) (xs : list A) : nat :=
  length (filter (fun x => K_eqb (key x) k) xs).

Lemma countFold_get (xs : list A) (k : K) :
  forall o,
    objGetOr0 K_eqb (fold_left step xs o) k = objGetOr0 K_eqb o k + occurrences k xs.
Proof.
  induction xs as [|x xs IH]; intros o; simpl; [unfold occurrences; simpl; lia|].
  rewrite IH. unfold occurrences. simpl. unfold step at 1.
  destruct (K_eqb (key x) k) eqn:E.
  - apply K_eqb_eq in E. subst k. unfold objGetOr0 at 1.
    rewrite objGet_objSet_same. simpl. lia.
  - apply K_eqb_neq in E. unfold objGetOr0 at 1.
    rewrite objGet_objSet_other by congruence. fold (objGetOr0 K_eqb o k). lia.
Qed.

Lemma countFold_keys (xs : list A) (k : K) :
  forall o,
    In k (map fst (fold_left step xs o)) <-> In k (map fst o) \/ In k (map key xs).
Proof.
  induction xs as [|x xs IH]; intros o; simpl; [intuition|].
  rewrite IH. unfold step. rewrite objSet_keys. intuition.
Qed.

Lemma countFold_NoDup (xs : list A) :
  forall o, NoDup (map fst o) -> NoDup (map fst (fold_left step xs o)).
Proof.
  induction xs as [|x xs IH]; intros o Hnd; simpl; [exact Hnd|].
  apply IH. unfold step. now apply objSet_NoDup.
Qed.

Lemma occurrences_pos (xs : list A) (k : K) :
  0 < occurrences k xs <-> In k (map key xs).
Proof.
  unfold occurrences. induction xs as [|x xs IH]; simpl; [split; [lia|intros []]|].
  destruct (K_eqb (key x) k) eqn:E; simpl.
  - apply K_eqb_eq in E. split; [now left|lia].
  - apply K_eqb_neq in E. rewrite IH. intuition.
Qed.

Lemma countBy_get (xs : list A) (k : K) :
  objGetOr0 K_eqb (countBy K_eqb key xs) k = occurrences k xs.
Proof. unfold countBy. apply (countFold_get xs k []). Qed.

Lemma countBy_NoDup (xs : list A) : NoDup (map fst (countBy K_eqb key xs)).
Proof. unfold countBy. apply countFold_NoDup. constructor. Qed.

Lemma countBy_In (xs : list A) (k : K) (v : nat) :
  In (k, v) (countBy K_eqb key xs) <-> v = occurrences k xs /\ 0 < v.
Proof.
  rewrite objGet_In by apply countBy_NoDup.
  pose proof (countBy_get xs k) as Hget. unfold objGetOr0 in Hget.
  assert (Hkeys : In k (map fst (countBy K_eqb key xs)) <-> In k (map key xs)).
  { destruct (countFold_keys xs k []) as [H1 H2]. split.
    - intros Hin. destruct (H1 Hin) as [[]|H]. exact H.
    - intros Hin. apply H2. now right. }
  pose proof (occurrences_pos xs k) as Hpos.
  pose proof (objGet_None (countBy K_eqb key xs) k) as Hnone.
  destruct (objGet K_eqb (countBy K_eqb key xs) k) as [w|] eqn:E.
  - split.
    + intros [= ->]. split; [exact Hget|].
      destruct (Nat.eq_dec (occurrences k xs) 0) as [Hz|Hnz]; [|lia].
      assert (Hn : ~ In k (map fst (countBy K_eqb key xs)))
        by (rewrite Hkeys, <- Hpos; lia).
      apply Hnone in Hn. discriminate.
    + intros [-> _]. now rewrite Hget.
  - split; [discriminate|]. intros [-> H]. lia.
Qed.

End CountBy.

Lemma objEntries_perm (keyIndex : K -> option Z) (o : JsObject K) :
  Permutation (objEntries keyIndex o) o.
Proof.
  unfold objEntries. rewrite <- Permutation_rev, sortDesc_perm.
  induction o as [|e o IH]; simpl; [reflexivity|].
  destruct (isIndexKey keyIndex e); simpl.
  - now constructor.
  - rewrite <- Permutation_middle. now constructor.
Qed.

End JsObjectFacts.

(** ** Rank counts *)

Lemma getRankCounts_get (cs : list Card) (r : Rank) :
  objGetOr0 Rank_eqb (getRankCounts cs) r = countRank r cs.
Proof. apply (countBy_get Rank Rank_eqb Rank_eqb_eq Card rank cs r). Qed.

Lemma rankEntries_In (cs : list Card) (r : Rank) (n : nat) :
  In (r, n) (rankEntries cs) <-> n = countRank r cs /\ 0 < n.
Proof.
  unfold rankEntries.
  rewrite <- (countBy_In Rank Rank_eqb Rank_eqb_eq Card rank cs r n).
  split; apply Permutation_in; [|symmetry]; apply objEntries_perm.
Qed.

Lemma rankEntries_NoDup (cs : list Card) : NoDup (map fst (rankEntries cs)).
Proof.
  unfold rankEntries.
  eapply Permutation_NoDup; [symmetry; apply Permutation_map, objEntries_perm|].
  apply (countBy_NoDup Rank Rank_eqb Rank_eqb_eq).
Qed.

Lemma rankKeys_In (cs : list Card) (r : Rank) :
  In r (objKeys rankKeyIndex (getRankCounts cs)) <-> 0 < countRank r cs.
Proof.
  unfold objKeys. fold (rankEntries cs). rewrite in_map_iff. split.
  - intros ([r' n] & <- & Hin). apply rankEntries_In in Hin. simpl. lia.
  - intros Hpos. exists (r, countRank r cs). split; [reflexivity|].
    apply rankEntries_In. auto.
Qed.

Lemma filter_perm (A : Type) (f : A -> bool) (l l' : list A) :
  Permutation l l' -> Permutation (filter f l) (filter f l').
Proof.
  induction 1 as [|x l l' Hp IH|x y l|l l' l'' _ IH1 _ IH2]; simpl.
  - constructor.
  - destruct (f x); [now constructor|exact IH].
  - destruct (f x), (f y); try reflexivity. apply perm_swap.
  - now transitivity (filter f l').
Qed.

Lemma countRank_perm (r : Rank) (cs cs' : list Card) :
  Permutation cs cs' -> countRank r cs = countRank r cs'.
Proof.
  intros Hp. unfold countRank. apply Permutation_length.
  now apply filter_perm.
Qed.

Lemma countSuit_perm (s : Suit) (cs cs' : list Card) :
  Permutation cs cs' -> countSuit s cs = countSuit s cs'.
Proof.
  intros Hp. unfold countSuit. apply Permutation_length.
  now apply filter_perm.
Qed.

Lemma filter_split_length (A : Type) (f : A -> bool) (l : list A) :
  length l = length (filter f l) + length (filter (fun x => negb (f x)) l).
Proof.
  induction l as [|x l IH]; simpl; [reflexivity|].
  destruct (f x); simpl; lia.
Qed.

Lemma countRank_others (r : Rank) (cs : list Card) :
  length cs = countRank r cs + length (filter (fun c => negb (hasRank r c)) cs).
Proof. apply filter_split_length. Qed.

(** The first entry with a given count is the entry of the only rank that
    has this count. *)
Lemma find_count_some (cs : list Card) (n : nat) (r : Rank) (m : nat) :
  find (fun e => snd e =? n) (rankEntries cs) = Some (r, m) ->
  m = n /\ countRank r cs = n /\ 0 < n.
Proof.
  intros H. apply find_some in H. destruct H as [Hin E].
  simpl in E. apply Nat.eqb_eq in E. subst m.
  apply rankEntries_In in Hin. intuition.
Qed.

Lemma find_count_none (cs : list Card) (n : nat) :
  0 < n -> find (fun e => snd e =? n) (rankEntries cs) = None ->
  forall r, countRank r cs <> n.
Proof.
  intros Hpos H r E.
  assert (Hin : In (r, n) (rankEntries cs))
    by (apply rankEntries_In; split; [auto|lia]).
  pose proof (find_none _ _ H (r, n) Hin) as F. simpl in F.
  rewrite Nat.eqb_refl in F. discriminate.
Qed.

Lemma find_count_unique (cs : list Card) (n : nat) (r : Rank) :
  countRank r cs = n -> 0 < n ->
  (forall r', countRank r' cs = n -> r' = r) ->
  find (fun e => snd e =? n) (rankEntries cs) = Some (r, n).
Proof.
  intros E Hpos Huniq.
  destruct (find (fun e => snd e =? n) (rankEntries cs)) as [[r' m]|] eqn:F.
  - apply find_count_some in F. destruct F as (-> & F & _).
    now rewrite (Huniq r' F).
  - exfalso. exact (find_count_none cs n Hpos F r E).
Qed.

(** The loops of [checkFullHouse] that keep the highest qualifying rank. *)
Lemma keepHigher_fold (P : Rank -> bool) (ranks : list Rank) :
  forall best,
    match best with Some b => P b = true | None => True end ->
    match fold_left (fun best r => if P r then keepHigher best r else best)
            ranks best with
    | Some t =>
        P t = true /\ (In t ranks \/ best = Some t) /\
        (forall r, In r ranks -> P r = true -> (getRankValue r <= getRankValue t)%Z) /\
        (forall b, best = Some b -> (getRankValue b <= getRankValue t)%Z)
    | None => best = None /\ forall r, In r ranks -> P r = false
    end.
Proof.
  induction ranks as [|x ranks IH]; intros best Hbest; simpl.
  - destruct best as [b|].
    + repeat split; auto; [intros r []|intros ? [= ->]; lia].
    + split; [reflexivity|intros r []].
  - set (best' := if P x then keepHigher best x else best).
    assert (Hbest' : match best' with Some b => P b = true | None => True end).
    { unfold best', keepHigher. destruct (P x) eqn:Px; [|exact Hbest].
      destruct best as [b|]; [|exact Px].
      destruct (getRankValue x >? getRankValue b)%Z; assumption. }
    specialize (IH best' Hbest').
    destruct (fold_left _ ranks best') as [t|].
    + destruct IH as (Pt & Hin & Hmax & Hge). split; [exact Pt|].
      assert (Hx : P x = true -> (getRankValue x <= getRankValue t)%Z).
      { intros Px. unfold best', keepHigher in Hge. rewrite Px in Hge.
        destruct best as [b|]; [|now apply Hge].
        destruct (Z.gtb_spec (getRankValue x) (getRankValue b)).
        - now apply Hge.
        - specialize (Hge b eq_refl). lia. }
      split; [|split].
      * destruct Hin as [Hin|Hin]; [left; now right|].
        unfold best', keepHigher in Hin. destruct (P x); [|now right].
        destruct best as [b|]; [|injection Hin as ->; left; now left].
        destruct (getRankValue x >? getRankValue b)%Z;
          [injection Hin as ->; left; now left|now right].
      * intros r [<-|Hr] Pr; [now apply Hx|now apply Hmax].
      * intros b ->. unfold best', keepHigher in Hge.
        destruct (P x) eqn:Px; [|now apply Hge].
        destruct (Z.gtb_spec (getRankValue x) (getRankValue b)).
        -- specialize (Hge x eq_refl). lia.
        -- now apply Hge.
    + destruct IH as (E & Hnone). unfold best', keepHigher in E.
      destruct (P x) eqn:Px.
      * destruct best as [b|]; [|discriminate].
        destruct (getRankValue x >? getRankValue b)%Z; discriminate.
      * split; [exact E|]. intros r [<-|Hr]; [exact Px|now apply Hnone].
Qed.

Lemma keepHigher_fold_some (P : Rank -> bool) (ranks : list Rank) (t : Rank) :
  fold_left (fun best r => if P r then keepHigher best r else best) ranks None
  = Some t ->
  P t = true /\ In t ranks /\
  forall r, In r ranks -> P r = true -> (getRankValue r <= getRankValue t)%Z.
Proof.
  intros E. pose proof (keepHigher_fold P ranks None I) as H.
  rewrite E in H. destruct H as (Pt & [Hin|Hin] & Hmax & _); [|discriminate].
  auto.
Qed.

Lemma keepHigher_fold_none (P : Rank -> bool) (ranks : list Rank) :
  fold_left (fun best r => if P r then keepHigher best r else best) ranks None
  = None ->
  forall r, In r ranks -> P r = false.
Proof.
  intros E. pose proof (keepHigher_fold P ranks None I) as H.
  rewrite E in H. apply H.
Qed.

(** ** The five selected cards *)

Lemma fiveOf_incl (cs cs' : list Card) (slots : list (option Card)) :
  (forall c, In c cs -> In c cs') -> fiveOf cs slots -> fiveOf cs' slots.
Proof.
  intros Hincl [Hlen Hall]. split; [exact Hlen|].
  eapply Forall_impl; [|exact Hall]. simpl.
  intros slot (c & -> & Hin). eauto.
Qed.

Lemma fiveOf_map_Some (cs sel : list Card) :
  length sel = 5 -> (forall c, In c sel -> In c cs) -> fiveOf cs (map Some sel).
Proof.
  intros Hlen Hin. split; [now rewrite length_map|].
  apply Forall_map, Forall_forall. intros c Hc. eauto.
Qed.

Lemma fiveOf_head (cs : list Card) (slots : list (option Card)) :
  fiveOf cs slots -> exists c, jsIndex slots 0 = Some c /\ In c cs.
Proof.
  intros [Hlen Hall]. destruct slots as [|slot slots]; [discriminate|].
  inversion Hall as [|? ? (c & -> & Hin) _]; subst. exists c. now split.
Qed.

Lemma find_hasRank (r : Rank) (l : list Card) :
  In r (map rank l) ->
  exists c, find (hasRank r) l = Some c /\ rank c = r /\ In c l.
Proof.
  induction l as [|x l IH]; simpl; [intros []|].
  unfold hasRank at 1. destruct (Rank_eqb (rank x) r) eqn:E.
  - intros _. exists x. apply Rank_eqb_eq in E. auto.
  - apply Rank_eqb_neq in E. intros [H|H]; [contradiction|].
    destruct (IH H) as (c & F & Hr & Hin). exists c. auto.
Qed.

Lemma uniqueRanksOf_In (rs : list Rank) (r : Rank) :
  In r (uniqueRanksOf rs) <-> In r rs.
Proof.
  induction rs as [|x rs IH]; simpl; [reflexivity|].
  rewrite filter_In, IH, negb_true_iff, Rank_eqb_neq.
  destruct (Rank_eq_dec x r); intuition.
Qed.

Lemma firstRun_some (rs : list Rank) :
  forall five,
    firstRun rs = Some five ->
    length five = 5 /\ (forall r, In r five -> In r rs) /\
    isConsecutive (map getRankValue five) = true.
Proof.
  induction rs as [|x rs IH]; intros five; [discriminate|].
  cbn [firstRun]. destruct (Nat.leb_spec 5 (length (x :: rs))) as [Hlen|]; [|discriminate].
  destruct (isConsecutive (map getRankValue (firstn 5 (x :: rs)))) eqn:Hc.
  - intros E. assert (E' : five = firstn 5 (x :: rs)) by congruence.
    rewrite E'. split; [rewrite length_firstn; lia|].
    split; [|exact Hc]. intros r Hr. now apply firstn_In in Hr.
  - intros H. destruct (IH five H) as (H1 & H2 & H3). repeat split; auto.
    intros r Hr. right. auto.
Qed.

Lemma straightCards_fiveOf (cs : list Card) (ranks : list Rank) :
  length ranks = 5 ->
  (forall r, In r ranks -> In r (map rank (sortCardsByRank cs))) ->
  fiveOf cs (map (fun r => find (hasRank r) (sortCardsByRank cs)) ranks).
Proof.
  intros Hlen Hin. split; [now rewrite length_map|].
  apply Forall_map, Forall_forall. intros r Hr.
  destruct (find_hasRank r _ (Hin r Hr)) as (c & F & _ & Hc).
  exists c. split; [exact F|]. now apply sortDesc_In in Hc.
Qed.

Lemma checkStraight_ok (cs : list Card) :
  exists o, checkStraight cs = Ok o /\
    forall e, o = Some e -> ranking e = straight /\ fiveOf cs (cards e).
Proof.
  unfold checkStraight.
  set (sorted := sortCardsByRank cs).
  set (uniqueRanks := uniqueRanksOf (map rank sorted)).
  destruct (includes uniqueRanks RA && includes uniqueRanks R2 &&
            includes uniqueRanks R3 && includes uniqueRanks R4 &&
            includes uniqueRanks R5) eqn:Hwheel.
  - eexists. split; [reflexivity|]. intros e [= <-]. split; [reflexivity|].
    apply (straightCards_fiveOf cs [R5; R4; R3; R2; RA]); [reflexivity|].
    repeat (apply andb_prop in Hwheel; destruct Hwheel as [Hwheel ?]).
    intros r Hr. apply uniqueRanksOf_In, includes_In.
    simpl in Hr. intuition (subst; assumption).
  - destruct (firstRun uniqueRanks) as [fiveRanks|] eqn:Hrun.
    + apply firstRun_some in Hrun. destruct Hrun as (Hlen & Hin & _).
      assert (Hfive : fiveOf cs (map (fun r => find (hasRank r) sorted) fiveRanks)).
      { apply straightCards_fiveOf; [exact Hlen|].
        intros r Hr. apply uniqueRanksOf_In. auto. }
      destruct (fiveOf_head _ _ Hfive) as (c0 & -> & _). cbn [deref bind].
      eexists. split; [reflexivity|]. intros e [= <-]. now split.
    + eexists. split; [reflexivity|]. discriminate.
Qed.

Lemma checkStraightFlushIn_ok (suits : list Suit) (cs : list Card) :
  exists o, checkStraightFlushIn suits cs = Ok o /\
    forall e, o = Some e -> ranking e = straight_flush /\ fiveOf cs (cards e).
Proof.
  induction suits as [|s suits IH]; cbn [checkStraightFlushIn].
  - eexists. split; [reflexivity|]. discriminate.
  - destruct (5 <=? length (filter (hasSuit s) cs)); [|exact IH].
    destruct (checkStraight_ok (filter (hasSuit s) cs)) as (o & -> & Ho).
    cbn [bind]. destruct o as [st|]; [|exact IH].
    destruct (Ho st eq_refl) as [_ Hfive].
    destruct (fiveOf_head _ _ Hfive) as (c0 & -> & _). cbn [deref bind].
    eexists. split; [reflexivity|]. intros e [= <-]. split; [reflexivity|].
    cbn [cards]. eapply fiveOf_incl; [|exact Hfive].
    intros c Hc. now apply filter_In in Hc.
Qed.

Lemma checkRoyalFlush_ok (cs : list Card) :
  exists o, checkRoyalFlush cs = Ok o /\
    forall e, o = Some e -> ranking e = royal_flush /\ fiveOf cs (cards e).
Proof.
  unfold checkRoyalFlush, checkStraightFlush.
  destruct (checkStraightFlushIn_ok SUITS cs) as (o & -> & Ho). cbn [bind].
  destruct o as [sf|]; [|eexists; split; [reflexivity|discriminate]].
  destruct (Ho sf eq_refl) as [_ Hfive].
  destruct (fiveOf_head _ _ Hfive) as (c0 & -> & _). cbn [deref bind].
  destruct (Rank_eqb (rank c0) RA); eexists; (split; [reflexivity|]);
    [|discriminate].
  intros e [= <-]. now split.
Qed.

Lemma sorted_head (cs : list Card) :
  cs <> [] -> exists c, hd_error (sortCardsByRank cs) = Some c /\ In c cs.
Proof.
  intros Hne. unfold sortCardsByRank.
  destruct (sortDesc _ cs) as [|c l] eqn:E.
  - apply (f_equal (@length _)) in E. rewrite sortDesc_length in E.
    destruct cs; [congruence|discriminate].
  - exists c. split; [reflexivity|].
    apply (sortDesc_In _ (fun c => getRankValue (rank c))). rewrite E. now left.
Qed.

Lemma sorted_firstn (cs : list Card) (n : nat) :
  n <= length cs ->
  length (firstn n (sortCardsByRank cs)) = n /\
  forall c, In c (firstn n (sortCardsByRank cs)) -> In c cs.
Proof.
  intros Hn. split.
  - rewrite length_firstn. unfold sortCardsByRank. rewrite sortDesc_length. lia.
  - intros c Hc. apply firstn_In in Hc.
    now apply (sortDesc_In _ (fun c => getRankValue (rank c))).
Qed.

Lemma checkFourOfAKind_cases (cs : list Card) :
  (exists r, checkFourOfAKind cs = Ok (Some (fourOf r cs)) /\ countRank r cs = 4) \/
  (checkFourOfAKind cs = Ok None /\ forall r, countRank r cs <> 4).
Proof.
  unfold checkFourOfAKind.
  destruct (find _ (rankEntries cs)) as [[r m]|] eqn:F.
  - left. exists r. split; [reflexivity|]. now apply find_count_some in F.
  - right. split; [reflexivity|]. apply find_count_none; [lia|exact F].
Qed.

Lemma checkThreeOfAKind_cases (cs : list Card) :
  (exists r, checkThreeOfAKind cs = Ok (Some (threeOf r cs)) /\ countRank r cs = 3) \/
  (checkThreeOfAKind cs = Ok None /\ forall r, countRank r cs <> 3).
Proof.
  unfold checkThreeOfAKind.
  destruct (find _ (rankEntries cs)) as [[r m]|] eqn:F.
  - left. exists r. split; [reflexivity|]. now apply find_count_some in F.
  - right. split; [reflexivity|]. apply find_count_none; [lia|exact F].
Qed.

Lemma checkPair_cases (cs : list Card) :
  (exists r, checkPair cs = Ok (Some (pairOf r cs)) /\ countRank r cs = 2) \/
  (checkPair cs = Ok None /\ forall r, countRank r cs <> 2).
Proof.
  unfold checkPair.
  destruct (find _ (rankEntries cs)) as [[r m]|] eqn:F.
  - left. exists r. split; [reflexivity|]. now apply find_count_some in F.
  - right. split; [reflexivity|]. apply find_count_none; [lia|exact F].
Qed.

Lemma othersSorted_length (r : Rank) (cs : list Card) :
  length cs = countRank r cs + length (othersSorted r cs).
Proof.
  unfold othersSorted, sortCardsByRank. rewrite sortDesc_length.
  apply countRank_others.
Qed.

Lemma othersSorted_In (r : Rank) (cs : list Card) (c : Card) :
  In c (othersSorted r cs) -> In c cs.
Proof.
  unfold othersSorted, sortCardsByRank. rewrite sortDesc_In, filter_In. tauto.
Qed.

Lemma checkFourOfAKind_ok (cs : list Card) :
  5 <= length cs ->
  exists o, checkFourOfAKind cs = Ok o /\
    forall e, o = Some e -> ranking e = four_of_a_kind /\ fiveOf cs (cards e).
Proof.
  intros Hlen.
  destruct (checkFourOfAKind_cases cs) as [(r & -> & Hcount)|[-> _]];
    eexists; (split; [reflexivity|]); [|discriminate].
  intros e [= <-]. split; [reflexivity|]. cbn [cards fourOf].
  pose proof (othersSorted_length r cs) as Hsplit.
  destruct (othersSorted r cs) as [|k others] eqn:E; [simpl in Hsplit; lia|].
  split.
  - rewrite length_app, length_map. fold (countRank r cs). simpl. lia.
  - apply Forall_app. split.
    + apply Forall_map, Forall_forall. intros c Hc.
      apply filter_In in Hc. exists c. tauto.
    + constructor; [|constructor]. exists k. split; [reflexivity|].
      apply (othersSorted_In r). rewrite E. now left.
Qed.

Lemma kind_fiveOf (r : Rank) (cs : list Card) (n : nat) :
  5 <= length cs -> countRank r cs = 5 - n -> n <= 5 ->
  fiveOf cs (map Some (filter (hasRank r) cs ++ firstn n (othersSorted r cs))).
Proof.
  intros Hlen Hcount Hn. pose proof (othersSorted_length r cs) as Hsplit.
  apply fiveOf_map_Some.
  - rewrite length_app, length_firstn. fold (countRank r cs). lia.
  - intros c Hc. apply in_app_or in Hc. destruct Hc as [Hc|Hc].
    + now apply filter_In in Hc.
    + apply firstn_In in Hc. now apply othersSorted_In in Hc.
Qed.

Lemma checkThreeOfAKind_ok (cs : list Card) :
  5 <= length cs ->
  exists o, checkThreeOfAKind cs = Ok o /\
    forall e, o = Some e -> ranking e = three_of_a_kind /\ fiveOf cs (cards e).
Proof.
  intros Hlen.
  destruct (checkThreeOfAKind_cases cs) as [(r & -> & Hcount)|[-> _]];
    eexists; (split; [reflexivity|]); [|discriminate].
  intros e [= <-]. split; [reflexivity|].
  apply (kind_fiveOf r cs 2); [exact Hlen|exact Hcount|lia].
Qed.

Lemma checkPair_ok (cs : list Card) :
  5 <= length cs ->
  exists o, checkPair cs = Ok o /\
    forall e, o = Some e -> ranking e = pair /\ fiveOf cs (cards e).
Proof.
  intros Hlen.
  destruct (checkPair_cases cs) as [(r & -> & Hcount)|[-> _]];
    eexists; (split; [reflexivity|]); [|discriminate].
  intros e [= <-]. split; [reflexivity|].
  apply (kind_fiveOf r cs 3); [exact Hlen|exact Hcount|lia].
Qed.

Lemma checkFlushIn_ok (suits : list Suit) (cs : list Card) :
  exists o, checkFlushIn suits cs = Ok o /\
    forall e, o = Some e -> ranking e = flush /\ fiveOf cs (cards e).
Proof.
  induction suits as [|s suits IH]; cbn [checkFlushIn].
  - eexists. split; [reflexivity|]. discriminate.
  - destruct (Nat.leb_spec 5 (length (filter (hasSuit s) cs))) as [Hlen|]; [|exact IH].
    destruct (sorted_firstn (filter (hasSuit s) cs) 5 Hlen) as [Hfive Hin].
    destruct (firstn 5 (sortCardsByRank (filter (hasSuit s) cs))) as [|c0 rest] eqn:E;
      [discriminate|].
    cbn [hd_error deref bind]. eexists. split; [reflexivity|].
    intros e [= <-]. split; [reflexivity|].
    apply (fiveOf_map_Some cs (c0 :: rest)); [exact Hfive|].
    intros c Hc. apply Hin in Hc. now apply filter_In in Hc.
Qed.

Lemma checkHighCard_ok (cs : list Card) :
  5 <= length cs ->
  exists e, checkHighCard cs = Ok e /\ ranking e = high_card /\ fiveOf cs (cards e).
Proof.
  intros Hlen. unfold checkHighCard.
  destruct (sorted_firstn cs 5 Hlen) as [Hfive Hin].
  destruct (firstn 5 (sortCardsByRank cs)) as [|c0 rest] eqn:E; [discriminate|].
  cbn [hd_error deref bind]. eexists. split; [reflexivity|].
  split; [reflexivity|]. now apply (fiveOf_map_Some cs (c0 :: rest)).
Qed.

Lemma highestWith_unique (P : Rank -> Prop) (t t' : Rank) :
  highestWith P t -> highestWith P t' -> t = t'.
Proof.
  intros [Pt Ht] [Pt' Ht']. apply getRankValue_inj.
  specialize (Ht _ Pt'). specialize (Ht' _ Pt). lia.
Qed.

(** What [checkFullHouse] returns: the full house of the highest rank [t]
    held three times and the highest other rank held twice, or nothing
    when no such two ranks exist. *)
Lemma checkFullHouse_cases (cs : list Card) :
  (exists t p,
      checkFullHouse cs = Ok (Some (fullHouseOf t p cs)) /\
      highestWith (fun r => 3 <= countRank r cs) t /\
      highestWith (fun r => r <> t /\ 2 <= countRank r cs) p) \/
  (checkFullHouse cs = Ok None /\
   forall t p, t <> p -> 3 <= countRank t cs -> 2 <= countRank p cs -> False).
Proof.
  unfold checkFullHouse.
  set (ranks := objKeys rankKeyIndex (getRankCounts cs)).
  set (count := objGetOr0 Rank_eqb (getRankCounts cs)).
  assert (Hcount : forall r, count r = countRank r cs)
    by (intros; apply getRankCounts_get).
  assert (Hkeys : forall r, 0 < countRank r cs -> In r ranks)
    by (intros; now apply rankKeys_In).
  cbv zeta.
  set (threeRank := fold_left (fun best r => if 3 <=? count r
                                             then keepHigher best r else best)
                      ranks None).
  destruct threeRank as [t|] eqn:E3; subst threeRank.
  - apply (keepHigher_fold_some (fun r => 3 <=? count r)) in E3.
    destruct E3 as (Pt & _ & Hmax3).
    assert (Htop : highestWith (fun r => 3 <= countRank r cs) t).
    { split; [rewrite <- Hcount; now apply Nat.leb_le|].
      intros r Hr. apply Hmax3; [apply Hkeys; lia|].
      apply Nat.leb_le. now rewrite Hcount. }
    set (P2 := fun r => differsFrom r (Some t) && (2 <=? count r)).
    assert (HP2 : forall r, P2 r = true <-> r <> t /\ 2 <= countRank r cs).
    { intros r. unfold P2, differsFrom.
      rewrite andb_true_iff, negb_true_iff, Rank_eqb_neq, Nat.leb_le, Hcount.
      reflexivity. }
    set (pairRank := fold_left (fun best r =>
                                  if differsFrom r (Some t) && (2 <=? count r)
                                  then keepHigher best r else best)
                       ranks None).
    destruct pairRank as [p|] eqn:E2; subst pairRank.
    + apply (keepHigher_fold_some P2) in E2. left. exists t, p. split; [reflexivity|]. split; [exact Htop|].
      destruct E2 as (Pp & _ & Hmax2).
      split; [now apply HP2|].
      intros r Hr. apply Hmax2; [apply Hkeys; lia|now apply HP2].
    + right.
      assert (Hnone : forall r, ~ (r <> t /\ 2 <= countRank r cs)).
      { intros r Hr. pose proof (keepHigher_fold_none P2 _ E2 r) as Hf.
        rewrite (proj2 (HP2 r) Hr) in Hf.
        assert (In r ranks) by (apply Hkeys; lia). now apply Hf in H. }
      destruct (find _ ranks) as [r|] eqn:F.
      * exfalso. apply find_some in F. destruct F as [_ F].
        apply andb_prop in F. destruct F as [F1 F2].
        apply (Hnone r). unfold differsFrom in F1.
        rewrite negb_true_iff, Rank_eqb_neq in F1.
        apply Nat.leb_le in F2. rewrite Hcount in F2. split; [exact F1|lia].
      * split; [reflexivity|]. intros t' p' Hne H3 H2.
        destruct (Rank_eq_dec p' t) as [->|Hp].
        -- apply (Hnone t'). split; [exact Hne|lia].
        -- apply (Hnone p'). now split.
  - right. split; [now destruct (fold_left _ ranks None)|].
    intros t p _ H3 _.
    pose proof (keepHigher_fold_none (fun r => 3 <=? count r) _ E3 t
                  (Hkeys t ltac:(lia))) as Hf.
    apply Nat.leb_gt in Hf. rewrite Hcount in Hf. lia.
Qed.

Lemma firstn_filter_length (r : Rank) (cs : list Card) (n : nat) :
  n <= countRank r cs -> length (firstn n (filter (hasRank r) cs)) = n.
Proof. intros H. rewrite length_firstn. fold (countRank r cs). lia. Qed.

Lemma firstn_filter_In (r : Rank) (cs : list Card) (n : nat) (c : Card) :
  In c (firstn n (filter (hasRank r) cs)) -> In c cs /\ rank c = r.
Proof.
  intros H. apply firstn_In, filter_In in H. destruct H as [Hin E].
  apply Rank_eqb_eq in E. auto.
Qed.

Lemma checkFullHouse_ok (cs : list Card) :
  exists o, checkFullHouse cs = Ok o /\
    forall e, o = Some e -> ranking e = full_house /\ fiveOf cs (cards e).
Proof.
  destruct (checkFullHouse_cases cs) as [(t & p & -> & [Ht _] & [[_ Hp] _])|[-> _]];
    eexists; (split; [reflexivity|]); [|discriminate].
  intros e [= <-]. split; [reflexivity|]. apply fiveOf_map_Some.
  - rewrite length_app, !firstn_filter_length by lia. reflexivity.
  - intros c Hc. apply in_app_or in Hc.
    destruct Hc as [Hc|Hc]; now apply firstn_filter_In in Hc.
Qed.

Lemma NoDup_map_filter (A B : Type) (f : A -> B) (g : A -> bool) (l : list A) :
  NoDup (map f l) -> NoDup (map f (filter g l)).
Proof.
  induction l as [|x l IH]; simpl; intros Hnd; [constructor|].
  inversion Hnd as [|? ? Hnotin Hnd']; subst.
  destruct (g x); simpl; [|now apply IH].
  constructor; [|now apply IH].
  intros Hin. apply Hnotin. apply in_map_iff in Hin.
  destruct Hin as (y & E & Hy). apply filter_In in Hy.
  apply in_map_iff. exists y. tauto.
Qed.

Lemma pairRanks_In (cs : list Card) (r : Rank) :
  In r (map fst (filter (fun e => 2 <=? snd e) (rankEntries cs)))
  <-> 2 <= countRank r cs.
Proof.
  rewrite in_map_iff. split.
  - intros ([r' n] & <- & Hin). apply filter_In in Hin.
    destruct Hin as [Hin Hn]. apply rankEntries_In in Hin.
    cbn [fst snd] in *. apply Nat.leb_le in Hn. lia.
  - intros H. exists (r, countRank r cs). split; [reflexivity|].
    apply filter_In. split; [apply rankEntries_In; split; [reflexivity|lia]|].
    cbn [snd]. now apply Nat.leb_le.
Qed.

(** What [checkTwoPair] returns: the two pair of the two highest ranks
    held at least twice, or nothing when fewer than two ranks are. *)
Lemma checkTwoPair_cases (cs : list Card) :
  (exists p0 p1,
      checkTwoPair cs = Ok (Some (twoPairOf p0 p1 cs)) /\
      highestWith (fun r => 2 <= countRank r cs) p0 /\
      highestWith (fun r => r <> p0 /\ 2 <= countRank r cs) p1) \/
  (checkTwoPair cs = Ok None /\
   forall p0 p1, p0 <> p1 -> 2 <= countRank p0 cs -> 2 <= countRank p1 cs -> False).
Proof.
  unfold checkTwoPair.
  set (pairs := map fst (filter (fun e => 2 <=? snd e) (rankEntries cs))).
  assert (Hin : forall r, In r pairs <-> 2 <= countRank r cs)
    by (intros; apply pairRanks_In).
  assert (Hnd : NoDup pairs) by (apply NoDup_map_filter, rankEntries_NoDup).
  destruct (Nat.leb_spec 2 (length pairs)) as [Hlen|Hlen].
  - left. cbv zeta.
    pose proof (sortDesc_perm _ getRankValue pairs) as Hperm.
    pose proof (sortDesc_sorted _ getRankValue pairs) as Hsorted.
    destruct (sortDesc getRankValue pairs) as [|p0 [|p1 rest]] eqn:E;
      try (apply Permutation_length in Hperm; simpl in Hperm; lia).
    exists p0, p1. cbn [firstn nth_error templateRank flat_map].
    split; [unfold twoPairOf; now rewrite app_nil_r|].
    assert (Hnd' : NoDup (p0 :: p1 :: rest))
      by (eapply Permutation_NoDup; [symmetry; exact Hperm|exact Hnd]).
    assert (Hin' : forall r, 2 <= countRank r cs -> In r (p0 :: p1 :: rest))
      by (intros r Hr; eapply Permutation_in; [symmetry; exact Hperm|now apply Hin]).
    assert (Hback : forall r, In r (p0 :: p1 :: rest) -> 2 <= countRank r cs)
      by (intros r Hr; apply Hin; eapply Permutation_in; [exact Hperm|exact Hr]).
    inversion Hsorted as [|? ? Hs1 Hall0]; subst.
    inversion Hs1 as [|? ? _ Hall1]; subst.
    rewrite Forall_forall in Hall0, Hall1.
    inversion Hnd' as [|? ? Hnot0 _]; subst.
    split; split.
    + apply Hback. now left.
    + intros r Hr. destruct (Hin' r Hr) as [<-|Hr']; [lia|now apply Hall0].
    + split; [|apply Hback; right; now left].
      intros ->. apply Hnot0. now left.
    + intros r [Hne Hr]. destruct (Hin' r Hr) as [<-|[<-|Hr']];
        [congruence|lia|now apply Hall1].
  - right. split; [reflexivity|]. intros p0 p1 Hne H0 H1.
    assert (Hincl : incl [p0; p1] pairs).
    { intros r [<-|[<-|[]]]; now apply Hin. }
    assert (Hnd2 : NoDup [p0; p1]).
    { constructor; [intros [->|[]]; congruence|].
      constructor; [intros []|constructor]. }
    pose proof (NoDup_incl_length Hnd2 Hincl) as Hl. simpl in Hl. lia.
Qed.

Lemma two_ranks_split (p0 p1 : Rank) (cs : list Card) :
  p0 <> p1 ->
  length cs
  = countRank p0 cs + countRank p1 cs
    + length (filter (fun c => negb (includes [p0; p1] (rank c))) cs).
Proof.
  intros Hne. unfold countRank, hasRank, includes.
  induction cs as [|c cs IH]; simpl; [reflexivity|].
  rewrite (Rank_eqb_sym p0 (rank c)), (Rank_eqb_sym p1 (rank c)).
  destruct (Rank_eqb (rank c) p0) eqn:E0; destruct (Rank_eqb (rank c) p1) eqn:E1;
    simpl in *; try lia.
  apply Rank_eqb_eq in E0, E1. congruence.
Qed.

Lemma checkTwoPair_ok (cs : list Card) :
  5 <= length cs -> checkFullHouse cs = Ok None ->
  exists o, checkTwoPair cs = Ok o /\
    forall e, o = Some e -> ranking e = two_pair /\ fiveOf cs (cards e).
Proof.
  intros Hlen Hfull.
  destruct (checkTwoPair_cases cs)
    as [(p0 & p1 & -> & [H0 _] & [[Hne H1] _])|[-> _]];
    eexists; (split; [reflexivity|]); [|discriminate].
  intros e [= <-]. split; [reflexivity|]. cbn [cards twoPairOf].
  destruct (checkFullHouse_cases cs) as [(t & p & E & _)|[_ Hnone]];
    [rewrite E in Hfull; discriminate|].
  assert (Hc0 : countRank p0 cs = 2).
  { destruct (Nat.le_gt_cases 3 (countRank p0 cs)) as [H|H]; [|lia].
    exfalso. apply (Hnone p0 p1); auto. }
  assert (Hc1 : countRank p1 cs = 2).
  { destruct (Nat.le_gt_cases 3 (countRank p1 cs)) as [H|H]; [|lia].
    exfalso. apply (Hnone p1 p0); auto. }
  pose proof (two_ranks_split p1 p0 cs Hne) as Hsplit.
  pose proof (two_ranks_split p0 p1 cs (not_eq_sym Hne)) as Hsplit'.
  destruct (sorted_head (filter (fun c => negb (includes [p0; p1] (rank c))) cs))
    as (k & -> & Hk).
  { intros E. rewrite E in Hsplit'. simpl in Hsplit'. lia. }
  split.
  - rewrite length_app, length_map, length_app, !firstn_filter_length by lia.
    reflexivity.
  - apply Forall_app. split.
    + apply Forall_map, Forall_forall. intros c Hc. exists c. split; [reflexivity|].
      apply in_app_or in Hc. destruct Hc as [Hc|Hc]; now apply firstn_filter_In in Hc.
    + constructor; [|constructor]. exists k. split; [reflexivity|].
      now apply filter_In in Hk.
Qed.

Lemma evaluateHand_ok (cs : list Card) :
  5 <= length cs ->
  exists e, evaluateHand cs = Ok e /\ fiveOf cs (cards e).
Proof.
  intros Hlen. unfold evaluateHand.
  destruct (Nat.ltb_spec (length cs) 5) as [|_]; [lia|].
  unfold findBestHand, orElse.
  destruct (checkRoyalFlush_ok cs) as (o & -> & Ho). cbn [bind].
  destruct o as [e|]; [exists e; split; [reflexivity|now apply Ho]|]. clear Ho.
  unfold checkStraightFlush.
  destruct (checkStraightFlushIn_ok SUITS cs) as (o & -> & Ho). cbn [bind].
  destruct o as [e|]; [exists e; split; [reflexivity|now apply Ho]|]. clear Ho.
  destruct (checkFourOfAKind_ok cs Hlen) as (o & -> & Ho). cbn [bind].
  destruct o as [e|]; [exists e; split; [reflexivity|now apply Ho]|]. clear Ho.
  destruct (checkFullHouse_ok cs) as (o & Hfull & Ho). rewrite Hfull. cbn [bind].
  destruct o as [e|]; [exists e; split; [reflexivity|now apply Ho]|]. clear Ho.
  unfold checkFlush.
  destruct (checkFlushIn_ok SUITS cs) as (o & -> & Ho). cbn [bind].
  destruct o as [e|]; [exists e; split; [reflexivity|now apply Ho]|]. clear Ho.
  destruct (checkStraight_ok cs) as (o & -> & Ho). cbn [bind].
  destruct o as [e|]; [exists e; split; [reflexivity|now apply Ho]|]. clear Ho.
  destruct (checkThreeOfAKind_ok cs Hlen) as (o & -> & Ho). cbn [bind].
  destruct o as [e|]; [exists e; split; [reflexivity|now apply Ho]|]. clear Ho.
  destruct (checkTwoPair_ok cs Hlen Hfull) as (o & -> & Ho). cbn [bind].
  destruct o as [e|]; [exists e; split; [reflexivity|now apply Ho]|]. clear Ho.
  destruct (checkPair_ok cs Hlen) as (o & -> & Ho). cbn [bind].
  destruct o as [e|]; [exists e; split; [reflexivity|now apply Ho]|]. clear Ho.
  destruct (checkHighCard_ok cs Hlen) as (e & -> & _ & He).
  exists e. now split.
Qed.

Lemma evaluateHand_length (cs : list Card) (e : HandEvaluation) :
  evaluateHand cs = Ok e -> 5 <= length cs.
Proof.
  unfold evaluateHand. destruct (Nat.ltb_spec (length cs) 5); [discriminate|auto].
Qed.

Lemma fiveOf_index (cs : list Card) (slots : list (option Card)) (i : nat) :
  fiveOf cs slots -> i < 5 -> exists c, jsIndex slots i = Some c /\ In c cs.
Proof.
  intros [Hlen Hall] Hi. unfold jsIndex.
  destruct (nth_error slots i) as [slot|] eqn:E.
  - rewrite Forall_forall in Hall.
    destruct (Hall slot (nth_error_In _ _ E)) as (c & -> & Hc). eauto.
  - apply nth_error_None in E. lia.
Qed.

Lemma compareCardsFrom_ok (cs1 cs2 : list Card) (slots1 slots2 : list (option Card)) :
  fiveOf cs1 slots1 -> fiveOf cs2 slots2 ->
  forall n i, i + n <= 5 ->
    exists z, compareCardsFrom n i slots1 slots2 = Ok z /\
              (z = 1 \/ z = 0 \/ z = -1)%Z.
Proof.
  intros H1 H2. induction n as [|n IH]; intros i Hi; cbn [compareCardsFrom].
  - exists 0%Z. auto.
  - destruct (fiveOf_index _ _ i H1 ltac:(lia)) as (c1 & -> & _).
    destruct (fiveOf_index _ _ i H2 ltac:(lia)) as (c2 & -> & _).
    cbn [deref bind].
    destruct (getRankValue (rank c1) >? getRankValue (rank c2))%Z; [eauto|].
    destruct (getRankValue (rank c1) <? getRankValue (rank c2))%Z; [eauto 6|].
    apply IH. lia.
Qed.

Lemma compareHands_ok (cs1 cs2 : list Card) (hand1 hand2 : HandEvaluation) :
  fiveOf cs1 (cards hand1) -> fiveOf cs2 (cards hand2) ->
  exists z, compareHands hand1 hand2 = Ok z /\ (z = 1 \/ z = 0 \/ z = -1)%Z.
Proof.
  intros H1 H2. unfold compareHands.
  destruct (_ >? _)%Z; [eauto|]. destruct (_ <? _)%Z; [eauto 6|].
  now apply (compareCardsFrom_ok cs1 cs2).
Qed.

(** C9.  On at least five cards [evaluateHand] returns an evaluation whose
    [cards] are exactly five, each of them a card of the input; hence
    [compareHands], which reads positions 0 to 4 of both selections,
    returns a result (1, 0 or -1) on any two results of [evaluateHand]. *)
Theorem evaluateHand_five_cards (cs : list Card) :
  5 <= length cs ->
  exists e,
    evaluateHand cs = Ok e /\
    length (cards e) = 5 /\
    Forall (fun slot => exists c, slot = Some c /\ In c cs) (cards e) /\
    forall cs' e',
      evaluateHand cs' = Ok e' ->
      exists z z',
        compareHands e e' = Ok z /\ compareHands e' e = Ok z' /\
        (z = 1 \/ z = 0 \/ z = -1)%Z /\ (z' = 1 \/ z' = 0 \/ z' = -1)%Z.
Proof.
  intros Hlen. destruct (evaluateHand_ok cs Hlen) as (e & He & Hfive).
  exists e. split; [exact He|]. destruct Hfive as [H5 Hall].
  split; [exact H5|]. split; [exact Hall|].
  intros cs' e' He'.
  destruct (evaluateHand_ok cs' (evaluateHand_length _ _ He')) as (e'' & E & Hfive').
  rewrite He' in E. injection E as <-.
  destruct (compareHands_ok cs cs' e e' (conj H5 Hall) Hfive') as (z & Hz & Hzv).
  destruct (compareHands_ok cs' cs e' e Hfive' (conj H5 Hall)) as (z' & Hz' & Hzv').
  exists z, z'. auto.
Qed.

(** The theorem at the first seven cards of the deck. *)
Lemma evaluateHand_five_cards_witness :
  exists e,
    evaluateHand (firstn 7 createDeck) = Ok e /\ length (cards e) = 5.
Proof.
  destruct (evaluateHand_five_cards (firstn 7 createDeck)) as (e & He & H5 & _).
  - vm_compute. lia.
  - exists e. now split.
Defined.

(** ** Outs *)

Lemma existsb_sameCard (c : Card) (cs : list Card) :
  existsb (sameCard c) cs = true <-> In c cs.
Proof.
  rewrite existsb_exists. split.
  - intros (x & Hx & E). apply sameCard_eq in E. now subst.
  - intros H. exists c. split; [exact H|now apply sameCard_eq].
Qed.

Lemma existsb_sameCard_known (card : Card) (known : list Card) :
  existsb (fun k => sameCard k card) known = true <-> In card known.
Proof.
  rewrite existsb_exists. split.
  - intros (x & Hx & E). apply sameCard_eq in E. now subst.
  - intros H. exists card. split; [exact H|now apply sameCard_eq].
Qed.

Lemma allDistinct_NoDup (cs : list Card) : allDistinct cs = true -> NoDup cs.
Proof.
  induction cs as [|c cs IH]; simpl; intros H; [constructor|].
  apply andb_prop in H. destruct H as [Hc Hcs].
  constructor; [|now apply IH].
  rewrite <- existsb_sameCard. now destruct (existsb (sameCard c) cs).
Qed.

Lemma distinctCards_In (cs : list Card) (c : Card) :
  In c (distinctCards cs) <-> In c cs.
Proof.
  induction cs as [|x cs IH]; simpl; [reflexivity|].
  destruct (existsb (sameCard x) cs) eqn:E; simpl; rewrite IH.
  - apply existsb_sameCard in E. split; [now right|].
    intros [<-|H]; assumption.
  - reflexivity.
Qed.

Lemma distinctCards_NoDup (cs : list Card) : NoDup (distinctCards cs).
Proof.
  induction cs as [|x cs IH]; simpl; [constructor|].
  destruct (existsb (sameCard x) cs) eqn:E; [exact IH|].
  constructor; [|exact IH].
  rewrite distinctCards_In, <- existsb_sameCard, E. discriminate.
Qed.

Lemma createDeck_NoDup : NoDup createDeck.
Proof. apply allDistinct_NoDup. vm_compute. reflexivity. Qed.

Lemma createDeck_length : length createDeck = 52.
Proof. reflexivity. Qed.

Lemma createDeck_all (c : Card) : In c createDeck.
Proof.
  apply existsb_sameCard. destruct c as [s r]. destruct s, r; reflexivity.
Qed.

(** The cards of the deck that are not known are 52 less the distinct
    known cards. *)
Lemma availableCards_length (knownCards : list Card) :
  length (filter (fun card => negb (existsb (fun known => sameCard known card) knownCards))
            createDeck)
  + length (distinctCards knownCards) = 52.
Proof.
  rewrite <- createDeck_length.
  rewrite (filter_split_length _
             (fun card => existsb (fun known => sameCard known card) knownCards)
             createDeck).
  rewrite Nat.add_comm. f_equal.
  apply Permutation_length, NoDup_Permutation.
  - apply distinctCards_NoDup.
  - apply NoDup_filter, createDeck_NoDup.
  - intros c. rewrite distinctCards_In, filter_In, existsb_sameCard_known.
    pose proof (createDeck_all c). tauto.
Qed.

Lemma createDummyCards_length (count : nat) : length (createDummyCards count) = count.
Proof. unfold createDummyCards. now rewrite length_map, length_seq. Qed.

Lemma countOutsLoop_ok (heroCards communityCards : list Card)
  (currentHand : HandEvaluation) (known : list Card) :
  fiveOf known (cards currentHand) ->
  forall availableCards outs,
    exists n,
      countOutsLoop heroCards communityCards currentHand availableCards outs = Ok n /\
      outs <= n <= outs + length availableCards.
Proof.
  intros Hcur. induction availableCards as [|card rest IH]; intros outs;
    cbn [countOutsLoop].
  - exists outs. split; [reflexivity|simpl; lia].
  - set (newCards := heroCards ++ (communityCards ++ [card])
                     ++ createDummyCards
                          (Nat.max 0 (5 - length (communityCards ++ [card])))).
    destruct (evaluateHand_ok newCards) as (newHand & -> & Hnew).
    { unfold newCards.
      rewrite !length_app, createDummyCards_length, ?length_app.
      cbn [length]. lia. }
    cbn [bind].
    destruct (compareHands_ok _ _ newHand currentHand Hnew Hcur) as (z & -> & _).
    cbn [bind].
    destruct (IH (if (z >? 0)%Z then S outs else outs)) as (n & -> & Hn).
    exists n. split; [reflexivity|]. simpl. destruct (z >? 0)%Z; lia.
Qed.

(** C10.  [countOuts] returns 0 when five or more community cards are
    given, and otherwise a number that is at most 52 less the number of
    distinct known cards (hero's and community). *)
Theorem countOuts_bound (heroCards communityCards : list Card) :
  exists n,
    countOuts heroCards communityCards = Ok n /\
    (5 <= length communityCards -> n = 0) /\
    n + length (distinctCards (heroCards ++ communityCards)) <= 52.
Proof.
  unfold countOuts.
  destruct (Nat.leb_spec 5 (length communityCards)) as [Hfive|Hfew].
  - exists 0. split; [reflexivity|]. split; [reflexivity|].
    pose proof (availableCards_length (heroCards ++ communityCards)). lia.
  - set (knownCards := heroCards ++ communityCards).
    set (padded := if 5 <=? length knownCards then knownCards
                   else knownCards ++ createDummyCards (5 - length knownCards)).
    destruct (evaluateHand_ok padded) as (currentHand & -> & Hcur).
    { unfold padded. destruct (Nat.leb_spec 5 (length knownCards)); [assumption|].
      rewrite length_app, createDummyCards_length. lia. }
    cbn [bind].
    destruct (countOutsLoop_ok heroCards communityCards currentHand padded Hcur
                (filter (fun card =>
                           negb (existsb (fun known => sameCard known card) knownCards))
                   createDeck) 0) as (n & -> & Hn).
    exists n. split; [reflexivity|]. split; [lia|].
    pose proof (availableCards_length knownCards). lia.
Qed.

(** ** The wheel *)

Lemma countRank_pos (r : Rank) (cs : list Card) :
  0 < countRank r cs <-> In r (map rank cs).
Proof.
  unfold countRank. induction cs as [|c cs IH]; simpl; [split; [lia|intros []]|].
  unfold hasRank at 1. destruct (Rank_eqb (rank c) r) eqn:E; simpl.
  - apply Rank_eqb_eq in E. split; [now left|lia].
  - apply Rank_eqb_neq in E. rewrite IH. intuition.
Qed.

Lemma length_by_rank (cs : list Card) :
  length cs
  = countRank R2 cs + countRank R3 cs + countRank R4 cs + countRank R5 cs
    + countRank R6 cs + countRank R7 cs + countRank R8 cs + countRank R9 cs
    + countRank RT cs + countRank RJ cs + countRank RQ cs + countRank RK cs
    + countRank RA cs.
Proof.
  unfold countRank, hasRank. induction cs as [|c cs IH]; [reflexivity|].
  cbn [filter]. destruct (rank c); cbn [Rank_eqb getRankValue Z.eqb Pos.eqb];
    cbn [length]; lia.
Qed.

Lemma no_suit_no_straightFlush (suits : list Suit) (cs : list Card) :
  (forall s, countSuit s cs < 5) -> checkStraightFlushIn suits cs = Ok None.
Proof.
  intros H. induction suits as [|s suits IH]; cbn [checkStraightFlushIn];
    [reflexivity|].
  specialize (H s). unfold countSuit in H.
  destruct (Nat.leb_spec 5 (length (filter (hasSuit s) cs))); [lia|exact IH].
Qed.

Lemma no_suit_no_flush (suits : list Suit) (cs : list Card) :
  (forall s, countSuit s cs < 5) -> checkFlushIn suits cs = Ok None.
Proof.
  intros H. induction suits as [|s suits IH]; cbn [checkFlushIn]; [reflexivity|].
  specialize (H s). unfold countSuit in H.
  destruct (Nat.leb_spec 5 (length (filter (hasSuit s) cs))); [lia|exact IH].
Qed.

Lemma checkStraight_wheel (cs : list Card) :
  (forall r, In r [RA; R2; R3; R4; R5] -> In r (map rank cs)) ->
  exists c5 c4 c3 c2 cA,
    checkStraight cs
    = Ok (Some (mkEval straight [Some c5; Some c4; Some c3; Some c2; Some cA]
                  "Straight, 5 high (Wheel)")) /\
    rank c5 = R5 /\ rank c4 = R4 /\ rank c3 = R3 /\ rank c2 = R2 /\ rank cA = RA /\
    In c5 cs /\ In c4 cs /\ In c3 cs /\ In c2 cs /\ In cA cs.
Proof.
  intros Hwheel. unfold checkStraight.
  set (sorted := sortCardsByRank cs).
  assert (Hs : forall r, In r [RA; R2; R3; R4; R5] -> In r (map rank sorted)).
  { intros r Hr. apply Hwheel in Hr. apply in_map_iff in Hr.
    destruct Hr as (c & <- & Hc). apply in_map.
    unfold sorted, sortCardsByRank. now rewrite sortDesc_In. }
  assert (Hinc : forall r, In r [RA; R2; R3; R4; R5] ->
                           includes (uniqueRanksOf (map rank sorted)) r = true).
  { intros r Hr. apply includes_In, uniqueRanksOf_In. auto. }
  rewrite !Hinc by (simpl; tauto). cbn [andb map].
  assert (Hf : forall r, In r [RA; R2; R3; R4; R5] ->
                         exists c, find (hasRank r) sorted = Some c /\
                                   rank c = r /\ In c cs).
  { intros r Hr. destruct (find_hasRank r sorted (Hs r Hr)) as (c & F & E & Hc).
    exists c. repeat split; auto.
    unfold sorted, sortCardsByRank in Hc. now rewrite sortDesc_In in Hc. }
  destruct (Hf R5) as (c5 & -> & ? & ?); [simpl; tauto|].
  destruct (Hf R4) as (c4 & -> & ? & ?); [simpl; tauto|].
  destruct (Hf R3) as (c3 & -> & ? & ?); [simpl; tauto|].
  destruct (Hf R2) as (c2 & -> & ? & ?); [simpl; tauto|].
  destruct (Hf RA) as (cA & -> & ? & ?); [simpl; tauto|].
  exists c5, c4, c3, c2, cA. repeat split; auto.
Qed.

(** With the five wheel ranks among at most seven cards, no rank is held
    four times and no full house exists. *)
Lemma wheel_no_four_no_full (cs : list Card) :
  length cs <= 7 ->
  (forall r, In r [RA; R2; R3; R4; R5] -> In r (map rank cs)) ->
  checkFourOfAKind cs = Ok None /\ checkFullHouse cs = Ok None.
Proof.
  intros Hlen Hwheel.
  pose proof (length_by_rank cs) as Htotal.
  assert (HA : 0 < countRank RA cs) by (apply countRank_pos, Hwheel; simpl; tauto).
  assert (H2 : 0 < countRank R2 cs) by (apply countRank_pos, Hwheel; simpl; tauto).
  assert (H3 : 0 < countRank R3 cs) by (apply countRank_pos, Hwheel; simpl; tauto).
  assert (H4 : 0 < countRank R4 cs) by (apply countRank_pos, Hwheel; simpl; tauto).
  assert (H5 : 0 < countRank R5 cs) by (apply countRank_pos, Hwheel; simpl; tauto).
  split.
  - destruct (checkFourOfAKind_cases cs) as [(r & _ & Hr)|[E _]]; [|exact E].
    exfalso. destruct r; lia.
  - destruct (checkFullHouse_cases cs) as [(t & p & _ & [Ht _] & [[Hne Hp] _])|[E _]];
      [|exact E].
    exfalso. destruct t, p; try congruence; lia.
Qed.

Lemma evaluateHand_wheel (cs : list Card) :
  length cs <= 7 -> holdsWheel cs -> (forall s, countSuit s cs < 5) ->
  exists c5 c4 c3 c2 cA,
    evaluateHand cs = Ok (wheelOf c5 c4 c3 c2 cA) /\
    rank c5 = R5 /\ rank c4 = R4 /\ rank c3 = R3 /\ rank c2 = R2 /\ rank cA = RA /\
    In c5 cs /\ In c4 cs /\ In c3 cs /\ In c2 cs /\ In cA cs.
Proof.
  intros Hlen Hwheel Hsuits.
  destruct (checkStraight_wheel cs Hwheel) as (c5 & c4 & c3 & c2 & cA & E & H).
  exists c5, c4, c3, c2, cA. split; [|exact H].
  destruct (wheel_no_four_no_full cs Hlen Hwheel) as [Hfour Hfull].
  assert (H5 : 5 <= length cs).
  { pose proof (length_by_rank cs) as Htotal.
    pose proof (proj2 (countRank_pos RA cs) (Hwheel RA ltac:(simpl; tauto))).
    pose proof (proj2 (countRank_pos R2 cs) (Hwheel R2 ltac:(simpl; tauto))).
    pose proof (proj2 (countRank_pos R3 cs) (Hwheel R3 ltac:(simpl; tauto))).
    pose proof (proj2 (countRank_pos R4 cs) (Hwheel R4 ltac:(simpl; tauto))).
    pose proof (proj2 (countRank_pos R5 cs) (Hwheel R5 ltac:(simpl; tauto))).
    lia. }
  unfold evaluateHand. destruct (Nat.ltb_spec (length cs) 5); [lia|].
  unfold findBestHand, orElse, checkRoyalFlush, checkStraightFlush, checkFlush.
  rewrite (no_suit_no_straightFlush SUITS cs Hsuits), Hfour, Hfull,
    (no_suit_no_flush SUITS cs Hsuits), E.
  reflexivity.
Qed.

(** The wheel is tested first.  Cards that hold A, 2, 3, 4 and 5, at most
    seven of them and no five of one suit, evaluate to a straight whose
    selected cards are the 5, 4, 3, 2 and the ace, in this order, also
    when a six is among them.  [compareHands] puts this evaluation below
    every evaluation of a straight whose first card is a six or higher,
    and two such evaluations tie. *)
Theorem wheel_is_five_high (cs : list Card) :
  length cs <= 7 -> holdsWheel cs -> (forall s, countSuit s cs < 5) ->
  exists c5 c4 c3 c2 cA,
    evaluateHand cs = Ok (wheelOf c5 c4 c3 c2 cA) /\
    rank c5 = R5 /\ rank c4 = R4 /\ rank c3 = R3 /\ rank c2 = R2 /\ rank cA = RA /\
    In c5 cs /\ In c4 cs /\ In c3 cs /\ In c2 cs /\ In cA cs /\
    (forall cs' e' c0,
        evaluateHand cs' = Ok e' -> ranking e' = straight ->
        jsIndex (cards e') 0 = Some c0 -> (6 <= getRankValue (rank c0))%Z ->
        compareHands (wheelOf c5 c4 c3 c2 cA) e' = Ok (-1)%Z /\
        compareHands e' (wheelOf c5 c4 c3 c2 cA) = Ok 1%Z) /\
    (forall cs' e',
        length cs' <= 7 -> holdsWheel cs' -> (forall s, countSuit s cs' < 5) ->
        evaluateHand cs' = Ok e' ->
        compareHands (wheelOf c5 c4 c3 c2 cA) e' = Ok 0%Z /\
        compareHands e' (wheelOf c5 c4 c3 c2 cA) = Ok 0%Z).
Proof.
  intros Hlen Hwheel Hsuits.
  destruct (evaluateHand_wheel cs Hlen Hwheel Hsuits)
    as (c5 & c4 & c3 & c2 & cA & E & R5' & R4' & R3' & R2' & RA' & Hin).
  exists c5, c4, c3, c2, cA.
  split; [exact E|]. do 5 (split; [assumption|]).
  destruct Hin as (? & ? & ? & ? & ?). do 5 (split; [assumption|]).
  split.
  - intros cs' e' c0 _ Hrank Hfirst Hhigh.
    unfold compareHands. rewrite Hrank. cbn [wheelOf ranking rankingValues cards].
    cbn [Z.gtb Z.ltb Z.compare Pos.compare Pos.compare_cont compareCardsFrom].
    rewrite Hfirst. cbn [jsIndex nth_error deref bind]. rewrite R5'.
    cbn [getRankValue].
    destruct (Z.gtb_spec 5 (getRankValue (rank c0))); [lia|].
    destruct (Z.ltb_spec 5 (getRankValue (rank c0))); [|lia].
    destruct (Z.gtb_spec (getRankValue (rank c0)) 5); [|lia].
    split; reflexivity.
  - intros cs' e' Hlen' Hwheel' Hsuits' He'.
    destruct (evaluateHand_wheel cs' Hlen' Hwheel' Hsuits')
      as (d5 & d4 & d3 & d2 & dA & E' & S5 & S4 & S3 & S2 & SA & _).
    rewrite He' in E'. injection E' as ->.
    unfold compareHands, wheelOf.
    cbn [ranking rankingValues cards Z.gtb Z.ltb Z.compare Pos.compare
         Pos.compare_cont compareCardsFrom jsIndex nth_error deref bind].
    rewrite R5', R4', R3', R2', RA', S5, S4, S3, S2, SA.
    split; reflexivity.
Qed.

(** The theorem at [mixedWheel]. *)
Lemma wheel_is_five_high_witness :
  exists c5 c4 c3 c2 cA,
    evaluateHand mixedWheel = Ok (wheelOf c5 c4 c3 c2 cA) /\ rank c5 = R5.
Proof.
  destruct (wheel_is_five_high mixedWheel)
    as (c5 & c4 & c3 & c2 & cA & E & R5' & _).
  - vm_compute. lia.
  - intros r Hr. vm_compute in Hr. vm_compute. intuition.
  - intros s. destruct s; vm_compute; lia.
  - exists c5, c4, c3, c2, cA. now split.
Defined.

(** ** Reordering the input *)

Lemma sameHand_refl (e : HandEvaluation) : sameHand e e.
Proof. repeat split. Qed.

Lemma map_rank_filter (r : Rank) (cs : list Card) :
  map rank (filter (hasRank r) cs) = repeat r (countRank r cs).
Proof.
  unfold countRank. induction cs as [|c cs IH]; cbn [filter]; [reflexivity|].
  destruct (hasRank r c) eqn:E; [|exact IH].
  apply Rank_eqb_eq in E. cbn [map length repeat]. now rewrite IH, E.
Qed.

Lemma slotRanks_map_Some (l : list Card) :
  slotRanks (map Some l) = map Some (map rank l).
Proof. unfold slotRanks. now rewrite !map_map. Qed.

Lemma slotRanks_app (a b : list (option Card)) :
  slotRanks (a ++ b) = slotRanks a ++ slotRanks b.
Proof. apply map_app. Qed.

Lemma hd_error_map_rank (l : list Card) :
  option_map rank (hd_error l) = hd_error (map rank l).
Proof. now destruct l. Qed.

Lemma othersSorted_ranks_perm (r : Rank) (cs cs' : list Card) :
  Permutation cs cs' ->
  map rank (othersSorted r cs) = map rank (othersSorted r cs').
Proof.
  intros Hp. unfold othersSorted.
  now apply sortCardsByRank_ranks_perm, filter_perm.
Qed.

Lemma kind_slots_perm (r : Rank) (n : nat) (cs cs' : list Card) :
  Permutation cs cs' ->
  slotRanks (map Some (filter (hasRank r) cs ++ firstn n (othersSorted r cs)))
  = slotRanks (map Some (filter (hasRank r) cs' ++ firstn n (othersSorted r cs'))).
Proof.
  intros Hp. rewrite !slotRanks_map_Some, !map_app, !map_rank_filter, <- !firstn_map.
  now rewrite (countRank_perm r cs cs' Hp), (othersSorted_ranks_perm r cs cs' Hp).
Qed.

Lemma fourOf_perm (r : Rank) (cs cs' : list Card) :
  Permutation cs cs' -> sameHand (fourOf r cs) (fourOf r cs').
Proof.
  intros Hp. repeat split. cbn [fourOf cards].
  rewrite !slotRanks_app, !slotRanks_map_Some, !map_rank_filter.
  unfold slotRanks at 1 2. cbn [map]. rewrite !hd_error_map_rank.
  now rewrite (countRank_perm r cs cs' Hp), (othersSorted_ranks_perm r cs cs' Hp).
Qed.

Lemma threeOf_perm (r : Rank) (cs cs' : list Card) :
  Permutation cs cs' -> sameHand (threeOf r cs) (threeOf r cs').
Proof. intros Hp. repeat split. now apply kind_slots_perm. Qed.

Lemma pairOf_perm (r : Rank) (cs cs' : list Card) :
  Permutation cs cs' -> sameHand (pairOf r cs) (pairOf r cs').
Proof. intros Hp. repeat split. now apply kind_slots_perm. Qed.

Lemma fullHouseOf_perm (t p : Rank) (cs cs' : list Card) :
  Permutation cs cs' -> sameHand (fullHouseOf t p cs) (fullHouseOf t p cs').
Proof.
  intros Hp. repeat split. cbn [fullHouseOf cards].
  rewrite !slotRanks_map_Some, !map_app, <- !firstn_map, !map_rank_filter.
  now rewrite (countRank_perm t cs cs' Hp), (countRank_perm p cs cs' Hp).
Qed.

Lemma twoPairOf_perm (p0 p1 : Rank) (cs cs' : list Card) :
  Permutation cs cs' -> sameHand (twoPairOf p0 p1 cs) (twoPairOf p0 p1 cs').
Proof.
  intros Hp. repeat split. cbn [twoPairOf cards].
  rewrite !slotRanks_app, !slotRanks_map_Some, !map_app, <- !firstn_map,
    !map_rank_filter.
  unfold slotRanks at 1 2. cbn [map]. rewrite !hd_error_map_rank.
  rewrite (countRank_perm p0 cs cs' Hp), (countRank_perm p1 cs cs' Hp).
  do 2 f_equal. f_equal.
  now apply sortCardsByRank_ranks_perm, filter_perm.
Qed.

Lemma find_slot_rank (r : Rank) (l : list Card) :
  option_map rank (find (hasRank r) l)
  = if includes (map rank l) r then Some r else None.
Proof.
  unfold includes. induction l as [|x l IH]; cbn [find map existsb]; [reflexivity|].
  unfold hasRank at 1. destruct (Rank_eqb (rank x) r) eqn:E; cbn [orb option_map].
  - apply Rank_eqb_eq in E. now rewrite E.
  - exact IH.
Qed.

Lemma straightCards_slots (ranks : list Rank) (sorted : list Card) :
  slotRanks (map (fun r => find (hasRank r) sorted) ranks)
  = map (fun r => if includes (map rank sorted) r then Some r else None) ranks.
Proof.
  unfold slotRanks. rewrite map_map. apply map_ext. intros r. apply find_slot_rank.
Qed.

Lemma jsIndex_slot (a b : list (option Card)) (i : nat) :
  slotRanks a = slotRanks b ->
  option_map rank (jsIndex a i) = option_map rank (jsIndex b i).
Proof.
  unfold slotRanks, jsIndex. intros H.
  pose proof (f_equal (fun l => nth_error l i) H) as Hi. cbn beta in Hi.
  rewrite !nth_error_map in Hi.
  destruct (nth_error a i), (nth_error b i); cbn in *; congruence.
Qed.

(** The first card of two selections with the same ranks: read with the
    same rank, or [undefined] in both. *)
Lemma deref_first_same (a b : list (option Card)) (A : Type)
  (k k' : Card -> result A) (R : result A -> result A -> Prop) :
  slotRanks a = slotRanks b ->
  (forall c c', rank c = rank c' -> R (k c) (k' c')) ->
  R (Throw TypeError) (Throw TypeError) ->
  R (let* c0 := deref (jsIndex a 0) in k c0)
    (let* c0 := deref (jsIndex b 0) in k' c0).
Proof.
  intros Hs Hk Ht. pose proof (jsIndex_slot a b 0 Hs) as H0.
  destruct (jsIndex a 0), (jsIndex b 0); cbn in *; try discriminate; auto.
  apply Hk. congruence.
Qed.

Lemma checkStraight_perm (cs cs' : list Card) :
  Permutation cs cs' -> sameResult (checkStraight cs) (checkStraight cs').
Proof.
  intros Hp. unfold checkStraight.
  pose proof (sortCardsByRank_ranks_perm cs cs' Hp) as E.
  rewrite E.
  set (uniqueRanks := uniqueRanksOf (map rank (sortCardsByRank cs'))).
  assert (Hslots : forall ranks,
             slotRanks (map (fun r => find (hasRank r) (sortCardsByRank cs)) ranks)
             = slotRanks (map (fun r => find (hasRank r) (sortCardsByRank cs')) ranks))
    by (intros; now rewrite !straightCards_slots, E).
  destruct (includes uniqueRanks RA && includes uniqueRanks R2 &&
            includes uniqueRanks R3 && includes uniqueRanks R4 &&
            includes uniqueRanks R5).
  - cbn [sameResult]. repeat split. apply (Hslots [R5; R4; R3; R2; RA]).
  - destruct (firstRun uniqueRanks) as [fiveRanks|]; [|exact I].
    apply (deref_first_same _ _ _ _ _ sameResult (Hslots fiveRanks)); [|reflexivity].
    intros c c' Hc. cbn [sameResult]. repeat split; cbn [description cards].
    + now rewrite Hc.
    + apply Hslots.
Qed.

Lemma checkStraightFlushIn_perm (suits : list Suit) (cs cs' : list Card) :
  Permutation cs cs' ->
  sameResult (checkStraightFlushIn suits cs) (checkStraightFlushIn suits cs').
Proof.
  intros Hp. induction suits as [|s suits IH]; cbn [checkStraightFlushIn]; [exact I|].
  pose proof (filter_perm _ (hasSuit s) cs cs' Hp) as Hf.
  rewrite (Permutation_length Hf).
  destruct (5 <=? length (filter (hasSuit s) cs')); [|exact IH].
  pose proof (checkStraight_perm _ _ Hf) as Hst.
  destruct (checkStraight (filter (hasSuit s) cs)) as [[st|]|x],
           (checkStraight (filter (hasSuit s) cs')) as [[st'|]|x'];
    cbn [sameResult bind] in *; try contradiction; auto.
  destruct Hst as (_ & _ & Hslots).
  apply (deref_first_same _ _ _ _ _ sameResult Hslots); [|reflexivity].
  intros c c' Hc. cbn [sameResult]. repeat split; cbn [description cards].
  - now rewrite Hc.
  - exact Hslots.
Qed.

Lemma checkRoyalFlush_perm (cs cs' : list Card) :
  Permutation cs cs' -> sameResult (checkRoyalFlush cs) (checkRoyalFlush cs').
Proof.
  intros Hp. unfold checkRoyalFlush, checkStraightFlush.
  pose proof (checkStraightFlushIn_perm SUITS cs cs' Hp) as Hsf.
  destruct (checkStraightFlushIn SUITS cs) as [[sf|]|x],
           (checkStraightFlushIn SUITS cs') as [[sf'|]|x'];
    cbn [sameResult bind] in *; try contradiction; auto.
  destruct Hsf as (_ & _ & Hslots).
  apply (deref_first_same _ _ _ _ _ sameResult Hslots); [|reflexivity].
  intros c c' Hc. rewrite Hc. destruct (Rank_eqb (rank c') RA); [|exact I].
  cbn [sameResult]. repeat split. exact Hslots.
Qed.

Lemma sorted_firstn_slots (n : nat) (cs cs' : list Card) :
  Permutation cs cs' ->
  map rank (firstn n (sortCardsByRank cs)) = map rank (firstn n (sortCardsByRank cs')).
Proof.
  intros Hp. rewrite <- !firstn_map. now rewrite (sortCardsByRank_ranks_perm cs cs' Hp).
Qed.

Lemma hd_error_same (A : Type) (l l' : list Card)
  (k k' : Card -> result A) (R : result A -> result A -> Prop) :
  map rank l = map rank l' ->
  (forall c c', rank c = rank c' -> R (k c) (k' c')) ->
  R (Throw TypeError) (Throw TypeError) ->
  R (let* c0 := deref (hd_error l) in k c0)
    (let* c0 := deref (hd_error l') in k' c0).
Proof.
  intros Hs Hk Ht. destruct l as [|c l], l' as [|c' l']; try discriminate; cbn; auto.
  apply Hk. now injection Hs.
Qed.

Lemma checkFlushIn_perm (suits : list Suit) (cs cs' : list Card) :
  Permutation cs cs' ->
  sameResult (checkFlushIn suits cs) (checkFlushIn suits cs').
Proof.
  intros Hp. induction suits as [|s suits IH]; cbn [checkFlushIn]; [exact I|].
  pose proof (filter_perm _ (hasSuit s) cs cs' Hp) as Hf.
  rewrite (Permutation_length Hf).
  destruct (5 <=? length (filter (hasSuit s) cs')); [|exact IH].
  pose proof (sorted_firstn_slots 5 _ _ Hf) as Hslots.
  apply (hd_error_same _ _ _ _ _ sameResult Hslots); [|reflexivity].
  intros c c' Hc. cbn [sameResult]. repeat split; cbn [description cards].
  - now rewrite Hc.
  - now rewrite !slotRanks_map_Some, Hslots.
Qed.

Lemma checkHighCard_perm (cs cs' : list Card) :
  Permutation cs cs' -> sameEvaluation (checkHighCard cs) (checkHighCard cs').
Proof.
  intros Hp. unfold checkHighCard.
  pose proof (sorted_firstn_slots 5 _ _ Hp) as Hslots.
  apply (hd_error_same _ _ _ _ _ sameEvaluation Hslots); [|reflexivity].
  intros c c' Hc. cbn [sameEvaluation]. repeat split; cbn [description cards].
  - now rewrite Hc.
  - now rewrite !slotRanks_map_Some, Hslots.
Qed.

Lemma highestWith_ext (P Q : Rank -> Prop) (t : Rank) :
  (forall r, P r <-> Q r) -> highestWith P t -> highestWith Q t.
Proof.
  intros H [Pt Hmax]. split; [now apply H|]. intros r Qr. apply Hmax. now apply H.
Qed.

Lemma two_ranks_le (r r' : Rank) (cs : list Card) :
  r <> r' -> countRank r cs + countRank r' cs <= length cs.
Proof. intros Hne. rewrite (two_ranks_split r r' cs Hne). lia. Qed.

Lemma checkFourOfAKind_perm (cs cs' : list Card) :
  Permutation cs cs' -> length cs <= 7 ->
  sameResult (checkFourOfAKind cs) (checkFourOfAKind cs').
Proof.
  intros Hp Hlen.
  destruct (checkFourOfAKind_cases cs) as [(r & -> & Hr)|[-> Hnone]];
    destruct (checkFourOfAKind_cases cs') as [(r' & -> & Hr')|[-> Hnone']];
    cbn [sameResult]; auto.
  - rewrite <- (countRank_perm r' cs cs' Hp) in Hr'.
    destruct (Rank_eq_dec r r') as [<-|Hne]; [now apply fourOf_perm|].
    exfalso. pose proof (two_ranks_le r r' cs Hne). lia.
  - apply (Hnone' r). now rewrite <- (countRank_perm r cs cs' Hp).
  - apply (Hnone r'). now rewrite (countRank_perm r' cs cs' Hp).
Qed.

Lemma checkFullHouse_perm (cs cs' : list Card) :
  Permutation cs cs' -> sameResult (checkFullHouse cs) (checkFullHouse cs').
Proof.
  intros Hp.
  assert (Hc : forall r, countRank r cs' = countRank r cs)
    by (intros; symmetry; now apply countRank_perm).
  destruct (checkFullHouse_cases cs) as [(t & p & -> & Ht & Hpr)|[-> Hnone]];
    destruct (checkFullHouse_cases cs') as [(t' & p' & -> & Ht' & Hpr')|[-> Hnone']];
    cbn [sameResult]; auto.
  - assert (t' = t).
    { apply (highestWith_unique (fun r => 3 <= countRank r cs)); [|exact Ht].
      eapply highestWith_ext; [|exact Ht']. intros r. cbv beta. now rewrite Hc. }
    subst t'.
    assert (p' = p).
    { apply (highestWith_unique (fun r => r <> t /\ 2 <= countRank r cs)); [|exact Hpr].
      eapply highestWith_ext; [|exact Hpr']. intros r. cbv beta. now rewrite Hc. }
    subst p'. now apply fullHouseOf_perm.
  - destruct Ht as [Ht _]. destruct Hpr as [[Hne Hpr] _].
    apply (Hnone' t p); rewrite ?Hc; auto.
  - destruct Ht' as [Ht' _]. destruct Hpr' as [[Hne Hpr'] _].
    rewrite Hc in Ht', Hpr'. apply (Hnone t' p'); auto.
Qed.

Lemma checkFullHouse_none (cs : list Card) :
  checkFullHouse cs = Ok None ->
  forall t p, t <> p -> 3 <= countRank t cs -> 2 <= countRank p cs -> False.
Proof.
  intros E. destruct (checkFullHouse_cases cs) as [(t & p & E' & _)|[_ H]];
    [rewrite E' in E; discriminate|exact H].
Qed.

Lemma checkTwoPair_none (cs : list Card) :
  checkTwoPair cs = Ok None ->
  forall p0 p1, p0 <> p1 -> 2 <= countRank p0 cs -> 2 <= countRank p1 cs -> False.
Proof.
  intros E. destruct (checkTwoPair_cases cs) as [(t & p & E' & _)|[_ H]];
    [rewrite E' in E; discriminate|exact H].
Qed.

Lemma checkThreeOfAKind_perm (cs cs' : list Card) :
  Permutation cs cs' -> checkFullHouse cs = Ok None ->
  sameResult (checkThreeOfAKind cs) (checkThreeOfAKind cs').
Proof.
  intros Hp Hfull.
  destruct (checkThreeOfAKind_cases cs) as [(r & -> & Hr)|[-> Hnone]];
    destruct (checkThreeOfAKind_cases cs') as [(r' & -> & Hr')|[-> Hnone']];
    cbn [sameResult]; auto.
  - rewrite <- (countRank_perm r' cs cs' Hp) in Hr'.
    destruct (Rank_eq_dec r r') as [<-|Hne]; [now apply threeOf_perm|].
    exfalso. apply (checkFullHouse_none cs Hfull r r'); auto; lia.
  - apply (Hnone' r). now rewrite <- (countRank_perm r cs cs' Hp).
  - apply (Hnone r'). now rewrite (countRank_perm r' cs cs' Hp).
Qed.

Lemma checkTwoPair_perm (cs cs' : list Card) :
  Permutation cs cs' -> sameResult (checkTwoPair cs) (checkTwoPair cs').
Proof.
  intros Hp.
  assert (Hc : forall r, countRank r cs' = countRank r cs)
    by (intros; symmetry; now apply countRank_perm).
  destruct (checkTwoPair_cases cs) as [(t & p & -> & Ht & Hpr)|[-> Hnone]];
    destruct (checkTwoPair_cases cs') as [(t' & p' & -> & Ht' & Hpr')|[-> Hnone']];
    cbn [sameResult]; auto.
  - assert (t' = t).
    { apply (highestWith_unique (fun r => 2 <= countRank r cs)); [|exact Ht].
      eapply highestWith_ext; [|exact Ht']. intros r. cbv beta. now rewrite Hc. }
    subst t'.
    assert (p' = p).
    { apply (highestWith_unique (fun r => r <> t /\ 2 <= countRank r cs)); [|exact Hpr].
      eapply highestWith_ext; [|exact Hpr']. intros r. cbv beta. now rewrite Hc. }
    subst p'. now apply twoPairOf_perm.
  - destruct Ht as [Ht _]. destruct Hpr as [[Hne Hpr] _].
    apply (Hnone' t p); rewrite ?Hc; auto.
  - destruct Ht' as [Ht' _]. destruct Hpr' as [[Hne Hpr'] _].
    rewrite Hc in Ht', Hpr'. apply (Hnone t' p'); auto.
Qed.

Lemma checkPair_perm (cs cs' : list Card) :
  Permutation cs cs' -> checkTwoPair cs = Ok None ->
  sameResult (checkPair cs) (checkPair cs').
Proof.
  intros Hp Htwo.
  destruct (checkPair_cases cs) as [(r & -> & Hr)|[-> Hnone]];
    destruct (checkPair_cases cs') as [(r' & -> & Hr')|[-> Hnone']];
    cbn [sameResult]; auto.
  - rewrite <- (countRank_perm r' cs cs' Hp) in Hr'.
    destruct (Rank_eq_dec r r') as [<-|Hne]; [now apply pairOf_perm|].
    exfalso. apply (checkTwoPair_none cs Htwo r r'); auto; lia.
  - apply (Hnone' r). now rewrite <- (countRank_perm r cs cs' Hp).
  - apply (Hnone r'). now rewrite (countRank_perm r' cs cs' Hp).
Qed.

Lemma orElse_same (m m' : result (option HandEvaluation))
  (k k' : result HandEvaluation) :
  sameResult m m' ->
  (m = Ok None -> m' = Ok None -> sameEvaluation k k') ->
  sameEvaluation (orElse m k) (orElse m' k').
Proof.
  unfold orElse. intros Hm Hk.
  destruct m as [[e|]|x], m' as [[e'|]|x']; cbn in *; try contradiction; auto.
Qed.

Lemma findBestHand_perm (cs cs' : list Card) :
  Permutation cs cs' -> length cs <= 7 ->
  sameEvaluation (findBestHand cs) (findBestHand cs').
Proof.
  intros Hp Hlen. unfold findBestHand.
  apply orElse_same; [now apply checkRoyalFlush_perm|intros _ _].
  apply orElse_same; [now apply checkStraightFlushIn_perm|intros _ _].
  apply orElse_same; [now apply checkFourOfAKind_perm|intros _ _].
  apply orElse_same; [now apply checkFullHouse_perm|intros Hfull _].
  apply orElse_same; [now apply checkFlushIn_perm|intros _ _].
  apply orElse_same; [now apply checkStraight_perm|intros _ _].
  apply orElse_same; [now apply checkThreeOfAKind_perm|intros _ _].
  apply orElse_same; [now apply checkTwoPair_perm|intros Htwo _].
  apply orElse_same; [now apply checkPair_perm|intros _ _].
  now apply checkHighCard_perm.
Qed.

(** C8, as the code has it.  Evaluating a list of five to seven cards and
    evaluating a permutation of it give the same ranking, the same
    description, and selections that carry the same ranks position by
    position.  (The selected cards themselves may differ in suit, and so
    in identity, between cards of equal rank.) *)
Theorem evaluateHand_perm (cs cs' : list Card) :
  5 <= length cs <= 7 -> Permutation cs cs' ->
  exists e e',
    evaluateHand cs = Ok e /\ evaluateHand cs' = Ok e' /\
    ranking e = ranking e' /\
    description e = description e' /\
    map (option_map rank) (cards e) = map (option_map rank) (cards e').
Proof.
  intros [H5 H7] Hp.
  pose proof (findBestHand_perm cs cs' Hp H7) as Hsame.
  destruct (evaluateHand_ok cs H5) as (e & He & _).
  destruct (evaluateHand_ok cs') as (e' & He' & _);
    [now rewrite <- (Permutation_length Hp)|].
  exists e, e'. split; [exact He|]. split; [exact He'|].
  unfold evaluateHand in He, He'.
  destruct (length cs <? 5); [discriminate|].
  destruct (length cs' <? 5); [discriminate|].
  rewrite He, He' in Hsame. exact Hsame.
Qed.

Lemma threePairs_perm : Permutation threePairs threePairsSwapped.
Proof.
  unfold threePairs, threePairsSwapped. do 4 apply perm_skip. apply perm_swap.
Qed.

(** C8 does not hold as stated.  With three pairs among seven cards the
    kicker is the first queen of the input: exchanging the two queens
    exchanges the fifth selected card, so the selected cards differ. *)
Lemma evaluateHand_perm_counterexample :
  Permutation threePairs threePairsSwapped /\
  length threePairs = 7 /\
  exists e e',
    evaluateHand threePairs = Ok e /\
    evaluateHand threePairsSwapped = Ok e' /\
    In (Some (mkCard hearts RQ)) (cards e) /\
    ~ In (Some (mkCard hearts RQ)) (cards e') /\
    e <> e'.
Proof.
  split; [exact threePairs_perm|]. split; [reflexivity|].
  do 2 eexists. split; [vm_compute; reflexivity|].
  split; [vm_compute; reflexivity|].
  split; [cbn; tauto|]. split.
  - cbn. intros H. repeat (destruct H as [H|H]; [discriminate H|]). exact H.
  - discriminate.
Qed.

(** The theorem at the two orders of the counterexample. *)
Lemma evaluateHand_perm_witness :
  exists e e',
    evaluateHand threePairs = Ok e /\ evaluateHand threePairsSwapped = Ok e' /\
    ranking e = ranking e' /\ description e = description e'.
Proof.
  destruct (evaluateHand_perm threePairs threePairsSwapped)
    as (e & e' & He & He' & Hr & Hd & _).
  - vm_compute. lia.
  - exact threePairs_perm.
  - exists e, e'. repeat split; assumption.
Defined.

(* ================================================================= *)
(** ** Dealing, shuffling and sorting *)

(** [dealCards] splits the deck: the dealt cards followed by the remaining
    deck are the deck it was given, and exactly [count] cards are dealt. *)
Theorem dealCards_split (deck : list Card) (count : nat) (cs rest : list Card) :
  dealCards deck count = Ok (cs, rest) ->
  cs ++ rest = deck /\ length cs = count /\
  length rest = length deck - count.
Proof.
  unfold dealCards. destruct (Nat.ltb_spec (length deck) count); [discriminate|].
  intros [= <- <-]. split; [apply firstn_skipn|].
  rewrite length_firstn, length_skipn. lia.
Qed.

Lemma dealCards_split_witness :
  [mkCard hearts R2; mkCard hearts R3] ++ [mkCard hearts R4]
  = [mkCard hearts R2; mkCard hearts R3; mkCard hearts R4].
Proof.
  exact (proj1 (dealCards_split
                  [mkCard hearts R2; mkCard hearts R3; mkCard hearts R4] 2
                  [mkCard hearts R2; mkCard hearts R3] [mkCard hearts R4]
                  eq_refl)).
Defined.

Lemma Suit_eq_dec (a b : Suit) : {a = b} + {a <> b}.
Proof. decide equality. Qed.

Lemma Card_eq_dec (a b : Card) : {a = b} + {a <> b}.
Proof. decide equality; [apply Rank_eq_dec|apply Suit_eq_dec]. Qed.

Lemma nth_error_setNth (A : Type) (i j : nat) (v : A) (arr : list A) :
  i < length arr ->
  nth_error (setNth i v arr) j = if i =? j then Some v else nth_error arr j.
Proof.
  revert i j. induction arr as [|x arr IH]; intros i j Hi; [simpl in Hi; lia|].
  destruct i as [|i]; destruct j as [|j]; try reflexivity.
  cbn [setNth nth_error length] in *. rewrite IH by lia. reflexivity.
Qed.

Lemma length_setNth (A : Type) (i : nat) (v : A) (arr : list A) :
  length (setNth i v arr) = length arr.
Proof.
  revert i. induction arr as [|x arr IH]; intros [|i]; simpl; try reflexivity.
  now rewrite IH.
Qed.

(** Overwriting a slot removes one copy of the old element and adds one of
    the new element. *)
Lemma count_occ_setNth (i : nat) (v old z : Card) (arr : list Card) :
  nth_error arr i = Some old ->
  count_occ Card_eq_dec (setNth i v arr) z
  + (if Card_eq_dec old z then 1 else 0)
  = count_occ Card_eq_dec arr z + (if Card_eq_dec v z then 1 else 0).
Proof.
  revert i. induction arr as [|x arr IH]; intros [|i] H; try discriminate H.
  - injection H as ->. cbn [setNth count_occ].
    destruct (Card_eq_dec v z), (Card_eq_dec old z); lia.
  - cbn [setNth count_occ nth_error] in *. specialize (IH i H).
    destruct (Card_eq_dec x z); lia.
Qed.

Lemma swapAt_perm (i j : nat) (arr : list Card) :
  Permutation arr (swapAt i j arr).
Proof.
  unfold swapAt.
  destruct (nth_error arr j) as [aj|] eqn:Ej; [|reflexivity].
  destruct (nth_error arr i) as [ai|] eqn:Ei; [|reflexivity].
  apply (Permutation_count_occ Card_eq_dec). intros z.
  assert (Hi : i < length arr) by (apply nth_error_Some; congruence).
  pose proof (count_occ_setNth i aj ai z arr Ei) as H1.
  assert (Ej' : nth_error (setNth i aj arr) j = Some aj).
  { rewrite nth_error_setNth by exact Hi.
    destruct (i =? j); [reflexivity|exact Ej]. }
  pose proof (count_occ_setNth j ai aj z _ Ej') as H2.
  lia.
Qed.

Lemma shuffleLoop_perm (rnd : nat -> Q) (i k : nat) (arr : list Card) :
  Permutation arr (shuffleLoop rnd i k arr).
Proof.
  revert k arr. induction i as [|i IH]; intros k arr; [reflexivity|].
  cbn [shuffleLoop]. etransitivity; [|apply IH]. apply swapAt_perm.
Qed.

Lemma shuffle_index_le (r : Q) (i : nat) :
  (0 <= r)%Q -> (r < 1)%Q ->
  Z.to_nat (Qfloor (Math_floor (r * inject_Z (Z.of_nat (i + 1))))) <= i.
Proof.
  intros H0 H1. unfold Math_floor. rewrite Qfloor_Z.
  set (x := (r * inject_Z (Z.of_nat (i + 1)))%Q).
  assert (Hpos : (0 < inject_Z (Z.of_nat (i + 1)))%Q).
  { change 0%Q with (inject_Z 0). rewrite <- Zlt_Qlt. lia. }
  assert (Hx : (x < inject_Z (Z.of_nat (i + 1)))%Q) by (unfold x; nra).
  pose proof (Qfloor_le x) as Hf.
  assert (Hlt : (inject_Z (Qfloor x) < inject_Z (Z.of_nat (i + 1)))%Q).
  { eapply Qle_lt_trans; eassumption. }
  rewrite <- Zlt_Qlt in Hlt. lia.
Qed.

(** [shuffleDeck] returns a rearrangement of the deck it is given: every
    card as often as before, none lost and none added.  Each index [j] it
    draws is one of [0..i], so every swap stays inside the array. *)
Theorem shuffleDeck_perm (rnd : nat -> Q) (deck : list Card) :
  (forall k, (0 <= rnd k)%Q /\ (rnd k < 1)%Q) ->
  Permutation deck (shuffleDeck rnd deck) /\
  forall i k,
    Z.to_nat (Qfloor (Math_floor (rnd k * inject_Z (Z.of_nat (i + 1))))) <= i.
Proof.
  intros Hrnd. split; [apply shuffleLoop_perm|].
  intros i k. apply shuffle_index_le; apply Hrnd.
Qed.

Lemma shuffleDeck_perm_witness :
  Permutation [mkCard hearts R2; mkCard hearts R3; mkCard hearts R4]
    (shuffleDeck (fun _ => 1 # 2)%Q
       [mkCard hearts R2; mkCard hearts R3; mkCard hearts R4]).
Proof.
  refine (proj1 (shuffleDeck_perm (fun _ => 1 # 2)%Q _ _)).
  intros k. split; [discriminate|reflexivity].
Defined.

(** A freshly shuffled deck holds each of the 52 cards exactly once. *)
Theorem createShuffledDeck_complete (rnd : nat -> Q) :
  (forall k, (0 <= rnd k)%Q /\ (rnd k < 1)%Q) ->
  length (createShuffledDeck rnd) = 52 /\
  NoDup (createShuffledDeck rnd) /\
  forall c, In c (createShuffledDeck rnd).
Proof.
  intros _. unfold createShuffledDeck, shuffleDeck.
  pose proof (shuffleLoop_perm rnd (length createDeck - 1) 0 createDeck) as Hp.
  split; [|split].
  - rewrite <- (Permutation_length Hp). reflexivity.
  - eapply Permutation_NoDup; [exact Hp|exact createDeck_NoDup].
  - intros c. eapply Permutation_in; [exact Hp|apply createDeck_all].
Qed.

Lemma createShuffledDeck_complete_witness :
  length (createShuffledDeck (fun _ => 0)%Q) = 52.
Proof.
  refine (proj1 (createShuffledDeck_complete (fun _ => 0)%Q _)).
  intros k. split; [discriminate|reflexivity].
Defined.

(** Inserting a card into a sorted list leaves the relative order of the
    cards of any one rank value as it was, with the new card in front. *)
Lemma insertDesc_filter (A : Type) (key : A -> Z) (v : Z) (x : A) (l : list A) :
  filter (fun y => (key y =? v)%Z) (insertDesc key x l)
  = filter (fun y => (key y =? v)%Z) (x :: l).
Proof.
  induction l as [|y l IH]; [reflexivity|].
  cbn [insertDesc]. destruct (Z.ltb_spec (key x) (key y)) as [Hlt|Hge];
    [|reflexivity].
  cbn [filter] in *. rewrite IH.
  destruct (Z.eqb_spec (key x) v), (Z.eqb_spec (key y) v); try reflexivity; lia.
Qed.

Lemma sortDesc_filter (A : Type) (key : A -> Z) (v : Z) (l : list A) :
  filter (fun y => (key y =? v)%Z) (sortDesc key l)
  = filter (fun y => (key y =? v)%Z) l.
Proof.
  induction l as [|x l IH]; [reflexivity|].
  cbn [sortDesc]. rewrite insertDesc_filter. cbn [filter]. now rewrite IH.
Qed.

(** [sortCardsByRank] returns the same cards, highest rank first, and keeps
    cards of equal rank in the order they had in the input. *)
Theorem sortCardsByRank_stable (cs : list Card) :
  Permutation (sortCardsByRank cs) cs /\
  sortedDesc (fun c => getRankValue (rank c)) (sortCardsByRank cs) /\
  forall r, filter (hasRank r) (sortCardsByRank cs) = filter (hasRank r) cs.
Proof.
  split; [apply sortDesc_perm|]. split; [apply sortDesc_sorted|].
  intros r. unfold sortCardsByRank.
  exact (sortDesc_filter Card (fun c => getRankValue (rank c)) (getRankValue r) cs).
Qed.

(* ================================================================= *)
(** ** The order of hands *)

Lemma compareCardsFrom_range (n i : nat) (a b : list (option Card)) (z : Z) :
  compareCardsFrom n i a b = Ok z -> (z = 1 \/ z = 0 \/ z = -1)%Z.
Proof.
  revert i. induction n as [|n IH]; intros i; cbn [compareCardsFrom].
  - intros [= <-]. auto.
  - destruct (jsIndex a i) as [x|]; [|discriminate].
    destruct (jsIndex b i) as [y|]; [|discriminate]. cbn [deref bind].
    destruct (_ >? _)%Z; [intros [= <-]; auto|].
    destruct (_ <? _)%Z; [intros [= <-]; auto|]. apply IH.
Qed.

Lemma compareCardsFrom_antisym (n i : nat) (a b : list (option Card)) (z : Z) :
  compareCardsFrom n i a b = Ok z -> compareCardsFrom n i b a = Ok (- z)%Z.
Proof.
  revert i. induction n as [|n IH]; intros i; cbn [compareCardsFrom].
  - intros [= <-]. reflexivity.
  - destruct (jsIndex a i) as [x|]; [|discriminate].
    destruct (jsIndex b i) as [y|]; [|discriminate]. cbn [deref bind].
    rewrite !Z.gtb_ltb.
    destruct (Z.ltb_spec (getRankValue (rank y)) (getRankValue (rank x)));
      destruct (Z.ltb_spec (getRankValue (rank x)) (getRankValue (rank y)));
      try lia; try (intros [= <-]; reflexivity). apply IH.
Qed.

Lemma compareCardsFrom_trans (n i : nat) (a b c : list (option Card)) (z1 z2 : Z) :
  compareCardsFrom n i a b = Ok z1 -> compareCardsFrom n i b c = Ok z2 ->
  (0 <= z1)%Z -> (0 <= z2)%Z ->
  compareCardsFrom n i a c = Ok (Z.max z1 z2).
Proof.
  revert i. induction n as [|n IH]; intros i; cbn [compareCardsFrom].
  - intros [= <-] [= <-] _ _. reflexivity.
  - destruct (jsIndex a i) as [x|]; [|discriminate].
    destruct (jsIndex b i) as [y|]; [|discriminate].
    destruct (jsIndex c i) as [w|]; [|discriminate]. cbn [deref bind].
    rewrite !Z.gtb_ltb.
    destruct (Z.ltb_spec (getRankValue (rank y)) (getRankValue (rank x)));
      destruct (Z.ltb_spec (getRankValue (rank x)) (getRankValue (rank y)));
      destruct (Z.ltb_spec (getRankValue (rank w)) (getRankValue (rank y)));
      destruct (Z.ltb_spec (getRankValue (rank y)) (getRankValue (rank w)));
      destruct (Z.ltb_spec (getRankValue (rank w)) (getRankValue (rank x)));
      destruct (Z.ltb_spec (getRankValue (rank x)) (getRankValue (rank w)));
      try lia; intros E1 E2 Hz1 Hz2;
      try (injection E1 as <-); try (injection E2 as <-); try lia;
      try (pose proof (compareCardsFrom_range _ _ _ _ _ E1));
      try (pose proof (compareCardsFrom_range _ _ _ _ _ E2));
      try (f_equal; lia).
    now apply IH.
Qed.

Lemma compareCardsFrom_tie (n i : nat) (a b : list (option Card)) :
  compareCardsFrom n i a b = Ok 0%Z ->
  forall k, i <= k < i + n ->
    exists x y, jsIndex a k = Some x /\ jsIndex b k = Some y /\ rank x = rank y.
Proof.
  revert i. induction n as [|n IH]; intros i; cbn [compareCardsFrom].
  - intros _ k Hk. lia.
  - destruct (jsIndex a i) as [x|] eqn:Ea; [|discriminate].
    destruct (jsIndex b i) as [y|] eqn:Eb; [|discriminate]. cbn [deref bind].
    rewrite Z.gtb_ltb.
    destruct (Z.ltb_spec (getRankValue (rank y)) (getRankValue (rank x)));
      [discriminate|].
    destruct (Z.ltb_spec (getRankValue (rank x)) (getRankValue (rank y)));
      [discriminate|].
    intros E k Hk. destruct (Nat.eq_dec k i) as [->|Hne].
    + exists x, y. repeat split; try assumption. apply getRankValue_inj. lia.
    + apply (IH (S i) E). lia.
Qed.

(** [compareHands] is antisymmetric: when it returns [z] for two hands, it
    returns [-z] for the same hands in the other order. *)
Theorem compareHands_antisym (hand1 hand2 : HandEvaluation) (z : Z) :
  compareHands hand1 hand2 = Ok z -> compareHands hand2 hand1 = Ok (- z)%Z.
Proof.
  unfold compareHands. rewrite !Z.gtb_ltb.
  destruct (Z.ltb_spec (rankingValues (ranking hand2)) (rankingValues (ranking hand1)));
    destruct (Z.ltb_spec (rankingValues (ranking hand1)) (rankingValues (ranking hand2)));
    try lia; try (intros [= <-]; reflexivity).
  apply compareCardsFrom_antisym.
Qed.

(** [compareHands] is transitive: a hand that is not worse than a second
    one, which is not worse than a third one, is not worse than the third,
    and is better as soon as one of the two comparisons is strict. *)
Theorem compareHands_trans (hand1 hand2 hand3 : HandEvaluation) (z1 z2 : Z) :
  compareHands hand1 hand2 = Ok z1 -> compareHands hand2 hand3 = Ok z2 ->
  (0 <= z1)%Z -> (0 <= z2)%Z ->
  compareHands hand1 hand3 = Ok (Z.max z1 z2).
Proof.
  unfold compareHands. rewrite !Z.gtb_ltb.
  destruct (Z.ltb_spec (rankingValues (ranking hand2)) (rankingValues (ranking hand1)));
    destruct (Z.ltb_spec (rankingValues (ranking hand1)) (rankingValues (ranking hand2)));
    destruct (Z.ltb_spec (rankingValues (ranking hand3)) (rankingValues (ranking hand2)));
    destruct (Z.ltb_spec (rankingValues (ranking hand2)) (rankingValues (ranking hand3)));
    destruct (Z.ltb_spec (rankingValues (ranking hand3)) (rankingValues (ranking hand1)));
    destruct (Z.ltb_spec (rankingValues (ranking hand1)) (rankingValues (ranking hand3)));
    try lia; intros E1 E2 Hz1 Hz2;
    try (injection E1 as <-); try (injection E2 as <-); try lia;
    try (pose proof (compareCardsFrom_range _ _ _ _ _ E1));
    try (pose proof (compareCardsFrom_range _ _ _ _ _ E2));
    try (f_equal; lia).
  now apply compareCardsFrom_trans with (b := cards hand2).
Qed.

(** [compareHands] returns 0 only for two hands of the same category whose
    selected cards have the same rank at each of the five positions: suits
    never break a tie. *)
Theorem compareHands_tie (hand1 hand2 : HandEvaluation) :
  compareHands hand1 hand2 = Ok 0%Z ->
  ranking hand1 = ranking hand2 /\
  forall k, k < 5 ->
    exists x y, jsIndex (cards hand1) k = Some x /\
                jsIndex (cards hand2) k = Some y /\ rank x = rank y.
Proof.
  unfold compareHands. rewrite !Z.gtb_ltb.
  destruct (Z.ltb_spec (rankingValues (ranking hand2)) (rankingValues (ranking hand1)));
    [discriminate|].
  destruct (Z.ltb_spec (rankingValues (ranking hand1)) (rankingValues (ranking hand2)));
    [discriminate|].
  intros E. split.
  - destruct (ranking hand1), (ranking hand2); cbn in *; try reflexivity; lia.
  - intros k Hk. apply (compareCardsFrom_tie 5 0 _ _ E). lia.
Qed.

Lemma compareHands_antisym_witness :
  compareHands kingsPair acesPair = Ok (- 1)%Z.
Proof. exact (compareHands_antisym acesPair kingsPair 1 eq_refl). Defined.

Lemma compareHands_trans_witness :
  compareHands acesPair kingHigh = Ok (Z.max 1 1).
Proof.
  refine (compareHands_trans acesPair kingsPair kingHigh 1 1 eq_refl eq_refl _ _);
    discriminate.
Defined.

Lemma compareHands_tie_witness : ranking acesPair = ranking acesPairOther.
Proof. exact (proj1 (compareHands_tie acesPair acesPairOther eq_refl)). Defined.

(* ================================================================= *)
(** ** Chips and seats *)

Open Scope Q_scope.

(** [processPlayerAction] moves chips only between a player's stack and
    the player's street bet.  For amounts of chips (whole numbers of half
    big blinds, on which the arithmetic of doubles is exact) the sum of
    the two is what it was, for every action, and the pot increase it
    reports is what left the stack.  Seat, name and hole cards are never
    touched. *)
Theorem processPlayerAction_conserves
  (action : BetAction.t) (player : Player.t) (gameState : GameState.t) :
  chips (Player.stack player) -> chips (Player.currentBet player) ->
  chips (GameState.currentBet gameState) ->
  chips (orZero (BetAction.amount action)) ->
  let '(player', potIncrease, _) := processPlayerAction action player gameState in
  Player.stack player' + Player.currentBet player'
    == Player.stack player + Player.currentBet player /\
  potIncrease == Player.stack player - Player.stack player' /\
  Player.position player' = Player.position player /\
  Player.name player' = Player.name player /\
  Player.holeCards player' = Player.holeCards player.
Proof.
  intros _ _ _ _. unfold processPlayerAction.
  destruct (BetAction.type action); cbn [Player.stack Player.currentBet
    Player.position Player.name Player.holeCards];
    repeat split; try reflexivity; lra.
Qed.

Lemma chips_whole (n : Z) : (Z.abs (2 * n) <= 2 ^ 50)%Z -> chips (inject_Z n).
Proof.
  intros H. exists (2 * n)%Z. split; [exact H|].
  unfold Qeq, inject_Z. cbn [Qnum Qden]. lia.
Qed.

Lemma processPlayerAction_conserves_witness :
  let '(player', potIncrease, _) :=
    processPlayerAction (BetAction.mk raise (Some 8)) (seatWith hero 10 2)
      facingSix in
  Player.stack player' + Player.currentBet player' == 10 + 2.
Proof.
  pose proof (processPlayerAction_conserves (BetAction.mk raise (Some 8))
                (seatWith hero 10 2) facingSix
                (chips_whole 10 ltac:(apply Z.leb_le; reflexivity))
                (chips_whole 2 ltac:(apply Z.leb_le; reflexivity))
                (chips_whole 6 ltac:(apply Z.leb_le; reflexivity))
                (chips_whole 8 ltac:(apply Z.leb_le; reflexivity))) as H.
  destruct (processPlayerAction (BetAction.mk raise (Some 8)) (seatWith hero 10 2)
              facingSix) as [[player' potIncrease] newCurrentBet].
  exact (proj1 H).
Defined.

(** A stack never becomes negative: from a non-negative stack and street
    bet, every action leaves a non-negative stack, and a call, raise or
    all-in that empties the stack marks the player all-in. *)
Theorem processPlayerAction_stack_nonneg
  (action : BetAction.t) (player : Player.t) (gameState : GameState.t) :
  0 <= Player.stack player -> 0 <= Player.currentBet player ->
  let player' := fst (fst (processPlayerAction action player gameState)) in
  0 <= Player.stack player' /\
  (Player.stack player' == 0 ->
   BetAction.type action = call \/ BetAction.type action = raise \/
   BetAction.type action = all_in ->
   Player.isAllIn player' = true).
Proof.
  intros Hs Hb. unfold processPlayerAction.
  destruct (BetAction.type action); cbn [fst Player.stack Player.isAllIn].
  - split; [exact Hs|]. intros _ [H|[H|H]]; discriminate H.
  - split; [exact Hs|]. intros _ [H|[H|H]]; discriminate H.
  - split.
    + pose proof (Q.le_min_r (GameState.currentBet gameState - Player.currentBet player)
                    (Player.stack player)). lra.
    + intros H0 _. apply Qeq_bool_iff in H0. now rewrite H0.
  - split.
    + pose proof (Q.le_min_r (orZero (BetAction.amount action)) (Player.stack player)).
      lra.
    + intros H0 _. apply Qeq_bool_iff in H0. now rewrite H0.
  - split; [lra|reflexivity].
Qed.

Lemma processPlayerAction_stack_nonneg_witness :
  0 <= Player.stack
         (fst (fst (processPlayerAction (BetAction.mk call None)
                      (seatWith hero 3 1) (initializeGame 3 3 3 3)))).
Proof.
  refine (proj1 (processPlayerAction_stack_nonneg (BetAction.mk call None)
                   (seatWith hero 3 1) (initializeGame 3 3 3 3) _ _));
    discriminate.
Defined.

Close Scope Q_scope.

Lemma canActAt_lt (players : list Player.t) (j : nat) :
  canActAt players j = true -> j < length players.
Proof.
  unfold canActAt. destruct (nth_error players j) eqn:E; [|discriminate].
  intros _. apply nth_error_Some. congruence.
Qed.

(** The loop stops at the first seat, from [i] on, that can act. *)
Lemma getNextPlayerIndexLoop_first (players : list Player.t) (fuel : nat) :
  forall i, i < length players ->
    (exists d, d <= fuel /\ canActAt players ((i + d) mod length players) = true) ->
    exists d, d <= fuel /\
      getNextPlayerIndexLoop players fuel i = Ok ((i + d) mod length players) /\
      canActAt players ((i + d) mod length players) = true /\
      forall d', d' < d -> canActAt players ((i + d') mod length players) = false.
Proof.
  induction fuel as [|fuel IH]; intros i Hi (d & Hd & Hact).
  - assert (d = 0) by lia. subst d. exists 0. split; [lia|].
    rewrite Nat.add_0_r, (Nat.mod_small i) in * by exact Hi.
    split; [|split; [exact Hact|intros; lia]].
    cbn [getNextPlayerIndexLoop]. unfold canActAt in Hact.
    destruct (nth_error players i) as [p|]; [|discriminate]. cbn [deref bind].
    destruct (Player.isFolded p || Player.isAllIn p); [discriminate|reflexivity].
  - cbn [getNextPlayerIndexLoop].
    destruct (canActAt players i) eqn:Ei.
    + exists 0. split; [lia|]. rewrite Nat.add_0_r, (Nat.mod_small i) by exact Hi.
      split; [|split; [exact Ei|intros; lia]].
      unfold canActAt in Ei.
      destruct (nth_error players i) as [p|]; [|discriminate]. cbn [deref bind].
      destruct (Player.isFolded p || Player.isAllIn p); [discriminate|reflexivity].
    + destruct d as [|d].
      { rewrite Nat.add_0_r, (Nat.mod_small i) in Hact by exact Hi. congruence. }
      assert (Hstep : forall e, ((i + 1) mod length players + e) mod length players
                                = (i + S e) mod length players).
      { intros e. rewrite Nat.Div0.add_mod_idemp_l. f_equal. lia. }
      destruct (IH ((i + 1) mod length players)
                  ltac:(apply Nat.mod_upper_bound; lia)) as (d0 & Hd0 & Hrun & Hact0 & Hmin).
      { exists d. split; [lia|]. now rewrite Hstep. }
      exists (S d0). split; [lia|]. rewrite Hstep in Hrun, Hact0.
      split; [|split; [exact Hact0|]].
      * unfold canActAt in Ei.
        destruct (nth_error players i) as [p|] eqn:Ep;
          [|apply nth_error_None in Ep; lia].
        cbn [deref bind].
        destruct (Player.isFolded p || Player.isAllIn p); [exact Hrun|discriminate].
      * intros [|e] He.
        -- rewrite Nat.add_0_r, (Nat.mod_small i) by exact Hi. exact Ei.
        -- rewrite <- Hstep. apply Hmin. lia.
Qed.

(** When some player can still act (is neither folded nor all-in),
    [getNextPlayerIndex] returns the first such seat after the current one,
    going round the table; it never returns a folded or all-in seat then. *)
Theorem getNextPlayerIndex_first_actor (players : list Player.t) (currentIndex k : nat) :
  canActAt players k = true ->
  exists d, d < length players /\
    getNextPlayerIndex players currentIndex
    = Ok ((currentIndex + 1 + d) mod length players) /\
    canActAt players ((currentIndex + 1 + d) mod length players) = true /\
    forall d', d' < d ->
      canActAt players ((currentIndex + 1 + d') mod length players) = false.
Proof.
  intros Hk. pose proof (canActAt_lt players k Hk) as Hlt.
  set (n := length players) in *.
  set (i0 := (currentIndex + 1) mod n).
  assert (Hi0 : i0 < n) by (apply Nat.mod_upper_bound; lia).
  assert (Hstep : forall e, (i0 + e) mod n = (currentIndex + 1 + e) mod n).
  { intros e. unfold i0. now rewrite Nat.Div0.add_mod_idemp_l. }
  destruct (getNextPlayerIndexLoop_first players n i0 Hi0)
    as (d & Hd & Hrun & Hact & Hmin).
  { exists ((k + n - i0) mod n). split.
    - pose proof (Nat.mod_upper_bound (k + n - i0) n). lia.
    - fold n. rewrite Nat.Div0.add_mod_idemp_r.
      replace (i0 + (k + n - i0)) with (k + 1 * n) by lia.
      rewrite Nat.Div0.mod_add, Nat.mod_small by exact Hlt. exact Hk. }
  fold n in Hrun, Hact, Hmin.
  assert (Hdn : d < n).
  { destruct (Nat.lt_ge_cases d n) as [|Hge]; [assumption|exfalso].
    assert (d = n) by lia. subst d.
    specialize (Hmin 0 ltac:(lia)).
    replace (i0 + n) with (i0 + 0 + 1 * n) in Hact by lia.
    rewrite Nat.Div0.mod_add in Hact. congruence. }
  exists d. split; [exact Hdn|]. rewrite <- !Hstep.
  split; [exact Hrun|]. split; [exact Hact|].
  intros d' Hd'. rewrite <- Hstep. now apply Hmin.
Qed.

Lemma getNextPlayerIndex_first_actor_witness :
  exists d, getNextPlayerIndex
              [seatWith hero 3 1; seatWith opponent1 3 1] 0
            = Ok ((0 + 1 + d) mod 2).
Proof.
  destruct (getNextPlayerIndex_first_actor
              [seatWith hero 3 1; seatWith opponent1 3 1] 0 0 eq_refl)
    as (d & _ & H & _).
  exists d. exact H.
Defined.

Lemma mod_wrap (a n : nat) : n <= a < 2 * n -> a mod n = a - n.
Proof.
  intros H. symmetry. apply (Nat.mod_unique a n 1); lia.
Qed.

(** With at least two seats and the button on a seat of the table, the
    blinds are on seats of the table and on different seats.  Heads-up the
    button is the small blind; with three or more seats button, small blind
    and big blind are three different seats.  The first seat to act before
    the flop is never the big blind. *)
Theorem getBlindPositions_seats (playerCount dealerIndex : nat) :
  2 <= playerCount -> dealerIndex < playerCount ->
  let '(dealer, smallBlind, bigBlind) := getBlindPositions playerCount dealerIndex in
  dealer = dealerIndex /\
  smallBlind < playerCount /\ bigBlind < playerCount /\
  smallBlind <> bigBlind /\
  (playerCount = 2 -> smallBlind = dealer) /\
  (3 <= playerCount -> smallBlind <> dealer /\ bigBlind <> dealer) /\
  getFirstPreFlopPlayer playerCount bigBlind < playerCount /\
  getFirstPreFlopPlayer playerCount bigBlind <> bigBlind.
Proof.
  intros Hn Hd. unfold getBlindPositions, getFirstPreFlopPlayer.
  destruct (Nat.eqb_spec playerCount 2) as [->|Hne].
  - assert (dealerIndex = 0 \/ dealerIndex = 1) as [->| ->] by lia;
      cbn; repeat split; lia.
  - assert (H1 : (dealerIndex + 1) mod playerCount
                 = if dealerIndex + 1 <? playerCount then dealerIndex + 1 else 0).
    { destruct (Nat.ltb_spec (dealerIndex + 1) playerCount).
      - now apply Nat.mod_small.
      - rewrite mod_wrap; lia. }
    assert (H2 : (dealerIndex + 2) mod playerCount
                 = if dealerIndex + 2 <? playerCount then dealerIndex + 2
                   else dealerIndex + 2 - playerCount).
    { destruct (Nat.ltb_spec (dealerIndex + 2) playerCount).
      - now apply Nat.mod_small.
      - rewrite mod_wrap; lia. }
    set (bb := (dealerIndex + 2) mod playerCount) in *.
    assert (H3 : (bb + 1) mod playerCount
                 = if bb + 1 <? playerCount then bb + 1 else 0).
    { assert (bb < playerCount) by (apply Nat.mod_upper_bound; lia).
      destruct (Nat.ltb_spec (bb + 1) playerCount).
      - now apply Nat.mod_small.
      - rewrite mod_wrap; lia. }
    rewrite H1, H3. clear H1 H3.
    destruct (Nat.ltb_spec (dealerIndex + 1) playerCount);
      destruct (Nat.ltb_spec (dealerIndex + 2) playerCount);
      destruct (Nat.ltb_spec (bb + 1) playerCount);
      repeat split; lia.
Qed.

Lemma getBlindPositions_seats_witness :
  let '(dealer, smallBlind, bigBlind) := getBlindPositions 4 3 in
  smallBlind <> bigBlind.
Proof.
  pose proof (getBlindPositions_seats 4 3 ltac:(lia) ltac:(lia)) as H.
  destruct (getBlindPositions 4 3) as [[dealer smallBlind] bigBlind].
  exact (proj1 (proj2 (proj2 (proj2 H)))).
Defined.

Open Scope Q_scope.

Lemma sumBets_from (players : list Player.t) (acc : Q) :
  fold_left (fun sum p => sum + Player.currentBet p) players acc
  == acc + sumBets players.
Proof.
  unfold sumBets. revert acc.
  induction players as [|p players IH]; intros acc; cbn [fold_left]; [lra|].
  rewrite (IH (acc + Player.currentBet p)), (IH (0 + Player.currentBet p)). lra.
Qed.

Lemma sumBets_cons (p : Player.t) (players : list Player.t) :
  sumBets (p :: players) == Player.currentBet p + sumBets players.
Proof.
  unfold sumBets at 1. cbn [fold_left]. rewrite sumBets_from. lra.
Qed.

Lemma sumBets_collected (players : list Player.t) :
  sumBets (fst (collectBets players)) == 0.
Proof.
  unfold collectBets. cbn [fst].
  induction players as [|p players IH]; [reflexivity|].
  cbn [map]. rewrite sumBets_cons, IH. cbn [Player.currentBet]. lra.
Qed.

(** Collecting the street bets loses no chip: the pot that [calculatePot]
    shows is the same before the collection and after it, once the amount
    [collectBets] reports has been added to the pot.  The collection
    changes nothing but the street bets, which all become 0. *)
Theorem collectBets_keeps_pot (players : list Player.t) (currentPot : Q) :
  let '(players', totalBets) := collectBets players in
  calculatePot players' (currentPot + totalBets)
    == calculatePot players currentPot /\
  map Player.stack players' = map Player.stack players /\
  map Player.position players' = map Player.position players /\
  map Player.isFolded players' = map Player.isFolded players /\
  map Player.isAllIn players' = map Player.isAllIn players /\
  map Player.holeCards players' = map Player.holeCards players /\
  Forall (fun p => Player.currentBet p = 0) players'.
Proof.
  pose proof (sumBets_collected players) as H0.
  pose proof (collectBets_players players) as [_ Hz].
  unfold collectBets in *. cbn [fst] in *. unfold calculatePot.
  split; [rewrite H0; lra|].
  rewrite !map_map. cbn [Player.stack Player.position Player.isFolded
                           Player.isAllIn Player.holeCards].
  repeat split; try reflexivity. exact Hz.
Qed.

(** A bet that [validateBetAmount] accepts is within the player's stack,
    and when it raises the bet to match it reaches the minimum raise or is
    the whole stack; [processPlayerAction] then carries the raise out
    uncapped: the player's street bet and the bet to match are the
    validated amount. *)
Theorem validated_raise_exact
  (amount : Q) (player : Player.t) (gameState : GameState.t) :
  validateBetAmount amount player (GameState.currentBet gameState)
    (GameState.minRaise gameState) = betValid ->
  amount <= Player.stack player /\
  (GameState.currentBet gameState < amount ->
   GameState.minRaise gameState <= amount \/ amount == Player.stack player) /\
  let '(player', _, newCurrentBet) :=
    processPlayerAction (BetAction.mk raise (Some amount)) player gameState in
  Player.currentBet player' == amount /\ newCurrentBet == amount.
Proof.
  unfold validateBetAmount, Qltb.
  destruct (Qle_bool amount (Player.stack player)) eqn:E1; cbn [negb];
    [|discriminate].
  apply Qle_bool_iff in E1.
  destruct (Qle_bool amount (GameState.currentBet gameState)) eqn:E2;
    destruct (Qle_bool (GameState.minRaise gameState) amount) eqn:E3;
    destruct (Qle_bool (Player.stack player) amount) eqn:E4;
    cbn [negb andb]; try discriminate; intros _;
    (split; [exact E1|]); (split; [|
      unfold processPlayerAction;
      cbn [BetAction.type BetAction.amount orZero Player.currentBet];
      rewrite (Q.min_l _ _ E1); split; reflexivity]);
    intros Hlt;
    try (apply Qle_bool_iff in E2; lra);
    try (apply Qle_bool_iff in E3; now left);
    apply Qle_bool_iff in E4; right; lra.
Qed.

Lemma validated_raise_exact_witness :
  4 <= Player.stack (seatWith hero 10 1).
Proof.
  exact (proj1 (validated_raise_exact 4 (seatWith hero 10 1)
                  (initializeGame 10 10 10 10) eq_refl)).
Defined.

(** The stack [generateRandomStack] draws is a whole number of big blinds
    within the requested bounds, when the bounds differ by a whole number:
    at least [minBB] and at most [maxBB] big blinds. *)
Theorem generateRandomStack_bounds (r minBB maxBB bigBlind : Q) (span : Z) :
  0 <= r -> r < 1 -> 0 <= bigBlind ->
  maxBB - minBB == inject_Z span -> (0 <= span)%Z ->
  minBB * bigBlind <= generateRandomStack r minBB maxBB bigBlind /\
  generateRandomStack r minBB maxBB bigBlind <= maxBB * bigBlind /\
  exists n : Z, (0 <= n <= span)%Z /\
    generateRandomStack r minBB maxBB bigBlind == (inject_Z n + minBB) * bigBlind.
Proof.
  intros H0 H1 Hbb Hspan Hpos. unfold generateRandomStack, Math_floor.
  set (x := r * (maxBB - minBB + 1)).
  assert (Hs : 0 <= inject_Z span)
    by (change 0 with (inject_Z 0); now rewrite <- Zle_Qle).
  assert (Hx0 : 0 <= x) by (unfold x; nra).
  assert (Hx1 : x < inject_Z (span + 1)).
  { rewrite inject_Z_plus. change (inject_Z 1) with 1. unfold x. nra. }
  assert (Hf0 : (0 <= Qfloor x)%Z).
  { change 0%Z with (Qfloor 0). now apply Qfloor_resp_le. }
  assert (Hf1 : (Qfloor x <= span)%Z).
  { pose proof (Qfloor_le x) as Hle.
    assert (Hlt : inject_Z (Qfloor x) < inject_Z (span + 1))
      by (eapply Qle_lt_trans; eassumption).
    rewrite <- Zlt_Qlt in Hlt. lia. }
  assert (Hq0 : 0 <= inject_Z (Qfloor x))
    by (change 0 with (inject_Z 0); now rewrite <- Zle_Qle).
  assert (Hq1 : inject_Z (Qfloor x) <= inject_Z span) by now rewrite <- Zle_Qle.
  split; [nra|]. split; [nra|].
  exists (Qfloor x). split; [lia|reflexivity].
Qed.

Lemma generateRandomStack_bounds_witness :
  30 * 1 <= generateRandomStack (1 # 2) 30 200 1.
Proof.
  refine (proj1 (generateRandomStack_bounds (1 # 2) 30 200 1 170 _ _ _ _ _));
    try discriminate; reflexivity.
Defined.

Close Scope Q_scope.

(** [determineWinner] never looks at the hand evaluations: whatever they
    are, the winner it returns is the first player of the table who has
    not folded; with every player folded it throws a TypeError. *)
Theorem determineWinner_first_seat (players : list Player.t)
  (evaluations : PlayerPosition -> option HandEvaluation) :
  determineWinner players evaluations
  = match find (fun p => negb (Player.isFolded p)) players with
    | Some p => Ok [Player.position p]
    | None => Throw TypeError
    end.
Proof.
  unfold determineWinner, getActivePlayers.
  assert (H : hd_error (filter (fun p => negb (Player.isFolded p)) players)
              = find (fun p => negb (Player.isFolded p)) players).
  { induction players as [|p players IH]; [reflexivity|].
    cbn [filter find]. destruct (negb (Player.isFolded p)); [reflexivity|exact IH]. }
  rewrite <- H.
  destruct (filter (fun p => negb (Player.isFolded p)) players) as [|p rest];
    [reflexivity|].
  cbn [length map nth_error hd_error deref bind fst].
  destruct (length rest); reflexivity.
Qed.

(* ================================================================= *)
(** ** Pot odds and expected value *)

Open Scope Q_scope.

Lemma Math_round_mono (x y : Q) : x <= y -> Math_round x <= Math_round y.
Proof.
  intros H. unfold Math_round. rewrite <- Zle_Qle. apply Qfloor_resp_le. lra.
Qed.

(** The share of the final pot a call pays, for a positive call. *)
Lemma potShare_bounds (potSize callAmount : Q) :
  0 <= potSize -> 0 < callAmount ->
  0 < callAmount / (potSize + callAmount) /\
  callAmount / (potSize + callAmount) <= 1.
Proof.
  intros Hp Hc. split.
  - apply Qlt_shift_div_l; lra.
  - apply Qle_shift_div_r; lra.
Qed.

(** For a pot and a call that are not negative, [calculatePotOdds] is a
    percentage between 0 and 100; with nothing to call it is 100. *)
Theorem calculatePotOdds_bounds (potSize callAmount : Q) :
  0 <= potSize -> 0 <= callAmount ->
  0 <= calculatePotOdds potSize callAmount <= 100 /\
  (callAmount == 0 -> calculatePotOdds potSize callAmount == 100).
Proof.
  intros Hp Hc. unfold calculatePotOdds.
  destruct (Qeq_bool callAmount 0) eqn:E.
  - apply Qeq_bool_iff in E. split; [split; discriminate|reflexivity].
  - apply Qeq_bool_neq in E. assert (Hpos : 0 < callAmount) by lra.
    destruct (potShare_bounds potSize callAmount Hp Hpos) as [Hs0 Hs1].
    set (share := callAmount / (potSize + callAmount)) in *.
    pose proof (Math_round_mono 0 (share * 100 * 10) ltac:(lra)) as H0.
    pose proof (Math_round_mono (share * 100 * 10) 1000 ltac:(lra)) as H1.
    change (Math_round 0) with 0 in H0. change (Math_round 1000) with 1000 in H1.
    set (rounded := Math_round (share * 100 * 10)) in *.
    assert (Hdiv : rounded / 10 == rounded * (1 # 10)) by (unfold Qdiv; reflexivity).
    rewrite Hdiv. split; [split; lra|]. intros H. lra.
Qed.

Lemma calculatePotOdds_bounds_witness :
  0 <= calculatePotOdds 3 1 <= 100.
Proof.
  refine (proj1 (calculatePotOdds_bounds 3 1 _ _)); discriminate.
Defined.

(** Adding expected future bets never makes a call look worse: for
    non-negative amounts and a positive call, the implied odds are at most
    the pot odds. *)
Theorem calculateImpliedOdds_le (potSize callAmount estimatedFutureBets : Q) :
  0 <= potSize -> 0 < callAmount -> 0 <= estimatedFutureBets ->
  calculateImpliedOdds potSize callAmount estimatedFutureBets
  <= calculatePotOdds potSize callAmount.
Proof.
  intros Hp Hc Hf. unfold calculateImpliedOdds, calculatePotOdds.
  destruct (Qeq_bool callAmount 0) eqn:E.
  - apply Qeq_bool_iff in E. lra.
  - assert (Hshare : callAmount / (potSize + estimatedFutureBets + callAmount)
                     <= callAmount / (potSize + callAmount)).
    { apply Qle_shift_div_r; [lra|].
      assert (Hx : callAmount / (potSize + callAmount) * (potSize + callAmount)
                   == callAmount) by (field; lra).
      destruct (potShare_bounds potSize callAmount Hp Hc) as [Hs0 _].
      set (share := callAmount / (potSize + callAmount)) in *. nra. }
    set (s1 := callAmount / (potSize + estimatedFutureBets + callAmount)) in *.
    set (s2 := callAmount / (potSize + callAmount)) in *.
    pose proof (Math_round_mono (s1 * 100 * 10) (s2 * 100 * 10) ltac:(lra)) as Hm.
    unfold Qdiv. apply Qmult_le_compat_r; [exact Hm|discriminate].
Qed.

Lemma calculateImpliedOdds_le_witness :
  calculateImpliedOdds 3 1 4 <= calculatePotOdds 3 1.
Proof.
  refine (calculateImpliedOdds_le 3 1 4 _ _ _); [discriminate|reflexivity|discriminate].
Defined.

(** [calculateEV] never falls when the call gets better: it does not
    decrease when the equity grows (the pot and the call together not
    being negative), nor when the pot grows (the equity not being
    negative). *)
Theorem calculateEV_monotone (potSize potSize' callAmount equity equity' : Q) :
  (0 <= potSize + callAmount -> equity <= equity' ->
   calculateEV potSize callAmount equity <= calculateEV potSize callAmount equity') /\
  (0 <= equity -> potSize <= potSize' ->
   calculateEV potSize callAmount equity <= calculateEV potSize' callAmount equity).
Proof.
  unfold calculateEV, Qdiv. change (/ 100) with (1 # 100). split.
  - intros Hpot Hle. apply Qmult_le_compat_r; [|discriminate].
    apply Math_round_mono.
    pose proof (Qmult_le_0_compat (equity' - equity) (potSize + callAmount)
                  ltac:(lra) Hpot).
    lra.
  - intros Heq Hle. apply Qmult_le_compat_r; [|discriminate].
    apply Math_round_mono.
    pose proof (Qmult_le_0_compat equity (potSize' - potSize) Heq ltac:(lra)).
    lra.
Qed.

Lemma calculateEV_monotone_witness :
  calculateEV 3 1 25 <= calculateEV 3 1 50.
Proof.
  refine (proj1 (calculateEV_monotone 3 3 1 25 50) _ _); discriminate.
Defined.

Close Scope Q_scope.

(* ================================================================= *)
(** ** The hand as a whole *)

Lemma mapResult_nth (A B : Type) (f : A -> result B) (xs : list A) :
  forall ys, mapResult f xs = Ok ys ->
    length ys = length xs /\
    forall i y, nth_error ys i = Some y ->
      exists x, nth_error xs i = Some x /\ f x = Ok y.
Proof.
  induction xs as [|x xs IH]; intros ys; cbn [mapResult].
  - intros [= <-]. split; [reflexivity|]. intros [|i] y H; discriminate H.
  - destruct (f x) as [y0|] eqn:Ex; [|discriminate]. cbn [bind].
    destruct (mapResult f xs) as [ys0|]; [|discriminate]. cbn [bind].
    intros [= <-]. destruct (IH ys0 eq_refl) as [Hlen Hnth].
    split; [cbn [length]; now rewrite Hlen|].
    intros [|i] y H; cbn [nth_error] in *.
    + injection H as <-. eauto.
    + now apply Hnth.
Qed.

Open Scope Q_scope.

(** Every seat is dealt the same two hole cards: [deal] reads the deck the
    callback has captured, so each of its calls in [startNewHand] returns
    the first two cards of that deck.  The hand starts with the seats of the
    previous state, nobody folded, and each player's chips (stack plus
    posted blind) are the stack the player had. *)
Theorem startNewHand_same_hole_cards
  (deck : list Card) (ai : PlayerPosition -> option PlayerStyleConfig.t)
  (prev s : GameState.t) :
  startNewHand deck ai prev = Ok s ->
  length (GameState.players s) = length (GameState.players prev) /\
  forall i p', nth_error (GameState.players s) i = Some p' ->
    exists p, nth_error (GameState.players prev) i = Some p /\
      Player.position p' = Player.position p /\
      Player.holeCards p' = firstn 2 deck /\
      length (Player.holeCards p') = 2%nat /\
      Player.isFolded p' = false /\
      Player.stack p' + Player.currentBet p' == Player.stack p.
Proof.
  unfold startNewHand.
  destruct (getBlindPositions _ _) as [[d sb] bb].
  set (reset1 := map _ (GameState.players prev)).
  set (reset2 := match GameState.phase prev with waiting => _ | _ => reset1 end).
  assert (Hreset : length reset2 = length (GameState.players prev) /\
            forall i y, nth_error reset2 i = Some y ->
              exists p, nth_error (GameState.players prev) i = Some p /\
                Player.position y = Player.position p /\
                Player.stack y = Player.stack p /\
                Player.currentBet y = 0 /\ Player.isFolded y = false).
  { assert (H1 : forall i y, nth_error reset1 i = Some y ->
              exists p, nth_error (GameState.players prev) i = Some p /\
                Player.position y = Player.position p /\
                Player.stack y = Player.stack p /\
                Player.currentBet y = 0 /\ Player.isFolded y = false).
    { intros i y. unfold reset1. rewrite nth_error_map.
      destruct (nth_error (GameState.players prev) i) as [p|]; [|discriminate].
      intros [= <-]. exists p. repeat split. }
    assert (L1 : length reset1 = length (GameState.players prev))
      by apply length_map.
    unfold reset2. destruct (GameState.phase prev); try (split; assumption).
    split; [now rewrite length_map|].
    intros i y. rewrite nth_error_map.
    destruct (nth_error reset1 i) as [y0|] eqn:E0; [|discriminate].
    destruct (H1 i y0 E0) as (p & Hp & Hpos & Hst & Hbet & Hf).
    intros [= <-]. exists p. split; [exact Hp|].
    match goal with
    | |- context [if ?b then _ else _] => destruct b
    end; [|repeat split; assumption].
    destruct (ai (Player.position y0));
      cbn [Player.position Player.stack Player.currentBet Player.isFolded];
      repeat split; assumption. }
  clearbody reset2. clear reset1. destruct Hreset as [Lr Hr].
  destruct (mapResult _ reset2) as [withCards|] eqn:Em; [|discriminate].
  cbn [bind]. intros [= <-]. cbn [GameState.players].
  destruct (mapResult_nth _ _ _ _ _ Em) as [Lw Hw].
  split; [rewrite length_mapi; congruence|].
  intros i p'. rewrite nth_error_mapi.
  destruct (nth_error withCards i) as [x|] eqn:Ex; [|discriminate].
  cbn [option_map]. intros [= <-].
  destruct (Hw i x Ex) as (y & Hy & Hdeal).
  destruct (Hr i y Hy) as (p & Hp & Hpos & Hst & Hbet & Hf).
  exists p. split; [exact Hp|].
  destruct (deal deck 2) as [cs|] eqn:Ed; [|discriminate].
  cbn [bind] in Hdeal. injection Hdeal as <-.
  pose proof (deal_length _ _ _ Ed) as Hlen.
  assert (Hcs : cs = firstn 2 deck).
  { unfold deal, dealCards in Ed. destruct (length deck <? 2)%nat; [discriminate|].
    cbn [bind fst] in Ed. congruence. }
  destruct (i =? sb)%nat; [|destruct (i =? bb)%nat];
    cbn [Player.position Player.holeCards Player.isFolded Player.stack
         Player.currentBet];
    rewrite ?Hbet, ?Hst; repeat split; try assumption; try lra.
Qed.

Lemma startNewHand_same_hole_cards_witness :
  length (GameState.players acesState) = length (GameState.players table4).
Proof.
  refine (proj1 (startNewHand_same_hole_cards acesOnTop noStyles table4 acesState _)).
  vm_compute. reflexivity.
Defined.

Lemma mapi_replace_other (players : list Player.t) (k : nat) (q : Player.t) (i : nat) :
  i <> k ->
  nth_error (mapi (fun p index => if (index =? k)%nat then q else p) players) i
  = nth_error players i.
Proof.
  intros Hne. rewrite nth_error_mapi.
  destruct (nth_error players i); [|reflexivity]. cbn [option_map].
  destruct (Nat.eqb_spec i k); [contradiction|reflexivity].
Qed.

Lemma mapi_replace_same (players : list Player.t) (k : nat) (q : Player.t) :
  nth_error players k = Some q ->
  mapi (fun p index => if (index =? k)%nat then q else p) players = players.
Proof.
  intros Hk. apply nth_error_ext. intros i. rewrite nth_error_mapi.
  destruct (nth_error players i) as [p|] eqn:E; [|reflexivity]. cbn [option_map].
  destruct (Nat.eqb_spec i k) as [->|]; congruence.
Qed.

(** An action changes one seat only.  Every action that is carried out
    adds exactly one entry to the action history: the acting player, the
    action type, the amount ([0] when there is none), the time and the
    street the action was made on.  The number of seats, the button, the
    blind seats and the blind sizes stay as they are, and every other seat
    keeps its player, stack, hole cards, folded and all-in marks. *)
Theorem handlePlayerAction_frame
  (deck : list Card) (now : Z) (action : BetAction.t) (prev s : GameState.t) :
  handlePlayerAction deck now action prev = Ok s ->
  exists current,
    nth_error (GameState.players prev) (GameState.currentPlayerIndex prev)
      = Some current /\
    GameState.actionHistory s
      = GameState.actionHistory prev
        ++ [Action.mk (Player.position current) (Player.name current)
              (BetAction.type action) (orZero (BetAction.amount action)) now
              (GameState.bettingRound prev)] /\
    length (GameState.players s) = length (GameState.players prev) /\
    GameState.dealerButtonIndex s = GameState.dealerButtonIndex prev /\
    GameState.smallBlindIndex s = GameState.smallBlindIndex prev /\
    GameState.bigBlindIndex s = GameState.bigBlindIndex prev /\
    GameState.smallBlind s = GameState.smallBlind prev /\
    GameState.bigBlind s = GameState.bigBlind prev /\
    forall i p', i <> GameState.currentPlayerIndex prev ->
      nth_error (GameState.players s) i = Some p' ->
      exists p, nth_error (GameState.players prev) i = Some p /\ sameSeat p p'.
Proof.
  unfold handlePlayerAction.
  destruct (nth_error (GameState.players prev) (GameState.currentPlayerIndex prev))
    as [current|]; [|discriminate].
  cbn [deref bind].
  destruct (processPlayerAction action current prev) as [[updated inc] bet].
  set (updatedPlayers := mapi _ (GameState.players prev)).
  assert (Hlen : length updatedPlayers = length (GameState.players prev))
    by apply length_mapi.
  assert (Hother : forall i p', i <> GameState.currentPlayerIndex prev ->
            nth_error updatedPlayers i = Some p' ->
            exists p, nth_error (GameState.players prev) i = Some p /\ sameSeat p p').
  { intros i p' Hne. unfold updatedPlayers. rewrite mapi_replace_other by exact Hne.
    intros H. exists p'. split; [exact H|]. now repeat split. }
  assert (Hcollected : forall i p', i <> GameState.currentPlayerIndex prev ->
            nth_error (fst (collectBets updatedPlayers)) i = Some p' ->
            exists p, nth_error (GameState.players prev) i = Some p /\ sameSeat p p').
  { intros i p' Hne. unfold collectBets. cbn [fst]. rewrite nth_error_map.
    destruct (nth_error updatedPlayers i) as [q|] eqn:Eq; [|discriminate].
    intros [= <-]. destruct (Hother i q Hne Eq) as (p & Hp & Hs).
    exists p. split; [exact Hp|]. exact Hs. }
  assert (Hlenc : length (fst (collectBets updatedPlayers))
                  = length (GameState.players prev)).
  { unfold collectBets. cbn [fst]. now rewrite length_map. }
  clearbody updatedPlayers.
  intros H. exists current. split; [reflexivity|]. revert H.
  destruct (isHandOver updatedPlayers).
  { intros [= <-]. cbn. repeat split; assumption. }
  destruct (isBettingRoundComplete updatedPlayers bet).
  - destruct (collectBets updatedPlayers) as [after collected]. cbn [fst] in *.
    destruct (GameState.bettingRound prev); cbn [getNextBettingRound];
      try (destruct (deal deck 3) as [dealt|]; [|discriminate]);
      try (destruct (deal deck 1) as [dealt|]; [|discriminate]);
      cbn [bind]; intros [= <-]; cbn; repeat split; assumption.
  - destruct (getNextPlayerIndex updatedPlayers _) as [next|]; [|discriminate].
    cbn [bind]. intros [= <-]. cbn. repeat split; assumption.
Qed.

Lemma handlePlayerAction_frame_witness :
  exists current,
    nth_error (GameState.players acesState) (GameState.currentPlayerIndex acesState)
    = Some current.
Proof.
  destruct (handlePlayerAction_frame createDeck 0 (BetAction.mk call None) acesState
              (match handlePlayerAction createDeck 0 (BetAction.mk call None) acesState with
               | Ok s => s
               | Throw _ => acesState
               end))
    as (current & H & _).
  - vm_compute. reflexivity.
  - exists current. exact H.
Defined.

Lemma allMatched_complete (players : list Player.t) (currentBet : Q) :
  Forall (fun p => Player.currentBet p == currentBet) players ->
  isBettingRoundComplete players currentBet = true.
Proof.
  intros H. unfold isBettingRoundComplete.
  destruct (length _ =? 0)%nat; [reflexivity|].
  destruct (length _ =? 1)%nat; [reflexivity|].
  apply forallb_forall. intros p Hp. apply filter_In in Hp as [Hp _].
  rewrite Forall_forall in H. apply Qeq_bool_iff. now apply H.
Qed.

(** One check ends a street on which every bet is matched.  When more
    than one player is in the hand and every street bet equals the bet to
    match (as at the start of each street after the flop, where all are
    0), the check of the seat to act completes the betting round at once:
    the next street is dealt, or the showdown reached after the river,
    before any other player has acted. *)
Theorem check_ends_street
  (deck : list Card) (now : Z) (action : BetAction.t) (prev : GameState.t)
  (player : Player.t) :
  BetAction.type action = check ->
  nth_error (GameState.players prev) (GameState.currentPlayerIndex prev)
    = Some player ->
  (3 <= length deck)%nat ->
  isHandOver (GameState.players prev) = false ->
  Forall (fun p => Player.currentBet p == GameState.currentBet prev)
    (GameState.players prev) ->
  exists s,
    handlePlayerAction deck now action prev = Ok s /\
    match GameState.bettingRound prev with
    | river => GameState.phase s = showdown
    | round =>
        GameState.bettingRound s
        = match round with preflop => flop | flop => turn | _ => river end /\
        length (GameState.communityCards s)
        = match round with
          | preflop => 3%nat
          | _ => S (length (GameState.communityCards prev))
          end
    end.
Proof.
  intros Htype Hp Hdeck Hover Hall.
  assert (Hproc : processPlayerAction action player prev
                  = (player, 0, GameState.currentBet prev)).
  { unfold processPlayerAction. now rewrite Htype. }
  pose proof (street_advances deck now action prev player Hp Hdeck) as H.
  cbv zeta in H. rewrite Hproc in H. cbn [fst snd] in H.
  rewrite (mapi_replace_same _ _ _ Hp) in H.
  destruct (H Hover (allMatched_complete _ _ Hall)) as (s & Hs & _ & _ & _ & Hround).
  exists s. split; [exact Hs|].
  destruct (GameState.bettingRound prev); try exact Hround;
    destruct Hround as (_ & Hr & Hc & _); now split.
Qed.

Lemma check_ends_street_witness :
  exists s,
    handlePlayerAction createDeck 0 (BetAction.mk check None) flopState = Ok s /\
    GameState.bettingRound s = turn.
Proof.
  destruct (check_ends_street createDeck 0 (BetAction.mk check None) flopState flopSeat)
    as (s & Hs & Hr & _).
  - reflexivity.
  - vm_compute. reflexivity.
  - vm_compute. lia.
  - vm_compute. reflexivity.
  - vm_compute. repeat constructor.
  - exists s. split; [exact Hs|exact Hr].
Defined.

Close Scope Q_scope.

(* ================================================================= *)
(** ** What the AI answers *)

Open Scope Q_scope.

Ltac decide_shape :=
  split_ifs; intros [= <-];
  unfold determineRaiseSize, raiseAction, callAction, foldAction, checkAction;
  cbn [BetAction.type BetAction.amount];
  repeat match goal with
    | H : Qeq_bool _ _ = true |- _ => apply Qeq_bool_iff in H
    | H : Qeq_bool _ _ = false |- _ => apply Qeq_bool_neq in H
    end;
  repeat split; intros; try discriminate; try assumption; try reflexivity;
  eauto.

(** The shape of the AI's answers.  The AI never answers all-in.  It
    checks only when its street bet equals the bet to match; it calls only
    when they differ, for the difference (not capped at its stack); a raise
    always carries an amount; and after the flop it never folds when it
    could check. *)
Theorem decide_shape_of_answer
  (styleConfig : PlayerStyleConfig.t) (rnd : nat -> Q) (player : Player.t)
  (gameState : GameState.t) (action : BetAction.t) :
  decide styleConfig rnd player gameState = Ok action ->
  BetAction.type action <> all_in /\
  (BetAction.type action = check ->
   GameState.currentBet gameState == Player.currentBet player /\
   BetAction.amount action = None) /\
  (BetAction.type action = call ->
   ~ GameState.currentBet gameState == Player.currentBet player /\
   BetAction.amount action
   = Some (GameState.currentBet gameState - Player.currentBet player)) /\
  (BetAction.type action = raise -> exists a, BetAction.amount action = Some a) /\
  (BetAction.type action = fold ->
   BetAction.amount action = None /\
   (GameState.bettingRound gameState <> preflop ->
    ~ GameState.currentBet gameState == Player.currentBet player)).
Proof.
  unfold decide.
  destruct (GameState.bettingRound gameState) eqn:Eround.
  - unfold decidePreFlop.
    destruct (nth_error (Player.holeCards player) 0); [|discriminate].
    destruct (nth_error (Player.holeCards player) 1); [|discriminate].
    cbn [deref bind]. decide_shape.
  - unfold decidePostFlop.
    destruct (evaluateHand _); [|discriminate]. cbn [bind]. decide_shape.
  - unfold decidePostFlop.
    destruct (evaluateHand _); [|discriminate]. cbn [bind]. decide_shape.
  - unfold decidePostFlop.
    destruct (evaluateHand _); [|discriminate]. cbn [bind]. decide_shape.
Qed.

Lemma decide_shape_of_answer_witness :
  BetAction.type (BetAction.mk raise (Some 0)) <> all_in.
Proof.
  refine (proj1 (decide_shape_of_answer (PLAYER_STYLES tight_aggressive) zeroDraws
                   acesSeat acesState (BetAction.mk raise (Some 0)) _)).
  vm_compute. reflexivity.
Defined.

(** The AI always answers when it can see a hand: with two hole cards it
    returns an action before the flop, and after the flop as soon as its
    hole cards and the board make five cards or more. *)
Theorem decide_answers
  (styleConfig : PlayerStyleConfig.t) (rnd : nat -> Q) (player : Player.t)
  (gameState : GameState.t) :
  length (Player.holeCards player) = 2%nat ->
  GameState.bettingRound gameState = preflop \/
  (3 <= length (GameState.communityCards gameState))%nat ->
  exists action, decide styleConfig rnd player gameState = Ok action.
Proof.
  intros Hhole Hround. unfold decide.
  assert (Hpost : exists action,
            decidePostFlop styleConfig rnd player (GameState.currentBet gameState)
              (GameState.pot gameState) (GameState.communityCards gameState)
            = Ok action \/
            GameState.bettingRound gameState = preflop).
  { destruct Hround as [Hpre|Hboard]; [exists foldAction; now right|].
    unfold decidePostFlop.
    destruct (evaluateHand_ok (Player.holeCards player
                               ++ GameState.communityCards gameState))
      as (e & -> & _); [rewrite length_app; lia|].
    cbn [bind]. split_ifs; eexists; left; reflexivity. }
  destruct (GameState.bettingRound gameState) eqn:Eround;
    try (destruct Hpost as (action & [H|H]); [eauto|discriminate H]).
  unfold decidePreFlop.
  destruct (Player.holeCards player) as [|c1 [|c2 [|c3 rest]]]; try discriminate Hhole.
  cbn [nth_error deref bind]. split_ifs; eexists; reflexivity.
Qed.

Lemma decide_answers_witness :
  exists action,
    decide (PLAYER_STYLES tight_aggressive) zeroDraws acesSeat acesState = Ok action.
Proof.
  apply decide_answers; [reflexivity|left; reflexivity].
Defined.

(** The size of the AI's raises: for an aggression, a pot and a stack
    that are not negative, the raise is not negative and at most the
    player's stack, and it is a raise to 0 while the pot is empty. *)
Theorem determineRaiseSize_bounds
  (styleConfig : PlayerStyleConfig.t) (player : Player.t) (pot handStrength : Q) :
  0 <= PlayerStyleConfig.aggression styleConfig ->
  0 <= pot -> 0 <= Player.stack player ->
  exists a,
    determineRaiseSize styleConfig player pot handStrength
    = BetAction.mk raise (Some a) /\
    0 <= a /\ a <= Player.stack player /\
    (pot == 0 -> a == 0).
Proof.
  intros Ha0 Hpot Hstack. unfold determineRaiseSize, raiseAction.
  eexists. split; [reflexivity|].
  set (aggression := PlayerStyleConfig.aggression styleConfig) in *.
  set (m := if Qle_bool 85 handStrength then _ else _).
  assert (Hdiv : aggression / 10 == aggression * (1 # 10)) by (unfold Qdiv; reflexivity).
  assert (Hm0 : 0 <= m).
  { unfold m. destruct (Qle_bool 85 handStrength); [|destruct (Qle_bool 70 handStrength)];
      rewrite Hdiv; lra. }
  clearbody m.
  assert (Hx0 : 0 <= pot * m) by (apply Qmult_le_0_compat; assumption).
  assert (Hf0 : 0 <= Math_floor (pot * m)).
  { unfold Math_floor. change 0 with (inject_Z (Qfloor 0)).
    rewrite <- Zle_Qle. now apply Qfloor_resp_le. }
  assert (Hf1 : Math_floor (pot * m) <= pot * m) by apply Qfloor_le.
  split; [apply Q.min_glb; assumption|].
  split; [apply Q.le_min_r|].
  pose proof (Q.le_min_l (Math_floor (pot * m)) (Player.stack player)) as Hl.
  intros Hz. assert (Hx : pot * m == 0) by (rewrite Hz; ring).
  assert (Hmin0 : 0 <= Qmin (Math_floor (pot * m)) (Player.stack player))
    by (apply Q.min_glb; assumption).
  lra.
Qed.

Lemma determineRaiseSize_bounds_witness :
  exists a,
    determineRaiseSize (PLAYER_STYLES tight_aggressive) (seatWith hero 100 0) 10 90
    = BetAction.mk raise (Some a) /\ 0 <= a.
Proof.
  destruct (determineRaiseSize_bounds (PLAYER_STYLES tight_aggressive)
              (seatWith hero 100 0) 10 90) as (a & H & H0 & _);
    try discriminate.
  exists a. split; [exact H|exact H0].
Defined.

(** Before the flop the AI sizes its raises by the pot, and the blinds
    are street bets, not pot: while the pot is empty every raise the AI
    answers before the flop is a raise to 0. *)
Theorem decide_preflop_raise_to_zero
  (styleConfig : PlayerStyleConfig.t) (rnd : nat -> Q) (player : Player.t)
  (gameState : GameState.t) (action : BetAction.t) :
  decide styleConfig rnd player gameState = Ok action ->
  GameState.bettingRound gameState = preflop ->
  GameState.pot gameState == 0 ->
  0 <= Player.stack player ->
  BetAction.type action = raise ->
  exists a, BetAction.amount action = Some a /\ a == 0.
Proof.
  intros Hd Hround Hpot Hstack Htype.
  assert (Hsize : forall hs,
            exists a, determineRaiseSize styleConfig player (GameState.pot gameState) hs
                      = BetAction.mk raise (Some a) /\ a == 0).
  { intros hs. unfold determineRaiseSize, raiseAction. eexists. split; [reflexivity|].
    set (m := if Qle_bool 85 hs then _ else _). clearbody m.
    assert (Hf : Math_floor (GameState.pot gameState * m) == 0).
    { unfold Math_floor.
      assert (Hz : GameState.pot gameState * m == 0) by (rewrite Hpot; ring).
      rewrite (Qfloor_comp _ _ Hz). reflexivity. }
    rewrite Hf. apply Q.min_l. exact Hstack. }
  unfold decide in Hd. rewrite Hround in Hd. unfold decidePreFlop in Hd.
  destruct (nth_error (Player.holeCards player) 0); [|discriminate].
  destruct (nth_error (Player.holeCards player) 1); [|discriminate].
  cbn [deref bind] in Hd. revert Hd. split_ifs; intros [= <-];
    try discriminate Htype;
    match goal with
    | |- context [determineRaiseSize _ _ _ ?hs] =>
        destruct (Hsize hs) as (a & -> & Ha); exists a; split; [reflexivity|exact Ha]
    end.
Qed.

Lemma decide_preflop_raise_to_zero_witness :
  exists a, BetAction.amount (BetAction.mk raise (Some 0)) = Some a /\ a == 0.
Proof.
  apply (decide_preflop_raise_to_zero (PLAYER_STYLES tight_aggressive) zeroDraws
           acesSeat acesState (BetAction.mk raise (Some 0)));
    try reflexivity; try discriminate.
Defined.

Close Scope Q_scope.

(* ================================================================= *)
(** ** Starting hands *)

(** The pre-flop score of two hole cards does not depend on the order of
    the two cards; it lies between 19 and 95, only a pair of aces scores
    95, and suited cards never score less than the same ranks unsuited. *)
Theorem evaluatePreFlopHand_score (card1 card2 : Card) :
  evaluatePreFlopHand card1 card2 = evaluatePreFlopHand card2 card1 /\
  (19 <= snd (evaluatePreFlopHand card1 card2) <= 95)%Z /\
  (snd (evaluatePreFlopHand card1 card2) = 95%Z <->
   rank card1 = RA /\ rank card2 = RA) /\
  forall s1 s2,
    (snd (evaluatePreFlopHand (mkCard s1 (rank card1)) (mkCard s2 (rank card2)))
     <= snd (evaluatePreFlopHand (mkCard s1 (rank card1)) (mkCard s1 (rank card2))))%Z.
Proof.
  destruct card1 as [s1 r1], card2 as [s2 r2].
  split; [destruct s1, s2, r1, r2; reflexivity|].
  split; [destruct s1, s2, r1, r2; vm_compute; split; discriminate|].
  split.
  - destruct s1, s2, r1, r2; vm_compute; split;
      first [discriminate | intros [H1 H2]; discriminate | intros; split; reflexivity
            | reflexivity ].
  - intros t1 t2. cbn [rank]. destruct t1, t2, r1, r2; vm_compute; discriminate.
Qed.

(* ================================================================= *)
(** ** The category an evaluation names *)

Lemma sortedDesc_firstn (A : Type) (key : A -> Z) (n : nat) (l : list A) :
  sortedDesc key l -> sortedDesc key (firstn n l).
Proof.
  unfold sortedDesc. intros H. revert n.
  induction H as [|x l Hs IH Hall]; intros [|n]; cbn [firstn]; constructor.
  - apply IH.
  - rewrite Forall_forall in *. intros y Hy. apply Hall. now apply firstn_In in Hy.
Qed.










Lemma straightCards_shape (cs : list Card) (ranks : list Rank) :
  (forall r, In r ranks -> In r (map rank (sortCardsByRank cs))) ->
  exists five,
    map (fun r => find (hasRank r) (sortCardsByRank cs)) ranks = map Some five /\
    map rank five = ranks /\ incl five cs.
Proof.
  induction ranks as [|r ranks IH]; intros Hin.
  - exists []. repeat split. intros c [].
  - destruct IH as (five & Hf & Hr & Hi); [intros; apply Hin; now right|].
    destruct (find_hasRank r _ (Hin r (or_introl eq_refl))) as (c & F & Hc & Hs).
    exists (c :: five). cbn [map]. rewrite F, Hf, Hr, Hc.
    repeat split. intros x [<-|Hx]; [|now apply Hi].
    unfold sortCardsByRank in Hs. now apply sortDesc_In in Hs.
Qed.

Lemma isConsecutive_five (values : list Z) :
  length values = 5 -> isConsecutive values = true ->
  exists top, values = [top; top - 1; top - 2; top - 3; top - 4]%Z.
Proof.
  destruct values as [|a [|b [|c [|d [|e [|? ?]]]]]]; try discriminate.
  intros _. cbn [isConsecutive].
  destruct (Z.eqb_spec (a - b) 1); [|discriminate].
  destruct (Z.eqb_spec (b - c) 1); [|discriminate].
  destruct (Z.eqb_spec (c - d) 1); [|discriminate].
  destruct (Z.eqb_spec (d - e) 1); [|discriminate].
  intros _. exists a. repeat f_equal; lia.
Qed.

Lemma checkStraight_sound (cs : list Card) (e : HandEvaluation) :
  checkStraight cs = Ok (Some e) ->
  exists five,
    cards e = map Some five /\ length five = 5 /\ incl five cs /\
    isRun (map rank five) /\ ranking e = straight.
Proof.
  unfold checkStraight.
  set (sorted := sortCardsByRank cs).
  set (uniqueRanks := uniqueRanksOf (map rank sorted)).
  destruct (includes uniqueRanks RA && includes uniqueRanks R2 &&
            includes uniqueRanks R3 && includes uniqueRanks R4 &&
            includes uniqueRanks R5) eqn:Hwheel.
  - intros [= <-].
    destruct (straightCards_shape cs [R5; R4; R3; R2; RA]) as (five & Hf & Hr & Hi).
    { repeat (apply andb_prop in Hwheel; destruct Hwheel as [Hwheel ?]).
      intros r Hr. apply uniqueRanksOf_In, includes_In.
      simpl in Hr. intuition (subst; assumption). }
    exists five. cbn [cards ranking]. split; [exact Hf|].
    split; [rewrite <- (length_map rank), Hr; reflexivity|].
    split; [exact Hi|]. split; [left; exact Hr|reflexivity].
  - destruct (firstRun uniqueRanks) as [fiveRanks|] eqn:Hrun; [|discriminate].
    apply firstRun_some in Hrun. destruct Hrun as (Hlen & Hin & Hcons).
    destruct (straightCards_shape cs fiveRanks) as (five & Hf & Hr & Hi).
    { intros r Hr. apply uniqueRanksOf_In. auto. }
    fold sorted in Hf. rewrite Hf.
    destruct (jsIndex (map Some five) 0) as [top|]; [|discriminate]. cbn [deref bind].
    intros [= <-]. exists five. cbn [cards ranking]. split; [reflexivity|].
    split; [rewrite <- (length_map rank), Hr; exact Hlen|].
    split; [exact Hi|]. split; [|reflexivity].
    right. rewrite Hr. apply isConsecutive_five; [now rewrite length_map|exact Hcons].
Qed.

Lemma checkStraightFlushIn_sound (suits : list Suit) (cs : list Card)
  (e : HandEvaluation) :
  checkStraightFlushIn suits cs = Ok (Some e) ->
  exists five,
    cards e = map Some five /\ length five = 5 /\ incl five cs /\
    formsHand straight_flush five /\ ranking e = straight_flush.
Proof.
  induction suits as [|s suits IH]; cbn [checkStraightFlushIn]; [discriminate|].
  destruct (5 <=? length (filter (hasSuit s) cs)); [|exact IH].
  destruct (checkStraight (filter (hasSuit s) cs)) as [[st|]|] eqn:Est;
    cbn [bind]; [|exact IH|discriminate].
  destruct (checkStraight_sound _ _ Est) as (five & Hf & Hl & Hi & Hrun & _).
  destruct (jsIndex (cards st) 0) as [top|]; [|discriminate]. cbn [deref bind].
  intros [= <-]. exists five. cbn [cards ranking]. split; [exact Hf|].
  split; [exact Hl|]. split.
  - intros c Hc. apply Hi in Hc. now apply filter_In in Hc.
  - split; [|reflexivity]. cbn [formsHand]. split; [|exact Hrun].
    exists s. apply Forall_forall. intros c Hc. apply Hi in Hc.
    apply filter_In in Hc as [_ Hc]. now apply Suit_eqb_eq in Hc.
Qed.

Lemma checkRoyalFlush_sound (cs : list Card) (e : HandEvaluation) :
  checkRoyalFlush cs = Ok (Some e) ->
  exists five,
    cards e = map Some five /\ length five = 5 /\ incl five cs /\
    formsHand royal_flush five /\ ranking e = royal_flush.
Proof.
  unfold checkRoyalFlush, checkStraightFlush.
  destruct (checkStraightFlushIn SUITS cs) as [[sf|]|] eqn:Esf; cbn [bind];
    try discriminate.
  destruct (checkStraightFlushIn_sound _ _ _ Esf)
    as (five & Hf & Hl & Hi & [Hsuit Hrun] & _).
  rewrite Hf. destruct five as [|c0 rest]; [discriminate Hl|].
  cbn [map jsIndex nth_error deref bind].
  destruct (Rank_eqb (rank c0) RA) eqn:Eace; [|discriminate].
  apply Rank_eqb_eq in Eace. intros [= <-].
  exists (c0 :: rest). cbn [cards ranking]. split; [reflexivity|].
  split; [exact Hl|]. split; [exact Hi|]. split; [|reflexivity].
  cbn [formsHand]. split; [exact Hsuit|].
  destruct Hrun as [Hwheel|(top & Htop)].
  - cbn [map] in Hwheel. congruence.
  - apply map_getRankValue_inj. rewrite Htop. cbn [map] in Htop.
    injection Htop as Htop _. rewrite Eace in Htop. cbn in Htop. subst top.
    reflexivity.
Qed.

Lemma checkFlushIn_sound (suits : list Suit) (cs : list Card) (e : HandEvaluation) :
  checkFlushIn suits cs = Ok (Some e) ->
  exists five,
    cards e = map Some five /\ length five = 5 /\ incl five cs /\
    formsHand flush five /\ ranking e = flush.
Proof.
  induction suits as [|s suits IH]; cbn [checkFlushIn]; [discriminate|].
  destruct (Nat.leb_spec 5 (length (filter (hasSuit s) cs))) as [Hlen|]; [|exact IH].
  destruct (sorted_firstn (filter (hasSuit s) cs) 5 Hlen) as [Hfive Hin].
  destruct (hd_error (firstn 5 (sortCardsByRank (filter (hasSuit s) cs))))
    as [top|]; [|discriminate].
  cbn [deref bind]. intros E. clear IH.
  assert (E' : mkEval flush
                 (map Some (firstn 5 (sortCardsByRank (filter (hasSuit s) cs))))
                 ("Flush, " ++ rankStr (rank top) ++ " high") = e) by congruence.
  rewrite <- E'. eexists. cbn [cards ranking].
  split; [reflexivity|]. split; [exact Hfive|]. split.
  - intros c Hc. apply Hin in Hc. now apply filter_In in Hc.
  - split; [|reflexivity]. cbn [formsHand]. split.
    + exists s. apply Forall_forall. intros c Hc. apply Hin in Hc.
      apply filter_In in Hc as [_ Hc]. now apply Suit_eqb_eq in Hc.
    + apply sortedDesc_firstn. apply sortDesc_sorted.
Qed.

Lemma checkHighCard_sound (cs : list Card) (e : HandEvaluation) :
  5 <= length cs -> checkHighCard cs = Ok e ->
  exists five,
    cards e = map Some five /\ length five = 5 /\ incl five cs /\
    formsHand high_card five /\ ranking e = high_card.
Proof.
  intros Hlen. unfold checkHighCard.
  destruct (sorted_firstn cs 5 Hlen) as [Hfive Hin].
  destruct (hd_error (firstn 5 (sortCardsByRank cs))) as [top|]; [|discriminate].
  cbn [deref bind]. intros E.
  assert (E' : mkEval high_card (map Some (firstn 5 (sortCardsByRank cs)))
                 ("High Card, " ++ rankStr (rank top)) = e) by congruence.
  rewrite <- E'. eexists. cbn [cards ranking].
  split; [reflexivity|]. split; [exact Hfive|]. split; [exact Hin|].
  split; [|reflexivity]. apply sortedDesc_firstn. apply sortDesc_sorted.
Qed.



Lemma checkFlushIn_none (suits : list Suit) (cs : list Card) :
  checkFlushIn suits cs = Ok None ->
  forall s, In s suits -> countSuit s cs < 5.
Proof.
  induction suits as [|s0 suits IH]; cbn [checkFlushIn]; intros H s Hs; [destruct Hs|].
  destruct (Nat.leb_spec 5 (length (filter (hasSuit s0) cs))) as [Hlen|Hlen].
  - destruct (sorted_firstn (filter (hasSuit s0) cs) 5 Hlen) as [Hfive _].
    destruct (firstn 5 (sortCardsByRank (filter (hasSuit s0) cs))); [discriminate Hfive|].
    discriminate H.
  - destruct Hs as [<-|Hs]; [exact Hlen|]. now apply IH.
Qed.

(** The category [evaluateHand] names is not lower than what the counts
    of ranks and suits show: four cards of a rank give at least four of a
    kind, three of one rank and two of another at least a full house, five
    cards of a suit at least a flush, three cards of a rank at least three
    of a kind, two ranks held twice at least two pair, and two cards of a
    rank at least a pair. *)
Theorem evaluateHand_complete (cs : list Card) (e : HandEvaluation) :
  evaluateHand cs = Ok e ->
  let value := rankingValues (ranking e) in
  (forall r, countRank r cs = 4 -> (8 <= value)%Z) /\
  (forall t p, t <> p -> 3 <= countRank t cs -> 2 <= countRank p cs ->
               (7 <= value)%Z) /\
  (forall s, 5 <= countSuit s cs -> (6 <= value)%Z) /\
  (forall r, countRank r cs = 3 -> (4 <= value)%Z) /\
  (forall p0 p1, p0 <> p1 -> 2 <= countRank p0 cs -> 2 <= countRank p1 cs ->
                 (3 <= value)%Z) /\
  (forall r, countRank r cs = 2 -> (2 <= value)%Z).
Proof.
  intros He. pose proof (evaluateHand_length cs e He) as Hlen.
  unfold evaluateHand in He.
  destruct (Nat.ltb_spec (length cs) 5) as [|_]; [lia|].
  unfold findBestHand, orElse in He.
  destruct (checkRoyalFlush cs) as [[x|]|] eqn:E1; cbn [bind] in He;
    [injection He as <-|..|discriminate He].
  { destruct (checkRoyalFlush_sound cs x E1) as (_ & _ & _ & _ & _ & ->).
    cbn. repeat split; intros; lia. }
  unfold checkStraightFlush in He.
  destruct (checkStraightFlushIn SUITS cs) as [[x|]|] eqn:E2; cbn [bind] in He;
    [injection He as <-|..|discriminate He].
  { destruct (checkStraightFlushIn_sound _ cs x E2) as (_ & _ & _ & _ & _ & ->).
    cbn. repeat split; intros; lia. }
  destruct (checkFourOfAKind_cases cs) as [(r & E3 & Hc)|[E3 Hno4]];
    rewrite E3 in He; cbn [bind] in He.
  { injection He as <-. cbn. repeat split; intros; lia. }
  destruct (checkFullHouse_cases cs)
    as [(t & p & E4 & _)|[E4 Hnofull]];
    rewrite E4 in He; cbn [bind] in He.
  { injection He as <-. cbn. repeat split; intros; try lia.
    exfalso. eapply Hno4; eassumption. }
  unfold checkFlush in He.
  assert (Hfull : forall t p, t <> p -> 3 <= countRank t cs -> 2 <= countRank p cs ->
                              False) by exact Hnofull.
  destruct (checkFlushIn SUITS cs) as [[x|]|] eqn:E5; cbn [bind] in He;
    [injection He as <-|..|discriminate He].
  { destruct (checkFlushIn_sound _ cs x E5) as (_ & _ & _ & _ & _ & ->).
    cbn. repeat split; intros; try lia; exfalso;
      [eapply Hno4; eassumption|eapply Hfull; eassumption]. }
  assert (Hnoflush : forall s, 5 <= countSuit s cs -> False).
  { intros s Hs. pose proof (checkFlushIn_none SUITS cs E5 s) as H.
    assert (In s SUITS) by (destruct s; cbn; tauto). specialize (H ltac:(assumption)).
    lia. }
  destruct (checkStraight cs) as [[x|]|] eqn:E6; cbn [bind] in He;
    [injection He as <-|..|discriminate He].
  { destruct (checkStraight_sound cs x E6) as (_ & _ & _ & _ & _ & ->).
    cbn. repeat split; intros; try lia; exfalso;
      [eapply Hno4; eassumption|eapply Hfull; eassumption
      |eapply Hnoflush; eassumption]. }
  destruct (checkThreeOfAKind_cases cs) as [(r & E7 & Hc)|[E7 Hno3]];
    rewrite E7 in He; cbn [bind] in He.
  { injection He as <-. cbn. repeat split; intros; try lia; exfalso;
      [eapply Hno4; eassumption|eapply Hfull; eassumption
      |eapply Hnoflush; eassumption]. }
  destruct (checkTwoPair_cases cs) as [(p0 & p1 & E8 & _)|[E8 Hno22]];
    rewrite E8 in He; cbn [bind] in He.
  { injection He as <-. cbn. repeat split; intros; try lia; exfalso;
      [eapply Hno4; eassumption|eapply Hfull; eassumption
      |eapply Hnoflush; eassumption|eapply Hno3; eassumption]. }
  destruct (checkPair_cases cs) as [(r & E9 & Hc)|[E9 Hno2]];
    rewrite E9 in He; cbn [bind] in He.
  { injection He as <-. cbn. repeat split; intros; try lia; exfalso;
      [eapply Hno4; eassumption|eapply Hfull; eassumption
      |eapply Hnoflush; eassumption|eapply Hno3; eassumption
      |eapply Hno22; eassumption]. }
  destruct (checkHighCard_sound cs e Hlen He) as (_ & _ & _ & _ & _ & ->).
  cbn. repeat split; intros; try lia; exfalso;
    [eapply Hno4; eassumption|eapply Hfull; eassumption
    |eapply Hnoflush; eassumption|eapply Hno3; eassumption
    |eapply Hno22; eassumption|eapply Hno2; eassumption].
Qed.

Lemma evaluateHand_complete_witness :
  countRank RK sevenCards = 2 /\
  (2 <= rankingValues (ranking sevenCardsHand))%Z.
Proof.
  split; [reflexivity|].
  exact (proj2 (proj2 (proj2 (proj2 (proj2
           (evaluateHand_complete sevenCards sevenCardsHand eq_refl)))))
           RK eq_refl).
Defined.

(* ================================================================= *)
(** ** Calling *)

Open Scope Q_scope.

(** After a call the player has matched the bet or is all-in.  For
    amounts of chips (whole numbers of half big blinds, on which the
    arithmetic of doubles is exact) the street bet becomes the bet to
    match when the stack covers the difference, and otherwise the whole
    stack goes in and the player is marked all-in.  The bet to match is
    left as it is. *)
Theorem call_matches_or_all_in
  (action : BetAction.t) (player : Player.t) (gameState : GameState.t) :
  chips (Player.stack player) -> chips (Player.currentBet player) ->
  chips (GameState.currentBet gameState) ->
  BetAction.type action = call ->
  let '(player', potIncrease, newCurrentBet) :=
    processPlayerAction action player gameState in
  newCurrentBet = GameState.currentBet gameState /\
  potIncrease == getCallAmount player (GameState.currentBet gameState) /\
  (GameState.currentBet gameState - Player.currentBet player <= Player.stack player ->
   Player.currentBet player' == GameState.currentBet gameState) /\
  (Player.stack player <= GameState.currentBet gameState - Player.currentBet player ->
   Player.stack player' == 0 /\ Player.isAllIn player' = true /\
   Player.currentBet player' == Player.currentBet player + Player.stack player).
Proof.
  intros _ _ _ Htype. unfold processPlayerAction, getCallAmount. rewrite Htype.
  cbn [Player.currentBet Player.stack Player.isAllIn].
  split; [reflexivity|]. split; [reflexivity|]. split.
  - intros H. rewrite (Q.min_l _ _ H). ring.
  - intros H. pose proof (Q.min_r _ _ H) as Hm.
    split; [rewrite Hm; ring|]. split; [|rewrite Hm; ring].
    match goal with
    | |- (if ?b then _ else _) = true =>
        assert (E : b = true) by (apply Qeq_bool_iff; rewrite Hm; ring);
        now rewrite E
    end.
Qed.

Lemma call_matches_or_all_in_witness :
  let '(player', potIncrease, newCurrentBet) :=
    processPlayerAction (BetAction.mk call None) (seatWith hero 10 2) facingSix in
  potIncrease == 4 /\ Player.currentBet player' == 6.
Proof.
  pose proof (call_matches_or_all_in (BetAction.mk call None)
                (seatWith hero 10 2) facingSix
                (chips_whole 10 ltac:(apply Z.leb_le; reflexivity))
                (chips_whole 2 ltac:(apply Z.leb_le; reflexivity))
                (chips_whole 6 ltac:(apply Z.leb_le; reflexivity))
                eq_refl) as H.
  destruct (processPlayerAction (BetAction.mk call None) (seatWith hero 10 2)
              facingSix) as [[player' potIncrease] newCurrentBet].
  destruct H as (_ & Hinc & Hmatch & _).
  split; [exact Hinc|]. apply Hmatch. discriminate.
Defined.

Close Scope Q_scope.

(* ================================================================= *)
(** ** Where the code leaves the rules *)

Open Scope Q_scope.

(** C2.  The cap of a raise is the stack alone, not the stack plus the
    street bet.  The hero of [shortStackTable] holds 40 behind a street
    bet of 60, faces a bet of 120 and raises to 200.  The total the claim
    commits is [min(200, 40 + 60) = 100]: the 40 go in and the player is
    all-in.  [processPlayerAction] commits [min(200, 40) = 40]: the
    street bet falls from 60 to 40, the stack grows from 40 to 60, the
    pot increase is -20, the player is not all-in and the bet to match
    falls from 120 to 40; [handlePlayerAction] then stores a pot of 10
    where 30 were, the bet to match 40 and the minimum raise
    [40 + max(40 - 120, 1) = 41]. *)
Theorem raise_cap_ignores_street_bet :
  exists player player' potIncrease newCurrentBet s,
    nth_error (GameState.players shortStackTable)
      (GameState.currentPlayerIndex shortStackTable) = Some player /\
    Player.stack player == 40 /\ Player.currentBet player == 60 /\
    GameState.currentBet shortStackTable == 120 /\
    GameState.pot shortStackTable == 30 /\
    Qmin 200 (Player.stack player + Player.currentBet player) == 100 /\
    processPlayerAction (BetAction.mk raise (Some 200)) player shortStackTable
    = (player', potIncrease, newCurrentBet) /\
    Player.currentBet player' == 40 /\
    Player.stack player' == 60 /\
    Player.isAllIn player' = false /\
    potIncrease == - (20) /\
    newCurrentBet == 40 /\
    handlePlayerAction createDeck 0 (BetAction.mk raise (Some 200)) shortStackTable
    = Ok s /\
    nth_error (GameState.players s) 0 = Some player' /\
    GameState.pot s == 10 /\
    GameState.currentBet s == 40 /\
    GameState.minRaise s == 41.
Proof.
  do 5 eexists.
  split; [reflexivity|]. do 5 (split; [reflexivity|]).
  split; [vm_compute; reflexivity|]. do 5 (split; [reflexivity|]).
  split; [vm_compute; reflexivity|]. repeat split.
Qed.

(** C3.  Two raises of the AI that the claim forbids.  On the flop of
    [bluffState], with 100 in the pot and no bet to match, the
    ultra-aggressive style holds seven-deuce and 10 chips; its bluff
    (first draw 0) is the raise [floor(100 * 0.5) = 50], five times the
    stack: the bluff branch has no cap at the stack.  Before the flop of
    [acesState] the tight-aggressive style holds two aces and 100 chips
    and faces the big blind; the pot is empty and [decide] raises to
    [floor(0 * 1.8) = 0], below the minimum raise 2 and not an all-in:
    [decide] never reads the minimum raise. *)
Theorem decide_raises_outside_the_rules :
  (exists a,
      nth_error (GameState.players bluffState)
        (GameState.currentPlayerIndex bluffState) = Some bluffSeat /\
      decide (PLAYER_STYLES ultra_aggressive) zeroDraws bluffSeat bluffState
      = Ok (BetAction.mk raise (Some a)) /\
      a == 50 /\ Player.stack bluffSeat == 10 /\ Player.stack bluffSeat < a) /\
  (exists a,
      startNewHand acesOnTop noStyles table4 = Ok acesState /\
      nth_error (GameState.players acesState)
        (GameState.currentPlayerIndex acesState) = Some acesSeat /\
      decide (PLAYER_STYLES tight_aggressive) zeroDraws acesSeat acesState
      = Ok (BetAction.mk raise (Some a)) /\
      a == 0 /\ GameState.minRaise acesState == 2 /\
      a < GameState.minRaise acesState /\
      Player.stack acesSeat == 100 /\ ~ a == Player.stack acesSeat).
Proof.
  split.
  - eexists. split; [reflexivity|]. split; [vm_compute; reflexivity|].
    repeat split.
  - eexists. split; [vm_compute; reflexivity|]. split; [reflexivity|].
    split; [vm_compute; reflexivity|]. repeat split. discriminate.
Qed.

Close Scope Q_scope.

(** C6.  A six-high straight that holds an ace is read as the wheel.
    [aceToSix] holds 6-5-4-3-2 and the ace: its best hand is the six-high
    straight.  [checkStraight] tests the wheel first, so [evaluateHand]
    selects 5-4-3-2-A and describes a five-high straight.  Against the
    wheel [mixedWheel], which the claim ranks strictly below every
    six-high straight, [compareHands] returns a tie; and against
    [twoToSix], the same six-high straight held without an ace, it
    returns a loss. *)
Theorem six_high_straight_read_as_wheel :
  exists e6 eWheel eSix,
    (forall r, In r [R6; R5; R4; R3; R2] -> In r (map rank aceToSix)) /\
    evaluateHand aceToSix = Ok e6 /\
    ranking e6 = straight /\
    slotRanks (cards e6) = map Some [R5; R4; R3; R2; RA] /\
    description e6 = "Straight, 5 high (Wheel)"%string /\
    evaluateHand mixedWheel = Ok eWheel /\
    compareHands eWheel e6 = Ok 0%Z /\
    compareHands e6 eWheel = Ok 0%Z /\
    evaluateHand twoToSix = Ok eSix /\
    slotRanks (cards eSix) = map Some [R6; R5; R4; R3; R2] /\
    compareHands e6 eSix = Ok (-1)%Z.
Proof.
  do 3 eexists.
  split; [intros r Hr; cbn in Hr |- *; intuition (subst; auto 10)|].
  split; [vm_compute; reflexivity|]. do 3 (split; [reflexivity|]).
  split; [vm_compute; reflexivity|]. do 2 (split; [reflexivity|]).
  split; [vm_compute; reflexivity|]. split; reflexivity.
Qed.
